(** * justETF scrapper: return analytics, record normalisation and projection sheet

    A shallow embedding of [export_etf_csv.py] and of the CAGR part of
    [scrape_justetf.py], with the properties the specification states
    about them.

    Modelling conventions.
    - A Python [float] is idealised as a real number ([R]); [math.pow]
      is [Rpower].  Not-a-number, the infinities and the sign of zero
      have no counterpart (the one place where the sign of a zero shows,
      the text produced by [fmt_number], is handled there).  One fact
      of the finite range is kept, where the normaliser leaves it
      uncaught: [float(n)] and [math.pow] raise [OverflowError] beyond
      the largest float.
    - A Python [str] is a [string] whose characters are code points
      below 256, so that ["\xa0"] is the single character 160.
    - A value decoded from JSON, or stored in a row dictionary, is a
      [pyval]; a dictionary is an association list in insertion order
      with distinct keys.
    - Code that can raise returns a [result]. *)

From Stdlib Require Import ZArith List String Ascii Bool Lia Reals Lra Permutation Sorted.
Import ListNotations.

Set Implicit Arguments.

(** ** Exceptions *)

Inductive exn : Type :=
| IndexError
| AttributeError
| OverflowError.

Inductive result (A : Type) : Type :=
| Ok (a : A)
| Raise (e : exn).

Arguments Ok {A} a.
Arguments Raise {A} e.

Definition bind {A B : Type} (m : result A) (k : A -> result B) : result B :=
  match m with
  | Ok a => k a
  | Raise e => Raise e
  end.

Declare Scope result_scope.
Delimit Scope result_scope with result.
Notation "'do' x <- m ; k" := (bind m (fun x => k))
  (at level 10, x name, m at level 100, k at level 200) : result_scope.

(** ** Python values *)

Module Py.

#[warnings="-register-all"]
Inductive pyval : Type :=
| PNone
| PBool (b : bool)
| PInt (z : Z)
| PFloat (x : R)
| PStr (s : string)
| PList (items : list pyval)
| PDict (fields : list (string * pyval)).

Definition dict : Type := list (string * pyval).

Fixpoint assoc (k : string) (d : dict) : option pyval :=
  match d with
  | [] => None
  | (k', v) :: d' => if String.eqb k k' then Some v else assoc k d'
  end.

(** [d.get(k, default)] and [d.get(k)]. *)
Definition get_default (d : dict) (k : string) (default : pyval) : pyval :=
  match assoc k d with
  | Some v => v
  | None => default
  end.

Definition get (d : dict) (k : string) : pyval := get_default d k PNone.

(** [d[k] = v]: the key keeps its place when it is already there. *)
Fixpoint set (d : dict) (k : string) (v : pyval) : dict :=
  match d with
  | [] => [(k, v)]
  | (k', v') :: d' =>
      if String.eqb k k' then (k', v) :: d' else (k', v') :: set d' k v
  end.

(** [del d[k]] for a key that is present. *)
Fixpoint del (d : dict) (k : string) : dict :=
  match d with
  | [] => []
  | (k', v') :: d' => if String.eqb k k' then d' else (k', v') :: del d' k
  end.

(** [isinstance(v, int)]: a [bool] is an [int] in Python. *)
Definition as_int (v : pyval) : option Z :=
  match v with
  | PInt z => Some z
  | PBool b => Some (if b then 1 else 0)%Z
  | _ => None
  end.

(** [isinstance(v, (int, float))], with the value [float(v)]. *)
Definition as_number (v : pyval) : option R :=
  match v with
  | PInt z => Some (IZR z)
  | PBool b => Some (if b then 1 else 0)%R
  | PFloat x => Some x
  | _ => None
  end.

Definition is_number (v : pyval) : bool :=
  match v with
  | PInt _ | PBool _ | PFloat _ => true
  | _ => false
  end.

(** The least magnitude that rounds past the largest float, half-way
    between it and [2 ** 1024]. *)
Definition float_limit : Z := 2 ^ 1024 - 2 ^ 970.

(** [float(v)] on a number raises [OverflowError] exactly on an [int]
    too large to convert to float. *)
Definition float_raises (v : pyval) : bool :=
  match v with
  | PInt z => (float_limit <=? Z.abs z)%Z
  | _ => false
  end.

(** [math.pow(x, y)] on a positive [x] raises [OverflowError] when [x]
    is finite and the power is not. *)
Definition pow_raises (x y : R) : bool :=
  if Rlt_dec x (IZR float_limit) then
    if Rle_dec (IZR float_limit) (Rpower x y) then true else false
  else false.

(** Truth value of [v]. *)
Definition truthy (v : pyval) : bool :=
  match v with
  | PNone => false
  | PBool b => b
  | PInt z => negb (Z.eqb z 0)
  | PFloat x => if Req_dec_T x 0 then false else true
  | PStr s => negb (String.eqb s EmptyString)
  | PList l => match l with [] => false | _ => true end
  | PDict d => match d with [] => false | _ => true end
  end.

(** [a or b]. *)
Definition or_else (a b : pyval) : pyval := if truthy a then a else b.

(** *** Characters and text *)

Definition code (c : ascii) : nat := nat_of_ascii c.

Definition is_digit (c : ascii) : bool :=
  (48 <=? code c)%nat && (code c <=? 57)%nat.

Definition is_alpha (c : ascii) : bool :=
  ((65 <=? code c)%nat && (code c <=? 90)%nat)
  || ((97 <=? code c)%nat && (code c <=? 122)%nat).

(** [str.isspace] and the class [\s] on code points below 256. *)
Definition is_space (c : ascii) : bool :=
  ((9 <=? code c)%nat && (code c <=? 13)%nat)
  || ((28 <=? code c)%nat && (code c <=? 32)%nat)
  || (code c =? 133)%nat || (code c =? 160)%nat.

Definition digit_val (c : ascii) : Z := Z.of_nat (code c) - 48.

Definition digit_char (d : Z) : ascii := ascii_of_nat (Z.to_nat (48 + d)).

Definition lower_char (c : ascii) : ascii :=
  let n := code c in
  if ((65 <=? n)%nat && (n <=? 90)%nat)
     || ((192 <=? n)%nat && (n <=? 222)%nat && negb (n =? 215)%nat)
  then ascii_of_nat (n + 32) else c.

Definition upper_char (c : ascii) : ascii :=
  let n := code c in
  if ((97 <=? n)%nat && (n <=? 122)%nat)
     || ((224 <=? n)%nat && (n <=? 254)%nat && negb (n =? 247)%nat)
  then ascii_of_nat (n - 32) else c.

Fixpoint smap (f : ascii -> ascii) (s : string) : string :=
  match s with
  | EmptyString => EmptyString
  | String c s' => String (f c) (smap f s')
  end.

(** [s.lower()]. *)
Definition lower (s : string) : string := smap lower_char s.

Fixpoint sall (p : ascii -> bool) (s : string) : bool :=
  match s with
  | EmptyString => true
  | String c s' => p c && sall p s'
  end.

(** Longest prefix whose characters satisfy [p], and the rest. *)
Fixpoint span (p : ascii -> bool) (s : string) : string * string :=
  match s with
  | EmptyString => (EmptyString, EmptyString)
  | String c s' =>
      if p c then let (a, b) := span p s' in (String c a, b)
      else (EmptyString, s)
  end.

Fixpoint lstrip (p : ascii -> bool) (s : string) : string :=
  match s with
  | EmptyString => EmptyString
  | String c s' => if p c then lstrip p s' else s
  end.

Fixpoint rstrip (p : ascii -> bool) (s : string) : string :=
  match s with
  | EmptyString => EmptyString
  | String c s' =>
      match rstrip p s' with
      | EmptyString => if p c then EmptyString else String c EmptyString
      | r => String c r
      end
  end.

(** [s.strip()]. *)
Definition strip (s : string) : string := rstrip is_space (lstrip is_space s).

(** [s.startswith(p)]; [prefix] is the Standard Library's. *)
Fixpoint drop_prefix (p s : string) : option string :=
  match p with
  | EmptyString => Some s
  | String a p' =>
      match s with
      | EmptyString => None
      | String b s' => if Ascii.eqb a b then drop_prefix p' s' else None
      end
  end.

(** [p in s]. *)
Fixpoint contains (p s : string) : bool :=
  match drop_prefix p s with
  | Some _ => true
  | None =>
      match s with
      | EmptyString => false
      | String _ s' => contains p s'
      end
  end.

(** [s.replace(old, new)] for a non-empty [old]: occurrences are replaced
    from left to right without overlap.  [fuel] bounds the scan; the
    length of [s] plus one is always enough. *)
Fixpoint replace_fuel (fuel : nat) (old new s : string) : string :=
  match fuel with
  | O => s
  | S fuel' =>
      match drop_prefix old s with
      | Some rest => new ++ replace_fuel fuel' old new rest
      | None =>
          match s with
          | EmptyString => EmptyString
          | String c s' => String c (replace_fuel fuel' old new s')
          end
      end
  end.

Definition replace (old new s : string) : string :=
  replace_fuel (S (String.length s)) old new s.

(** Replacement of one character, the case [s.replace(",", ".")]. *)
Definition replace_char (a b : ascii) (s : string) : string :=
  smap (fun c => if Ascii.eqb c a then b else c) s.

Fixpoint remove_char (a : ascii) (s : string) : string :=
  match s with
  | EmptyString => EmptyString
  | String c s' =>
      if Ascii.eqb c a then remove_char a s' else String c (remove_char a s')
  end.

(** Value of a run of decimal digits read from the left. *)
Fixpoint digits_val (acc : Z) (s : string) : Z :=
  match s with
  | EmptyString => acc
  | String c s' => digits_val (10 * acc + digit_val c) s'
  end.

(** Decimal digits of [n >= 0], most significant first. *)
Fixpoint digits_fuel (fuel : nat) (n : Z) (acc : string) : string :=
  match fuel with
  | O => acc
  | S fuel' =>
      let acc' := String (digit_char (n mod 10)) acc in
      if (n / 10 =? 0)%Z then acc' else digits_fuel fuel' (n / 10) acc'
  end.

Definition digits_of (n : Z) : string :=
  digits_fuel (S (Z.to_nat (Z.log2 n))) n EmptyString.

(** [str(z)] for an integer. *)
Definition str_of_Z (z : Z) : string :=
  if (z <? 0)%Z then String "-" (digits_of (- z)) else digits_of z.

(** Body of an integer literal: digits, single underscores between them. *)
Fixpoint int_body (prev_digit : bool) (acc : Z) (s : string) : option Z :=
  match s with
  | EmptyString => if prev_digit then Some acc else None
  | String c s' =>
      if is_digit c then int_body true (10 * acc + digit_val c) s'
      else if Ascii.eqb c "_" then
        if prev_digit then int_body false acc s' else None
      else None
  end.

(** The sign in front of a numeral. *)
Definition take_sign (t : string) : bool * string :=
  match t with
  | String "-" b => (true, b)
  | String "+" b => (false, b)
  | _ => (false, t)
  end.

(** [int(s)] in base ten; [None] stands for [ValueError]. *)
Definition int_of_str (s : string) : option Z :=
  let '(neg, body) := take_sign (strip s) in
  let value := int_body false 0 body in
  if neg then option_map Z.opp value else value.

(** [int(str(v))].  The text of a float always holds a point, an
    exponent or letters, the text of [None], of a [bool] and of a
    container is no numeral: [int] raises on all of them. *)
Definition int_of_str_of (v : pyval) : option Z :=
  match v with
  | PInt z => Some z
  | PStr s => int_of_str s
  | _ => None
  end.

(** [sorted] on integers (insertion, ascending). *)
Fixpoint insert_Z (x : Z) (l : list Z) : list Z :=
  match l with
  | [] => [x]
  | y :: l' => if (x <=? y)%Z then x :: l else y :: insert_Z x l'
  end.

Definition sorted_Z (l : list Z) : list Z := fold_right insert_Z [] l.

(** [sorted(l, key=...)] and [l.sort(key=...)], stable: an element goes
    after the ones whose key is not greater that came before it.  [lt x y]
    is [key(x) < key(y)]. *)
Fixpoint insert_by {A : Type} (lt : A -> A -> bool) (x : A) (l : list A) : list A :=
  match l with
  | [] => [x]
  | y :: l' => if lt x y then x :: l else y :: insert_by lt x l'
  end.

Definition sorted_by {A : Type} (lt : A -> A -> bool) (l : list A) : list A :=
  fold_left (fun acc x => insert_by lt x acc) l [].

(** The elements of [l] that [f] keeps, in order. *)
Fixpoint filter_map {A B : Type} (f : A -> option B) (l : list A) : list B :=
  match l with
  | [] => []
  | x :: l' =>
      match f x with
      | Some y => y :: filter_map f l'
      | None => filter_map f l'
      end
  end.

(** *** Numbers and their text *)

(** Nearest integer, ties to the even one: how [round] and the [f]
    format choose the last digit. *)
Definition round_half_even (x : R) : Z :=
  let f := Int_part x in
  let d := (x - IZR f)%R in
  if Rlt_dec d (1 / 2) then f
  else if Rlt_dec (1 / 2) d then (f + 1)%Z
  else if Z.even f then f else (f + 1)%Z.

(** [round(x, ndigits)]. *)
Definition py_round (x : R) (ndigits : nat) : R :=
  (IZR (round_half_even (x * 10 ^ ndigits)) / 10 ^ ndigits)%R.

(** The [n] low decimal digits of [v], zero padded. *)
Fixpoint pad_digits (n : nat) (v : Z) (acc : string) : string :=
  match n with
  | O => acc
  | S n' => pad_digits n' (v / 10) (String (digit_char (v mod 10)) acc)
  end.

(** [a / 10^n] written with exactly [n] decimals, for [a >= 0]. *)
Definition fixed (a : Z) (n : nat) : string :=
  let ip := digits_of (a / 10 ^ Z.of_nat n) in
  match n with
  | O => ip
  | _ => (ip ++ String "." (pad_digits n (a mod 10 ^ Z.of_nat n) EmptyString))%string
  end.

(** [f"{x:.{n}f}"]; [neg] is the sign bit of [x], which a zero keeps. *)
Definition format_f (neg : bool) (x : R) (n : nat) : string :=
  ((if neg then "-" else EmptyString) ++ fixed (Z.abs (round_half_even (x * 10 ^ n))) n)%string.

(** Value of the numeral [ip.fp]. *)
Definition decimal_val (ip fp : string) : R :=
  (IZR (digits_val 0 ip) + IZR (digits_val 0 fp) / 10 ^ String.length fp)%R.

(** [float(s)] on the numerals the parsers hand over: an optional sign,
    digits, at most one point; [None] stands for [ValueError].
    Exponents, underscores, [inf] and [nan] cannot come out of the
    regular expressions in front of the calls. *)
Definition py_float (s : string) : option R :=
  let t := strip s in
  let '(neg, body) := take_sign t in
  let '(ip, rest) := span is_digit body in
  let frac :=
    match rest with
    | EmptyString => Some EmptyString
    | String "." r =>
        let '(fp, rest') := span is_digit r in
        match rest' with EmptyString => Some fp | _ => None end
    | _ => None
    end in
  match frac with
  | None => None
  | Some fp =>
      if String.eqb ip EmptyString && String.eqb fp EmptyString then None
      else Some (if neg then - decimal_val ip fp else decimal_val ip fp)%R
  end.

(** The optional minus of the pattern below. *)
Definition take_minus (s : string) : string * string :=
  match s with
  | String "-" b => ("-"%string, b)
  | _ => (EmptyString, s)
  end.

(** The pattern [-?\d+(?:S\d+)?] tried at the start of [s], where [sep]
    is the class [S]; the text matched.  Every quantifier is greedy and
    none has to give characters back: a digit run is followed by a
    non-digit or by the end. *)
Definition match_number (sep : ascii -> bool) (s : string) : option string :=
  let '(sign, body) := take_minus s in
  let '(ip, rest) := span is_digit body in
  match ip with
  | EmptyString => None
  | _ =>
      match rest with
      | String c r =>
          if sep c then
            let '(fp, _) := span is_digit r in
            match fp with
            | EmptyString => Some (sign ++ ip)%string
            | _ => Some (sign ++ ip ++ String c fp)%string
            end
          else Some (sign ++ ip)%string
      | EmptyString => Some (sign ++ ip)%string
      end
  end.

(** [re.search] of that pattern: the leftmost match. *)
Fixpoint search_number (sep : ascii -> bool) (s : string) : option string :=
  match match_number sep s with
  | Some m => Some m
  | None =>
      match s with
      | EmptyString => None
      | String _ s' => search_number sep s'
      end
  end.

(** [re.sub(r"\s+", " ", s)]. *)
Fixpoint collapse_spaces (in_run : bool) (s : string) : string :=
  match s with
  | EmptyString => EmptyString
  | String c s' =>
      if is_space c then
        if in_run then collapse_spaces true s'
        else String " " (collapse_spaces true s')
      else String c (collapse_spaces false s')
  end.

Definition nbsp : ascii := ascii_of_nat 160.

Definition is_char (a c : ascii) : bool := Ascii.eqb c a.

(** [unit in {...}]. *)
Fixpoint mem (x : string) (l : list string) : bool :=
  match l with
  | [] => false
  | y :: l' => String.eqb x y || mem x l'
  end.

(** [s.upper()], on the letters whose capital is below 256. *)
Definition upper (s : string) : string := smap upper_char s.

(** [l[i] = v]. *)
Fixpoint assign {A : Type} (l : list A) (i : nat) (v : A) : result (list A) :=
  match l, i with
  | [], _ => Raise IndexError
  | _ :: l', O => Ok (v :: l')
  | x :: l', S i' =>
      match assign l' i' v with
      | Ok r => Ok (x :: r)
      | Raise e => Raise e
      end
  end.

(** [str(n)] for a count. *)
Definition str_of_nat (n : nat) : string := str_of_Z (Z.of_nat n).

End Py.

(** ** Calendar dates ([datetime.date]) *)

Module Date.

Local Open Scope Z_scope.

Record date : Type := mk_date { year : Z; month : Z; day : Z }.

Definition is_leap (y : Z) : bool :=
  (y mod 4 =? 0) && (negb (y mod 100 =? 0) || (y mod 400 =? 0)).

Definition days_before_month_table : list Z :=
  [0; 31; 59; 90; 120; 151; 181; 212; 243; 273; 304; 334].

Definition days_in_month_table : list Z :=
  [31; 28; 31; 30; 31; 30; 31; 31; 30; 31; 30; 31].

Definition days_in_month (y m : Z) : Z :=
  if (m =? 2) && is_leap y then 29
  else nth (Z.to_nat (m - 1)) days_in_month_table 0.

Definition days_before_year (y : Z) : Z :=
  let p := y - 1 in p * 365 + p / 4 - p / 100 + p / 400.

Definition days_before_month (y m : Z) : Z :=
  nth (Z.to_nat (m - 1)) days_before_month_table 0
  + (if (2 <? m) && is_leap y then 1 else 0).

Definition toordinal (d : date) : Z :=
  days_before_year (year d) + days_before_month (year d) (month d) + day d.

Definition valid (d : date) : bool :=
  (1 <=? year d) && (year d <=? 9999)
  && (1 <=? month d) && (month d <=? 12)
  && (1 <=? day d) && (day d <=? days_in_month (year d) (month d)).

(** [(b - a).days]. *)
Definition days_between (a b : date) : Z := toordinal b - toordinal a.

Definition fits_c_int (z : Z) : bool := (- 2147483648 <=? z) && (z <=? 2147483647).

(** [dt.date(y, m, d)] under [try: ... except ValueError: return None]:
    an argument that does not fit a C [int] raises [OverflowError],
    which that handler does not catch. *)
Definition date_checked (y m d : Z) : option date :=
  let dt := mk_date y m d in
  if valid dt then Some dt else None.

Definition date_new (y m d : Z) : result (option date) :=
  if fits_c_int y && fits_c_int m && fits_c_int d then Ok (date_checked y m d)
  else Raise OverflowError.

End Date.

(** ** Return analytics of [export_etf_csv.py] *)

Module ExportCsv.

Import Py.

Local Open Scope R_scope.

(** The loop [compounded *= 1.0 + (r / 100.0)] started at [1.0]. *)
Definition compound (returns : list R) : R :=
  fold_left (fun compounded r => compounded * (1 + r / 100)) returns 1.

Definition row_return (row : pyval) : option R :=
  match row with
  | PDict d => as_number (get d "return_pct")
  | _ => None
  end.

Definition annualize (compounded : R) (months : nat) : option R :=
  if Rle_dec compounded 0 then None
  else Some ((Rpower compounded (12 / INR months) - 1) * 100).

Definition compute_cagr_from_heatmap (heatmap : pyval) : option R :=
  match heatmap with
  | PDict h =>
      match get h "values" with
      | PList values =>
          let returns := filter_map row_return values in
          match returns with
          | [] => None
          | _ => annualize (compound returns) (List.length returns)
          end
      | _ => None
      end
  | _ => None
  end.

(** Whether [compute_cagr_from_heatmap] raises instead of returning:
    [float(ret)] on a row of the first loop, or [math.pow] once the
    product is known to be positive. *)
Definition compute_cagr_raises (heatmap : pyval) : bool :=
  match heatmap with
  | PDict h =>
      match get h "values" with
      | PList values =>
          if existsb (fun row => match row with
                                 | PDict d => float_raises (get d "return_pct")
                                 | _ => false
                                 end) values
          then true
          else
            let returns := filter_map row_return values in
            match returns with
            | [] => false
            | _ =>
                if Rle_dec (compound returns) 0 then false
                else pow_raises (compound returns) (12 / INR (List.length returns))
            end
      | _ => false
      end
  | _ => false
  end.

(** One row of the grid as [(year, (month_idx, ret))], or [None] when the
    loop body reaches a [continue]. *)
Definition row_point (row : pyval) : option (Z * (Z * R)) :=
  match row with
  | PDict d =>
      match int_of_str_of (get d "year") with
      | None => None
      | Some year =>
          match as_int (get d "month_index"), as_number (get d "return_pct") with
          | Some month_idx, Some ret => Some (year, (month_idx, ret))
          | _, _ => None
          end
      end
  | _ => None
  end.

(** [by_year.setdefault(year, []).append(item)]. *)
Fixpoint setdefault_append (by_year : list (Z * list (Z * R)))
  (year : Z) (item : Z * R) : list (Z * list (Z * R)) :=
  match by_year with
  | [] => [(year, [item])]
  | (y, items) :: rest =>
      if Z.eqb year y then (y, items ++ [item]) :: rest
      else (y, items) :: setdefault_append rest year item
  end.

Definition group_by_year (points : list (Z * (Z * R))) : list (Z * list (Z * R)) :=
  fold_left (fun by_year p => setdefault_append by_year (fst p) (snd p)) points [].

(** [by_year[year]]. *)
Fixpoint lookup_year (by_year : list (Z * list (Z * R))) (year : Z) : list (Z * R) :=
  match by_year with
  | [] => []
  | (y, items) :: rest => if Z.eqb year y then items else lookup_year rest year
  end.

Definition month_lt (a b : Z * R) : bool := (fst a <? fst b)%Z.

(** The grouped points whose key is [y]. *)
Definition year_is (y : Z) (p : Z * (Z * R)) : bool := (fst p =? y)%Z.

(** [sorted(items, key=lambda x: x[0])]: the sequence the inner loop
    walks, in this order. *)
Definition sorted_months (items : list (Z * R)) : list (Z * R) :=
  sorted_by month_lt items.

(** The inner loop over one year's items, and the entry it appends. *)
Definition year_return (items : list (Z * R)) : R :=
  (compound (map snd (sorted_months items)) - 1) * 100.

Definition compute_yearly_returns_from_heatmap (heatmap : pyval) : list R :=
  match heatmap with
  | PDict h =>
      match get h "values" with
      | PList values =>
          let by_year := group_by_year (filter_map row_point values) in
          map (fun year => year_return (lookup_year by_year year))
              (sorted_Z (map fst by_year))
      | _ => []
      end
  | _ => []
  end.

(** [sorted(by_year[year], key=lambda x: x[0])] as the outer loop of
    [compute_yearly_returns_from_heatmap] finds it for [year]: the
    months and returns the inner loop multiplies, in the order in which
    it multiplies them. *)
Definition months_of_year (heatmap : pyval) (year : Z) : list (Z * R) :=
  match heatmap with
  | PDict h =>
      match get h "values" with
      | PList values =>
          sorted_months (lookup_year (group_by_year (filter_map row_point values)) year)
      | _ => []
      end
  | _ => []
  end.

(** Whether [compute_yearly_returns_from_heatmap] raises instead of
    returning: [float(ret)] on a row that reaches the [append]. *)
Definition compute_yearly_returns_raises (heatmap : pyval) : bool :=
  match heatmap with
  | PDict h =>
      match get h "values" with
      | PList values =>
          existsb (fun row => match row, row_point row with
                              | PDict d, Some _ => float_raises (get d "return_pct")
                              | _, _ => false
                              end) values
      | _ => false
      end
  | _ => false
  end.

(** [sum(1 for r in yearly_returns if r < 0)]. *)
Definition neg_years (yearly_returns : list R) : Z :=
  fold_left (fun n r => if Rlt_dec r 0 then (n + 1)%Z else n) yearly_returns 0%Z.

(** [min(l)]: the first of the least elements; [None] on an empty list,
    where the caller does not call [min]. *)
Definition py_min (l : list R) : option R :=
  match l with
  | [] => None
  | x :: l' => Some (fold_left (fun m y => if Rlt_dec y m then y else m) l' x)
  end.

Definition worst_year (yearly_returns : list R) : option R := py_min yearly_returns.

(** *** Text parsers *)

Definition clean_spaces (value : string) : string :=
  strip (collapse_spaces false (replace_char nbsp " " value)).

Definition dot_or_comma (c : ascii) : bool := is_char "." c || is_char "," c.

(** [parse_percent] on a text that is not empty. *)
Definition parse_percent_str (value : string) : option R :=
  let text := replace "p.a." EmptyString (remove_char "%" (clean_spaces value)) in
  let text := remove_char "+" text in
  match search_number dot_or_comma text with
  | None => None
  | Some m => py_float (replace_char "," "." m)
  end.

(** [parse_percent(value)] on whatever the document holds: a value that
    is neither false nor text has no [replace] method. *)
Definition parse_percent (value : pyval) : result (option R) :=
  if negb (truthy value) then Ok None
  else
    match value with
    | PStr s => Ok (parse_percent_str s)
    | _ => Raise AttributeError
    end.

Definition aum_char (c : ascii) : bool :=
  is_digit c || is_space c || is_char "." c || is_char "," c.

(** The search of [parse_aum_meur]: from the leftmost digit, the first
    group is that digit and the longest run of digits, spaces, points
    and commas; the second group is the run of ASCII letters that
    follows, empty when there is none.  The first group takes every
    space, so the optional spaces between the groups match nothing. *)
Fixpoint search_aum (text : string) : option (string * string) :=
  match text with
  | EmptyString => None
  | String c s' =>
      if is_digit c then
        let '(g1, rest) := span aum_char s' in
        let '(g2, _) := span is_alpha rest in
        Some (String c g1, g2)
      else search_aum s'
  end.

Definition parse_aum_meur_str (value : string) : option R :=
  let text := clean_spaces value in
  match search_aum text with
  | None => None
  | Some (g1, g2) =>
      let number_raw := remove_char " " g1 in
      let number_raw := replace_char "," "." number_raw in
      match py_float number_raw with
      | None => None
      | Some number =>
          let unit := lower g2 in
          if mem unit ["mrd"; "bn"; "b"; "md"]%string then Some (number * 1000)
          else if mem unit ["k"; "mille"]%string then Some (number / 1000)
          else Some number
      end
  end.

Definition parse_aum_meur (value : pyval) : result (option R) :=
  if negb (truthy value) then Ok None
  else
    match value with
    | PStr s => Ok (parse_aum_meur_str s)
    | _ => Raise AttributeError
    end.

(** *** Category *)

Definition or_empty (o : option string) : string :=
  match o with
  | Some s => s
  | None => EmptyString
  end.

Definition classify_category (name axis : option string) : string :=
  let text := lower (or_empty name ++ " " ++ or_empty axis)%string in
  if contains "core" text then "Core"%string
  else if contains "hedg" text then "Hedge"%string
  else "Satellite"%string.

(** *** Dates of the record *)

Definition years_between (start_date : option Date.date) (end_date : Date.date)
  : option Z :=
  match start_date with
  | None => None
  | Some start =>
      let days := Date.days_between start end_date in
      if (days <? 0)%Z then None
      else Some (Int_part (IZR days / 365.2425))
  end.

Definition launch_point (row : pyval) : option (Z * Z) :=
  match row with
  | PDict d =>
      match int_of_str_of (get d "year") with
      | None => None
      | Some year =>
          match as_int (get d "month_index") with
          | None => None
          | Some month_idx =>
              if (month_idx <? 1)%Z || (12 <? month_idx)%Z then None
              else Some (year, month_idx)
          end
      end
  | _ => None
  end.

Definition pair_lt (a b : Z * Z) : bool :=
  (fst a <? fst b)%Z || ((fst a =? fst b)%Z && (snd a <? snd b)%Z).

Definition infer_launch_date_from_heatmap (heatmap : pyval)
  : result (option Date.date) :=
  match heatmap with
  | PDict h =>
      match get h "values" with
      | PList values =>
          match sorted_by pair_lt (filter_map launch_point values) with
          | [] => Ok None
          | (year, month) :: _ => Date.date_new year month 1
          end
      | _ => Ok None
      end
  | _ => Ok None
  end.

(** *** Spreadsheet text *)

(** The loop of [excel_col_name]; [n] shrinks at every turn, so [n]
    turns are enough. *)
Fixpoint excel_col_loop (fuel n : nat) (result : string) : string :=
  match fuel with
  | O => result
  | S fuel' =>
      if (n =? 0)%nat then result
      else
        let q := ((n - 1) / 26)%nat in
        let rem := ((n - 1) mod 26)%nat in
        excel_col_loop fuel' q (String (ascii_of_nat (65 + rem)) result)
  end.

Definition excel_col_name (index_one_based : nat) : string :=
  excel_col_loop index_one_based index_one_based EmptyString.

(** [fmt_number(value, ndigits)].  [round] keeps the sign of its
    argument, also on a zero result, and the format prints it. *)
Definition fmt_number (value : option R) (ndigits : nat) : string :=
  match value with
  | None => EmptyString
  | Some x =>
      let rounded := py_round x ndigits in
      let neg := if Rlt_dec x 0 then true else false in
      let text := rstrip (is_char ".") (rstrip (is_char "0") (format_f neg rounded ndigits)) in
      replace_char "." "," text
  end.

(** *** The normalised rows *)

(** Text extraction left abstract: the two regular-expression readers of
    the free-text description (neither can raise), the platform's
    [strftime], and [repr] for the values whose text [str] takes from it
    (floats and containers). *)
Record helpers : Type := mk_helpers {
  extract_index_name : string -> option string;
  extract_launch_date_from_description : string -> option Date.date;
  strftime : Date.date -> string;
  repr : pyval -> string
}.

(** [str(v)]. *)
Definition py_str (E : helpers) (v : pyval) : string :=
  match v with
  | PStr s => s
  | PInt z => str_of_Z z
  | PNone => "None"%string
  | PBool true => "True"%string
  | PBool false => "False"%string
  | _ => repr E v
  end.

(** [f(description if isinstance(description, str) else None)], where
    [f] returns [None] on a missing or empty text. *)
Definition on_text {A : Type} (f : string -> option A) (description : pyval)
  : option A :=
  match description with
  | PStr EmptyString => None
  | PStr s => f s
  | _ => None
  end.

Definition as_text (v : pyval) : option string :=
  match v with
  | PStr s => Some s
  | _ => None
  end.

Definition of_float (o : option R) : pyval :=
  match o with
  | Some x => PFloat x
  | None => PNone
  end.

Definition of_int (o : option Z) : pyval :=
  match o with
  | Some z => PInt z
  | None => PNone
  end.

(** The CAGR of a document: the stored figure when it is a number, else
    the one computed from the grid. *)
Definition document_cagr (data : dict) : option R :=
  match as_number (get data "cagr_depuis_creation_pct") with
  | Some cagr => Some cagr
  | None => compute_cagr_from_heatmap (get data "heatmap_mensuelle")
  end.

(** Whether the three lines that settle [cagr] raise: the grid is
    read only when the stored figure is no number, and [float(cagr)]
    converts a stored one. *)
Definition document_cagr_raises (data : dict) : bool :=
  match as_number (get data "cagr_depuis_creation_pct") with
  | Some _ => float_raises (get data "cagr_depuis_creation_pct")
  | None => compute_cagr_raises (get data "heatmap_mensuelle")
  end.

(** A step that returns nothing and may raise [OverflowError]. *)
Definition overflow_when (raises : bool) : result unit :=
  if raises then Raise OverflowError else Ok tt.

(** [ticker_map.get(isin, "")]. *)
Fixpoint ticker_of (ticker_map : list (string * string)) (isin : string) : string :=
  match ticker_map with
  | [] => EmptyString
  | (k, v) :: rest => if String.eqb isin k then v else ticker_of rest isin
  end.

(** The body of the loop of [build_overview_rows]: [Ok None] is a
    [continue], [Ok (Some row)] an [append], [Raise] an exception that
    nothing in the loop catches. *)
Definition overview_row (E : helpers) (today : Date.date)
  (ticker_map : list (string * string)) (data : pyval) : result (option dict) :=
  match data with
  | PDict d =>
      let isin := upper (strip (py_str E (get_default d "isin" (PStr EmptyString)))) in
      if String.eqb isin EmptyString then Ok None
      else
        let details := match get d "donnees" with PDict dd => dd | _ => [] end in
        let description := get d "description" in
        let name := get d "nom" in
        let heatmap := get d "heatmap_mensuelle" in
        let axis := get details "axe_investissement" in
        (do ter <- parse_percent (get details "frais_totaux_sur_encours_ter");
         do volatility <- parse_percent (get details "volatilite_sur_1_an");
         do aum_meur <- parse_aum_meur (get details "taille_du_fonds");
         do _ <- overflow_when (document_cagr_raises d);
         let cagr := document_cagr d in
         do launch_date <-
           match on_text (extract_launch_date_from_description E) description with
           | Some dt => Ok (Some dt)
           | None => infer_launch_date_from_heatmap heatmap
           end;
         let age_years := years_between launch_date today in
         do _ <- overflow_when (compute_yearly_returns_raises heatmap);
         let yearly_returns := compute_yearly_returns_from_heatmap heatmap in
         Ok (Some
           [("ISIN", PStr isin);
            ("Nom ETF", or_else name (PStr EmptyString));
            ("Ticker", PStr (ticker_of ticker_map isin));
            ("Indice suivi",
             PStr (or_empty (on_text (extract_index_name E) description)));
            ("Axe investissement", or_else axis (PStr EmptyString));
            ("Categorie", PStr (classify_category (as_text name) (as_text axis)));
            ("Devise fonds", or_else (get details "monnaie_du_fonds") (PStr EmptyString));
            ("TER (%)", of_float ter);
            ("Replication",
             or_else (get details "methode_de_replication") (PStr EmptyString));
            ("Distribution", or_else (get details "distribution") (PStr EmptyString));
            ("Domicile", or_else (get details "domicile_du_fonds") (PStr EmptyString));
            ("Promoteur", or_else (get details "promoteur") (PStr EmptyString));
            ("AUM (MEUR)", of_float aum_meur);
            ("Date lancement",
             PStr (match launch_date with
                   | Some dt => strftime E dt
                   | None => EmptyString
                   end));
            ("Age du fonds", of_int age_years);
            ("Volatilite 1 an (%)", of_float volatility);
            ("CAGR (%)", of_float cagr);
            ("Nb annees negatives",
             match yearly_returns with
             | [] => PStr EmptyString
             | _ => PInt (neg_years yearly_returns)
             end);
            ("Pire annee (%)", of_float (worst_year yearly_returns))]%string))%result
  | _ => Ok None
  end.

(** [files] are the documents as [json.loads] decoded them. *)
Fixpoint build_overview_rows (E : helpers) (today : Date.date)
  (ticker_map : list (string * string)) (files : list pyval) : result (list dict) :=
  match files with
  | [] => Ok []
  | data :: rest =>
      (do row <- overview_row E today ticker_map data;
       do rows <- build_overview_rows E today ticker_map rest;
       Ok (match row with Some r => r :: rows | None => rows end))%result
  end.

(** *** The projection sheet *)

Definition matrix : Type := list (list string).

Definition blank_row (col_count : nat) : list string := repeat EmptyString col_count.

Definition ensure_row (col_count : nat) (m : matrix) (idx : nat) : matrix :=
  m ++ repeat (blank_row col_count) (S idx - List.length m).

Definition set_cell (col_count : nat) (m : matrix) (r c : nat) (value : string)
  : result matrix :=
  let m := ensure_row col_count m r in
  match nth_error m r with
  | Some row => (do row' <- assign row c value; assign m r row')%result
  | None => Raise IndexError
  end.

(** A call [set_cell(r, c, value)]. *)
Definition write : Type := (nat * nat * string)%type.

(** The calls of a list made one after the other on the matrix. *)
Definition run (col_count : nat) (ws : list write) (m : matrix) : result matrix :=
  fold_left
    (fun acc w =>
       let '(r, c, value) := w in
       (do m' <- acc; set_cell col_count m' r c value)%result)
    ws (Ok m).

(** [enumerate(etfs, start)]. *)
Definition enumerate {A : Type} (start : nat) (l : list A) : list (nat * A) :=
  combine (seq start (List.length l)) l.

Definition parameters_block (years : nat) (capital_initial inflation dca_mensuel : R)
  : list write :=
  [(0, 0, "Parametre"); (0, 1, "Valeur");
   (1, 0, "Capital initial"); (1, 1, fmt_number (Some capital_initial) 2);
   (2, 0, "Inflation annuelle"); (2, 1, fmt_number (Some inflation) 6);
   (3, 0, "DCA mensuel"); (3, 1, fmt_number (Some dca_mensuel) 2);
   (4, 0, "Horizon (annees)"); (4, 1, str_of_nat years);
   (6, 0, "ETF"); (7, 0, "ISIN"); (8, 0, "CAGR brut annuel");
   (9, 0, "TER annuel"); (10, 0, "Rendement net reel annuel")]%string%nat.

(** The figure of a row, [0.0] when the entry is not a number. *)
Definition number_or_zero (row : dict) (k : string) : R :=
  match as_number (get row k) with
  | Some x => x
  | None => 0
  end.

Definition field_text (E : helpers) (row : dict) (k : string) : string :=
  py_str E (get_default row k (PStr EmptyString)).

Definition rate_cells (E : helpers) (entry : nat * dict) : list write :=
  let '(idx, row) := entry in
  let col := excel_col_name idx in
  let etf_name := field_text E row "Nom ETF" in
  let isin := field_text E row "ISIN" in
  let cagr_pct := number_or_zero row "CAGR (%)" in
  let ter_pct := number_or_zero row "TER (%)" in
  [(6, idx - 1, etf_name);
   (7, idx - 1, isin);
   (8, idx - 1, "=" ++ fmt_number (Some (cagr_pct / 100)%R) 10);
   (9, idx - 1, "=" ++ fmt_number (Some (ter_pct / 100)%R) 10);
   (10, idx - 1, "=(1+" ++ col ++ "9)*(1-" ++ col ++ "10)/(1+$B$3)-1")]%string%nat.

Definition isin_cell (E : helpers) (header : nat) (entry : nat * dict) : write :=
  let '(idx, row) := entry in (header, idx - 1, field_text E row "ISIN")%nat.

(** The cell of year [y] in the column of index [idx]; [rate_row] is
    the sheet row of the rate the block compounds. *)
Definition growth_cell (start_row : nat) (rate_row : string) (y idx : nat) : write :=
  let r := (start_row + y)%nat in
  let col := excel_col_name idx in
  if (y =? 0)%nat then (r, idx - 1, "=$B$2")%string%nat
  else
    let prev_r := (r - 1)%nat in
    (r, (idx - 1)%nat,
     "=" ++ col ++ str_of_nat (prev_r + 1) ++ "*(1+" ++ col ++ "$" ++ rate_row
         ++ ")+$B$4*12")%string.

Definition growth_row (start_row : nat) (rate_row : string) (n y : nat) : list write :=
  ((start_row + y)%nat, O, str_of_nat y)
    :: map (growth_cell start_row rate_row y) (seq 2 n).

Definition growth_block (start_row : nat) (rate_row : string) (n years : nat)
  : list write :=
  flat_map (growth_row start_row rate_row n) (seq 0 (years + 1)).

Definition summary_cells (E : helpers) (summary_header net_final_row no_cost_final_row : nat)
  (entry : nat * dict) : list write :=
  let '(i, row) := entry in
  let r := (summary_header + i)%nat in
  let col := excel_col_name (i + 1) in
  [(r, 0, field_text E row "ISIN");
   (r, 1, field_text E row "Nom ETF");
   (r, 2, "=" ++ col ++ str_of_nat (net_final_row + 1));
   (r, 3, "=" ++ col ++ str_of_nat (no_cost_final_row + 1));
   (r, 4, "=D" ++ str_of_nat (r + 1) ++ "-C" ++ str_of_nat (r + 1));
   (r, 5, "=E" ++ str_of_nat (r + 1) ++ "/D" ++ str_of_nat (r + 1))]%string%nat.

Definition projection_header : nat := 12.

Definition start_data_row : nat := projection_header + 1.

Definition net_final_row (years : nat) : nat := start_data_row + years.

Definition no_cost_header (years : nat) : nat := net_final_row years + 3.

Definition no_cost_start (years : nat) : nat := no_cost_header years + 1.

Definition no_cost_final_row (years : nat) : nat := no_cost_start years + years.

Definition summary_header (years : nat) : nat := no_cost_final_row years + 3.

(** Every [set_cell] call of [write_projection_csv], in program order. *)
Definition projection_writes (E : helpers) (etfs : list dict) (years : nat)
  (capital_initial inflation dca_mensuel : R) : list write :=
  let n := List.length etfs in
  parameters_block years capital_initial inflation dca_mensuel
  ++ flat_map (rate_cells E) (enumerate 2 etfs)
  ++ [(projection_header, O, "Annee"%string)]
  ++ map (isin_cell E projection_header) (enumerate 2 etfs)
  ++ growth_block start_data_row "11" n years
  ++ [(no_cost_header years, O, "Annee (sans frais)"%string)]
  ++ map (isin_cell E (no_cost_header years)) (enumerate 2 etfs)
  ++ growth_block (no_cost_start years) "9" n years
  ++ [(summary_header years, 0, "ISIN"); (summary_header years, 1, "Nom ETF");
      (summary_header years, 2, "Capital final net reel");
      (summary_header years, 3, "Capital final sans frais");
      (summary_header years, 4, "Manque a gagner");
      (summary_header years, 5, "Manque a gagner %")]%string%nat
  ++ flat_map (summary_cells E (summary_header years) (net_final_row years)
                 (no_cost_final_row years)) (enumerate 1 etfs).

(** [write_projection_csv]: the rows handed to the CSV writer. *)
Definition write_projection_csv (E : helpers) (rows : list dict) (years : nat)
  (capital_initial inflation dca_mensuel : R) : result matrix :=
  let etfs := rows in
  match etfs with
  | [] => Ok [["Aucun ETF exploitable"%string]]
  | _ =>
      let col_count := (1 + List.length etfs)%nat in
      run col_count
          (projection_writes E etfs years capital_initial inflation dca_mensuel) []
  end.

(** *** The ticker file and the header of the overview *)

(** [isin in mapping]. *)
Fixpoint has_key (k : string) (mapping : list (string * string)) : bool :=
  match mapping with
  | [] => false
  | (k', _) :: rest => String.eqb k k' || has_key k rest
  end.

(** The pair a row of the ticker file contributes, if any. *)
Definition ticker_entry (E : helpers) (row : pyval) : option (string * string) :=
  match row with
  | PDict d =>
      let isin := upper (strip (py_str E (get_default d "isin" (PStr EmptyString)))) in
      let ticker := upper (strip (py_str E (get_default d "tickers" (PStr EmptyString)))) in
      if negb (String.eqb isin EmptyString) && negb (String.eqb ticker EmptyString)
      then Some (isin, ticker)
      else None
  | _ => None
  end.

(** The loop of [load_ticker_map]; a new key goes to the end of the
    dictionary. *)
Fixpoint ticker_rows (E : helpers) (data : list pyval) (mapping : list (string * string))
  : list (string * string) :=
  match data with
  | [] => mapping
  | row :: rest =>
      ticker_rows E rest
        (match ticker_entry E row with
         | Some (isin, ticker) =>
             if has_key isin mapping then mapping else (mapping ++ [(isin, ticker)])%list
         | None => mapping
         end)
  end.

(** [load_ticker_map(path)]; [data] is what [json.loads] decodes from the
    file, [None] when no path is given. *)
Definition load_ticker_map (E : helpers) (data : option pyval) : list (string * string) :=
  match data with
  | Some (PList rows) => ticker_rows E rows []
  | _ => []
  end.

(** The column titles [write_overview_csv] writes first. *)
Definition overview_headers : list string :=
  ["ISIN"; "Nom ETF"; "Ticker"; "Indice suivi"; "Axe investissement"; "Categorie";
   "Devise fonds"; "TER (%)"; "Replication"; "Distribution"; "Domicile"; "Promoteur";
   "AUM (MEUR)"; "Date lancement"; "Age du fonds"; "Volatilite 1 an (%)"; "CAGR (%)";
   "Nb annees negatives"; "Pire annee (%)"]%string.

(** The columns [write_overview_csv] hands to [fmt_number]. *)
Definition overview_figures : list string :=
  ["TER (%)"; "AUM (MEUR)"; "Volatilite 1 an (%)"; "CAGR (%)"; "Pire annee (%)"]%string.

End ExportCsv.

(** ** CAGR in [scrape_justetf.py] *)

Module Scrape.

Import Py.

Local Open Scope R_scope.

Definition row_point (row : pyval) : option (Z * Z * R) :=
  match row with
  | PDict d =>
      match as_int (get d "month_index") with
      | None => None
      | Some month_idx =>
          match as_number (get d "return_pct") with
          | None => None
          | Some ret =>
              match int_of_str_of (get_default d "year" (PStr EmptyString)) with
              | None => None
              | Some year_int => Some (year_int, month_idx, ret)
              end
          end
      end
  | _ => None
  end.

(** [key=lambda x: (x[0], x[1])], compared as tuples. *)
Definition point_lt (a b : Z * Z * R) : bool :=
  let '(ya, ma, _) := a in
  let '(yb, mb, _) := b in
  (ya <? yb)%Z || ((ya =? yb)%Z && (ma <? mb)%Z).

Definition compute_cagr_from_heatmap (heatmap : option dict) : option R :=
  match heatmap with
  | None | Some [] => None
  | Some h =>
      match get h "values" with
      | PList raw_values =>
          let points := filter_map row_point raw_values in
          match points with
          | [] => None
          | _ =>
              let points := sorted_by point_lt points in
              let compounded := ExportCsv.compound (map snd points) in
              let months_count := List.length points in
              if (months_count <=? 0)%nat then None
              else if Rle_dec compounded 0 then None
              else Some ((Rpower compounded (12 / INR months_count) - 1) * 100)
          end
      | _ => None
      end
  end.

(** *** The fallback estimate *)

Definition clean_text (value : string) : string :=
  strip (collapse_spaces false (replace_char nbsp " " value)).

Definition parse_percent_text (value : option string) : option R :=
  match value with
  | None | Some EmptyString => None
  | Some value =>
      let text := remove_char " " (remove_char nbsp value) in
      let text := replace_char "," "." (remove_char "+" (remove_char "%" text)) in
      match search_number (is_char ".") text with
      | None => None
      | Some m => py_float m
      end
  end.

Definition MONTH_INDEX : list (string * Z) :=
  [("jan", 1); ("janv", 1); ("janvier", 1);
   ("feb", 2); ("fev", 2); ("fevr", 2); ("fevrier", 2); ("fvrier", 2);
   ("mar", 3); ("mars", 3); ("avr", 4); ("avril", 4); ("mai", 5);
   ("jun", 6); ("juin", 6); ("jul", 7); ("juil", 7); ("juillet", 7);
   ("aou", 8); ("aout", 8); ("aug", 8);
   ("sep", 9); ("sept", 9); ("septembre", 9);
   ("oct", 10); ("octobre", 10); ("nov", 11); ("novembre", 11);
   ("dec", 12); ("decembre", 12); ("dcembre", 12)]%string%Z.

Fixpoint month_index (table : list (string * Z)) (token : string) : option Z :=
  match table with
  | [] => None
  | (k, v) :: rest => if String.eqb token k then Some v else month_index rest token
  end.

(** One or two digits, two when there are two: after a first digit the
    pattern asks for a space, which a second digit is not. *)
Definition take_day (s : string) : option (string * string) :=
  match s with
  | String a r =>
      if is_digit a then
        match r with
        | String b r' =>
            if is_digit b then Some (String a (String b EmptyString), r')
            else Some (String a EmptyString, r)
        | EmptyString => Some (String a EmptyString, r)
        end
      else None
  | EmptyString => None
  end.

Definition take_year (s : string) : option string :=
  match s with
  | String a (String b (String c (String d _))) =>
      if is_digit a && is_digit b && is_digit c && is_digit d
      then Some (String a (String b (String c (String d EmptyString))))
      else None
  | _ => None
  end.

(** The date pattern tried at the start of [s]: day, spaces, ASCII
    letters, spaces, four digits; the three groups. *)
Definition match_french_date (s : string) : option (string * string * string) :=
  match take_day s with
  | None => None
  | Some (day, r1) =>
      let '(sp1, r2) := span is_space r1 in
      let '(token, r3) := span is_alpha r2 in
      let '(sp2, r4) := span is_space r3 in
      match sp1, token, sp2, take_year r4 with
      | String _ _, String _ _, String _ _, Some year => Some (day, token, year)
      | _, _, _, _ => None
      end
  end.

Fixpoint search_french_date (s : string) : option (string * string * string) :=
  match match_french_date s with
  | Some m => Some m
  | None =>
      match s with
      | EmptyString => None
      | String _ s' => search_french_date s'
      end
  end.

(** The accent replacements made on the month token leave it as it is:
    the group holds ASCII letters only.  The year has four digits and the
    day at most two, so [dt.date] can only fail with [ValueError]. *)
Definition parse_french_date (value : option string) : option Date.date :=
  match value with
  | None | Some EmptyString => None
  | Some value =>
      let text := lower (clean_text value) in
      match search_french_date text with
      | None => None
      | Some (g1, g2, g3) =>
          let day := digits_val 0 g1 in
          let year := digits_val 0 g3 in
          match month_index MONTH_INDEX g2 with
          | None => None
          | Some month => Date.date_checked year month day
          end
      end
  end.

(** [parse_profile_html] stores a text or [None] under the two keys. *)
Definition as_text (v : pyval) : option string :=
  match v with
  | PStr s => Some s
  | _ => None
  end.

(** The estimate from the since-inception return and the launch date. *)
Definition estimate (today : Date.date) (max_return_pct : option R)
  (launch_date : option Date.date) : option R :=
  match max_return_pct, launch_date with
  | Some max_return_pct, Some launch_date =>
      let days := Date.days_between launch_date today in
      if (days <=? 0)%Z then None
      else
        let years := IZR days / 365.2425 in
        let total_growth := 1 + max_return_pct / 100 in
        if Rle_dec total_growth 0 then None
        else Some ((Rpower total_growth (1 / years) - 1) * 100)
  | _, _ => None
  end.

(** [today] is [dt.date.today()]. *)
Definition compute_cagr_from_max_return (today : Date.date) (parsed : dict)
  : option R :=
  match get parsed "_meta_returns" with
  | PDict meta =>
      estimate today
        (parse_percent_text (as_text (get meta "max_return_text")))
        (parse_french_date (as_text (get meta "launch_date_text")))
  | _ => None
  end.

Definition of_heatmap (heatmap : option dict) : pyval :=
  match heatmap with
  | Some h => PDict h
  | None => PNone
  end.

(** What [main] does to the parsed profile of one ISIN once the heat map
    is fetched, up to the removal of the private entry. *)
Definition record_cagr (today : Date.date) (heatmap : option dict) (parsed : dict)
  : dict :=
  let parsed := set parsed "heatmap_mensuelle" (of_heatmap heatmap) in
  let parsed :=
    match compute_cagr_from_heatmap heatmap with
    | Some cagr_from_heatmap =>
        set (set parsed "cagr_depuis_creation_pct"
                 (PFloat (py_round cagr_from_heatmap 6)))
            "cagr_depuis_creation_source" (PStr "heatmap_mensuelle")
    | None =>
        match compute_cagr_from_max_return today parsed with
        | Some cagr_fallback =>
            set (set parsed "cagr_depuis_creation_pct"
                     (PFloat (py_round cagr_fallback 6)))
                "cagr_depuis_creation_source" (PStr "max_return_plus_launch_date")
        | None => parsed
        end
    end in
  match get parsed "_meta_returns" with
  | PDict _ => del parsed "_meta_returns"
  | _ => parsed
  end.

(** *** The profile *)

(** What [DataTestIdTextParser] collected: for a test id, the cleaned
    texts of the elements that carry it, in page order. *)
Definition results : Type := list (string * list string).

(** [results.get(testid) or []]. *)
Fixpoint values_of (r : results) (testid : string) : list string :=
  match r with
  | [] => []
  | (k, v) :: rest => if String.eqb testid k then v else values_of rest testid
  end.

Definition extract_first (r : results) (testid : string) : option string :=
  match values_of r testid with
  | v :: _ => Some v
  | [] => None
  end.

(** The label in front of the fund size, matched whatever the case of
    its letters, with the blanks that follow it. *)
Fixpoint drop_label (label s : string) : option string :=
  match label with
  | EmptyString => Some (lstrip is_space s)
  | String a label' =>
      match s with
      | EmptyString => None
      | String b s' =>
          if Ascii.eqb (lower_char a) (lower_char b) then drop_label label' s' else None
      end
  end.

(** [re.sub] of the label at the start of the row, then [strip]. *)
Definition fund_size_of (row : string) : string :=
  strip (match drop_label "Taille du fonds" row with
         | Some rest => rest
         | None => row
         end).

Definition of_text (o : option string) : pyval :=
  match o with
  | Some s => PStr s
  | None => PNone
  end.

(** A text that is true: [None] and the empty text are not. *)
Definition nonempty (o : option string) : option string :=
  match o with
  | Some EmptyString => None
  | _ => o
  end.

(** [parse_profile_html] from the texts the parser collected; the test
    ids are the values of [TARGET_TESTIDS]. *)
Definition parse_profile_html (r : results) (isin : string) : dict :=
  let fund_size_row := extract_first r "etf-basics_row_fund-size" in
  let fund_size :=
    match nonempty fund_size_row with
    | Some row => Some (fund_size_of row)
    | None => None
    end in
  let replication := extract_first r "tl_etf-basics_value_replication" in
  let replication_method := extract_first r "tl_etf-basics_value_replication-method" in
  let replication_full :=
    match nonempty replication, nonempty replication_method with
    | Some a, Some b => Some (a ++ " (" ++ b ++ ")")%string
    | Some a, None => Some a
    | None, _ => None
    end in
  [("isin", PStr isin);
   ("nom", of_text (extract_first r "etf-profile-header_etf-name"));
   ("description",
    of_text (extract_first r "etf-quote-section_description-content-inner"));
   ("donnees",
    PDict
      [("axe_investissement",
        of_text (extract_first r "tl_etf-basics_value_investment-focus"));
       ("taille_du_fonds", of_text fund_size);
       ("frais_totaux_sur_encours_ter", of_text (extract_first r "tl_etf-basics_value_ter"));
       ("methode_de_replication", of_text replication_full);
       ("risque_de_la_strategie",
        of_text (extract_first r "tl_etf-basics_value_strategy-risk"));
       ("monnaie_du_fonds", of_text (extract_first r "tl_etf-basics_value_fund-currency"));
       ("volatilite_sur_1_an", of_text (extract_first r "tl_etf-basics_value_volatility"));
       ("distribution",
        of_text (extract_first r "tl_etf-basics_value_distribution-policy"));
       ("domicile_du_fonds",
        of_text (extract_first r "tl_etf-basics_value_domicile-country"));
       ("promoteur", of_text (extract_first r "tl_etf-basics_value_fund-provider"))]%string);
   ("cagr_depuis_creation_pct", PNone);
   ("cagr_depuis_creation_source", PNone);
   ("heatmap_mensuelle", PNone);
   ("_meta_returns",
    PDict
      [("max_return_text", of_text (extract_first r "etf-returns-section_max-return"));
       ("launch_date_text",
        of_text (extract_first r "tl_etf-basics_value_launch-date"))]%string)]%string.

(** *** The list of ISINs *)

(** The loop of [load_isins]; [None] stands for [ValueError]. *)
Fixpoint isin_items (data : list pyval) : option (list string) :=
  match data with
  | [] => Some []
  | PStr item :: rest =>
      match isin_items rest with
      | None => None
      | Some isins =>
          let isin := upper (strip item) in
          Some (if String.eqb isin EmptyString then isins else isin :: isins)
      end
  | _ :: _ => None
  end.

(** [load_isins] on what [json.loads] decodes from the file. *)
Definition load_isins (data : pyval) : option (list string) :=
  match data with
  | PList items => isin_items items
  | _ => None
  end.

(** *** The loop over the ISINs *)

(** What the network gives for one ISIN: the texts collected from the
    profile page and the heat map, or the message of the exception a
    request raised, which ends the turn. *)
Inductive response : Type :=
| Profile (r : results) (heatmap : option dict)
| ProfileOnly (r : results) (msg : string)
| Failure (msg : string).

Definition name_missing : string :=
  "Nom introuvable: page probablement invalide ou structure changee.".

(** The body of the [try] for one ISIN: the document written, or the
    message recorded under the ISIN.  The name is checked before the heat
    map is asked for.  The progress lines, the pauses and the debug files
    of [main] do not show in the result. *)
Definition scrape_one (today : Date.date) (isin : string) (resp : response)
  : dict + string :=
  match resp with
  | Failure msg => inr msg
  | ProfileOnly r msg =>
      let parsed := parse_profile_html r isin in
      if negb (truthy (get parsed "nom")) then inr name_missing else inr msg
  | Profile r heatmap =>
      let parsed := parse_profile_html r isin in
      if negb (truthy (get parsed "nom")) then inr name_missing
      else inl (record_cagr today heatmap parsed)
  end.

(** The state of the loop: the files of the output directory, by ISIN,
    and the dictionary of errors. *)
Definition scrape_state : Type := (dict * dict)%type.

Definition scrape_step (today : Date.date) (st : scrape_state)
  (job : string * response) : scrape_state :=
  let '(files, errors) := st in
  let '(isin, resp) := job in
  match scrape_one today isin resp with
  | inl doc => (set files isin (PDict doc), errors)
  | inr msg => (files, set errors isin (PStr msg))
  end.

(** The loop of [main] over the ISINs, each with what the network gives
    at its turn. *)
Definition scrape_loop (today : Date.date) (jobs : list (string * response))
  : scrape_state :=
  fold_left (scrape_step today) jobs ([], []).

(** The exit code of [main] after the loop. *)
Definition exit_code (st : scrape_state) : Z :=
  match snd st with
  | [] => 0%Z
  | _ => 2%Z
  end.

End Scrape.

(** ** The return grid of the specification *)

Module Spec.

Import Py.

Local Open Scope R_scope.

Record ReturnPoint : Type :=
  mk_point { rp_year : Z; rp_month : Z; rp_return : R }.

(** A grid row carries the point [p]: its three fields read as the code
    reads them. *)
Definition row_holds (row : pyval) (p : ReturnPoint) : Prop :=
  exists d, row = PDict d
    /\ int_of_str_of (get_default d "year" (PStr EmptyString)) = Some (rp_year p)
    /\ as_int (get d "month_index") = Some (rp_month p)
    /\ as_number (get d "return_pct") = Some (rp_return p).

(** The heat map [h] holds exactly the points of [g], in order. *)
Definition grid_of (h : dict) (g : list ReturnPoint) : Prop :=
  exists rows, get h "values" = PList rows /\ Forall2 row_holds rows g.

(** The row the scraper writes for a point. *)
Definition row_of (p : ReturnPoint) : pyval :=
  PDict [("year"%string, PStr (str_of_Z (rp_year p)));
         ("month_index"%string, PInt (rp_month p));
         ("return_pct"%string, PFloat (rp_return p))].

Definition heatmap_of (g : list ReturnPoint) : dict :=
  [("values"%string, PList (map row_of g))].

Definition product (l : list R) : R := fold_right Rmult 1 l.

Definition factor (p : ReturnPoint) : R := 1 + rp_return p / 100.

(** The specification's [compound_cagr], in its words: absent on an empty grid or
    when the compounded factor is not positive, else the compounded
    factor annualised over the number of points present. *)
Definition compound_cagr (g : list ReturnPoint) : option R :=
  match g with
  | [] => None
  | _ =>
      let compounded := product (map factor g) in
      if Rle_dec compounded 0 then None
      else Some ((Rpower compounded (12 / INR (List.length g)) - 1) * 100)
  end.

Definition in_year (y : Z) (p : ReturnPoint) : bool := (rp_year p =? y)%Z.

(** A point as the code keeps it within its year: month and return. *)
Definition month_of (p : ReturnPoint) : Z * R := (rp_month p, rp_return p).

Definition month_le (a b : Z * R) : Prop := (fst a <= fst b)%Z.

(** The specification's yearly entry, in its words, read on the sequence
    [months] that the code walks for year [y]: [months] holds the
    points present for that year and no other, it is in ascending month
    order, and the entry is the running product [c * (1 + r / 100)]
    taken along it from 1, minus one, in percent; which is also the
    product over that year's points of [1 + r / 100], minus one, in
    percent. *)
Definition yearly_entry (g : list ReturnPoint) (y : Z) (months : list (Z * R))
  (entry : R) : Prop :=
  Permutation months (map month_of (filter (in_year y) g))
  /\ StronglySorted month_le months
  /\ entry = (fold_left (fun c m => c * (1 + snd m / 100)) months 1 - 1) * 100
  /\ entry = (product (map factor (filter (in_year y) g)) - 1) * 100.

(** The identity under which the normaliser keeps a document: its ISIN,
    trimmed and in capitals, when the document is an object and that
    text is not empty. *)
Definition isin_of (E : ExportCsv.helpers) (data : pyval) : option string :=
  match data with
  | PDict d =>
      let isin :=
        upper (strip (ExportCsv.py_str E (get_default d "isin" (PStr EmptyString)))) in
      if String.eqb isin EmptyString then None else Some isin
  | _ => None
  end.

Definition text_or_none (v : pyval) : Prop :=
  match v with
  | PNone | PStr _ => True
  | _ => False
  end.






(** The content of the sheet at row [r] and column [c], both counted
    from zero; empty outside the rows written. *)
Definition cell (m : ExportCsv.matrix) (r c : nat) : string :=
  nth c (nth r m []) EmptyString.

(** The spreadsheet address of that cell: column letters, then the row
    counted from one. *)
Definition address (r c : nat) : string :=
  (ExportCsv.excel_col_name (c + 1) ++ str_of_nat (r + 1))%string.

Definition targets (w : ExportCsv.write) (r c : nat) : bool :=
  let '(r', c', _) := w in ((r' =? r) && (c' =? c))%nat.

(** The value of the last call of [ws] made on the cell, if any. *)
Fixpoint last_write (ws : list ExportCsv.write) (r c : nat) : option string :=
  match ws with
  | [] => None
  | w :: ws' =>
      match last_write ws' r c with
      | Some v => Some v
      | None => if targets w r c then Some (snd w) else None
      end
  end.

(** Every row of the sheet has [width] cells. *)
Definition well_formed (width : nat) (m : ExportCsv.matrix) : Prop :=
  Forall (fun row => List.length row = width) m.

Definition column (w : ExportCsv.write) : nat := snd (fst w).

Definition row_index (w : ExportCsv.write) : nat := fst (fst w).

(** The row with a zero in the place of a figure that is no number. *)
Definition zero_filled (row : dict) : dict :=
  let row :=
    if is_number (get row "CAGR (%)") then row else set row "CAGR (%)" (PFloat 0) in
  if is_number (get row "TER (%)") then row else set row "TER (%)" (PFloat 0).

(** The characters of the text [fmt_number] produces. *)
Definition numeral_char (c : ascii) : bool :=
  is_digit c || is_char "-" c || is_char "," c || is_char "." c.

(** The decimal fraction a run of digits stands for behind the point. *)
Definition frac (s : string) : R :=
  (IZR (digits_val 0 s) / 10 ^ String.length s)%R.

(** The text of a number: sign, integer digits and, when there are any,
    the separator and the decimals. *)
Definition numeral (neg : bool) (ip fp : string) (sep : ascii) : string :=
  ((if neg then "-" else EmptyString)
   ++ ip ++ match fp with EmptyString => EmptyString | _ => String sep fp end)%string.

(** [p] occurs in [s] as a substring. *)
Definition occurs_in (p s : string) : Prop :=
  exists pre post, s = (pre ++ p ++ post)%string.

(** A formula cell starts with the marker [=]. *)
Definition is_formula (cell : string) : Prop :=
  exists body, cell = String "=" body.

(** The number of rows a list of calls gives the sheet. *)
Fixpoint height (ws : list ExportCsv.write) : nat :=
  match ws with
  | [] => O
  | w :: ws' => Nat.max (S (row_index w)) (height ws')
  end.

Definition is_capital (c : ascii) : bool :=
  (65 <=? code c)%nat && (code c <=? 90)%nat.

(** The index the letters of a column stand for: base 26 with the digits
    [A] = 1 to [Z] = 26. *)
Fixpoint col_index_from (acc : nat) (s : string) : nat :=
  match s with
  | EmptyString => acc
  | String c s' => col_index_from (26 * acc + (code c - 64))%nat s'
  end.

Definition col_index (s : string) : nat := col_index_from 0 s.

(** The text holds a decimal digit. *)
Fixpoint has_digit (s : string) : bool :=
  match s with
  | EmptyString => false
  | String c s' => is_digit c || has_digit s'
  end.

(** The order of the pairs (year, month). *)
Definition pair_le (a b : Z * Z) : Prop :=
  (fst a < fst b \/ (fst a = fst b /\ snd a <= snd b))%Z.

(** The ticker of the first row of the file that gives one for [isin]. *)
Fixpoint first_ticker (E : ExportCsv.helpers) (rows : list pyval) (isin : string) : string :=
  match rows with
  | [] => EmptyString
  | row :: rest =>
      match ExportCsv.ticker_entry E row with
      | Some (k, ticker) => if String.eqb isin k then ticker else first_ticker E rest isin
      | None => first_ticker E rest isin
      end
  end.

Definition float_or_none (v : pyval) : Prop :=
  v = PNone \/ exists x, v = PFloat x.

(** Two states of the scraper loop hold the same file and the same error
    for the ISIN [k]. *)
Definition agree (k : string) (a b : Scrape.scrape_state) : Prop :=
  get (fst a) k = get (fst b) k /\ get (snd a) k = get (snd b) k.

(** The entry of the list gives its document. *)
Definition succeeds (today : Date.date) (job : string * Scrape.response) : Prop :=
  exists doc, Scrape.scrape_one today (fst job) (snd job) = inl doc.

(** A small ASCII letter. *)
Definition is_small (c : ascii) : bool :=
  (97 <=? code c)%nat && (code c <=? 122)%nat.

(** A character that is neither a blank, nor a digit, nor an ASCII
    letter, and that [lower] leaves as it is: the small accented letters
    are of this kind. *)
Definition is_foreign (c : ascii) : bool :=
  negb (is_space c) && negb (is_digit c) && negb (is_alpha c)
  && Ascii.eqb (lower_char c) c.

(** A character [clean_text] and [lower] leave in place. *)
Definition is_plain (c : ascii) : bool :=
  negb (is_space c) && Ascii.eqb (lower_char c) c.

(** A day of one or two digits. *)
Definition day_text (a : ascii) (b : option ascii) : string :=
  String a (match b with Some b => String b EmptyString | None => EmptyString end).

Definition year_text (y1 y2 y3 y4 : ascii) : string :=
  String y1 (String y2 (String y3 (String y4 EmptyString))).

Definition starts_with_space (s : string) : bool :=
  match s with
  | String c _ => is_space c
  | EmptyString => false
  end.

Fixpoint ends_with_space (s : string) : bool :=
  match s with
  | EmptyString => false
  | String c EmptyString => is_space c
  | String _ s' => ends_with_space s'
  end.

(** Every white space character is a blank, and no two are adjacent. *)
Fixpoint single_spaced (s : string) : bool :=
  match s with
  | EmptyString => true
  | String c s' =>
      (if is_space c then Ascii.eqb c " " && negb (starts_with_space s') else true)
      && single_spaced s'
  end.

(** A text as [clean_spaces] leaves it: words a single blank apart. *)
Definition tidy (s : string) : bool :=
  single_spaced s && negb (starts_with_space s) && negb (ends_with_space s).

End Spec.

(** ** Sample data *)

Module Samples.

Import Py.

Local Open Scope string_scope.

(** A year of twelve monthly returns of zero. *)
Definition flat_year : list Spec.ReturnPoint :=
  map (fun m => Spec.mk_point 2020 m 0) [1; 2; 3; 4; 5; 6; 7; 8; 9; 10; 11; 12]%Z.

(** Three points over two years, out of order. *)
Definition two_years : list Spec.ReturnPoint :=
  [Spec.mk_point 2021 2 10; Spec.mk_point 2020 1 (-50); Spec.mk_point 2021 1 10].

Definition today : Date.date := Date.mk_date 2021 3 12.

(** A profile as [parse_profile_html] returns it, doubled in one year. *)
Definition meta : dict :=
  [("max_return_text", PStr "+100,00 %"); ("launch_date_text", PStr "12 mars 2020")].

Definition profile : dict :=
  [("isin", PStr "IE00B4L5Y983");
   ("nom", PStr "iShares Core MSCI World UCITS ETF");
   ("cagr_depuis_creation_pct", PNone);
   ("cagr_depuis_creation_source", PNone);
   ("heatmap_mensuelle", PNone);
   ("_meta_returns", PDict meta)].

Definition plain_helpers : ExportCsv.helpers :=
  ExportCsv.mk_helpers (fun _ => None) (fun _ => None)
    (fun _ => EmptyString) (fun _ => EmptyString).

(** A document with an ISIN and nothing else. *)
Definition nameless_document : pyval := PDict [("isin", PStr "ie00b4l5y983")].

Definition not_a_document : pyval := PList [].


(** Rows of the overview, the first without figures. *)
Definition bare_row (isin name : string) : dict :=
  [("ISIN", PStr isin); ("Nom ETF", PStr name); ("TER (%)", PNone); ("CAGR (%)", PNone)].

Definition priced_row (isin name : string) (ter cagr : R) : dict :=
  [("ISIN", PStr isin); ("Nom ETF", PStr name); ("TER (%)", PFloat ter);
   ("CAGR (%)", PFloat cagr)].

Definition one_row : list dict := [bare_row "IE00B4L5Y983" "World"].

Definition five_rows : list dict :=
  [bare_row "IE00B4L5Y983" "World";
   priced_row "IE00B5BMR087" "S&P 500" (7 / 100) 12;
   priced_row "LU0290358497" "Overnight" (1 / 10) 0;
   priced_row "IE00BKM4GZ66" "Emerging" (18 / 100) 5;
   priced_row "FR0010315770" "World Hedged" (3 / 10) 8].

(** A document whose fees are stored as a number. *)
Definition numeric_fees_document : dict :=
  [("isin", PStr "IE00B5BMR087");
   ("donnees", PDict [("frais_totaux_sur_encours_ter", PInt 1)])].

(** A document with an ISIN and the grid of the flat year. *)
Definition flat_year_profile : dict := [("isin", PStr "IE00B4L5Y983")].

(** Rows of a ticker file: the second one repeats the ISIN of the first. *)
Definition ticker_file : list pyval :=
  [PDict [("isin", PStr "ie00b4l5y983"); ("tickers", PStr "iwda")];
   PDict [("isin", PStr "IE00B4L5Y983"); ("tickers", PStr "SWDA")]].

(** Two turns of the scraper loop: a request that fails, and a page
    without a name. *)
Definition failing_jobs : list (string * Scrape.response) :=
  [("IE00B4L5Y983", Scrape.Failure "HTTP 404: Not Found");
   ("IE00B5BMR087", Scrape.Profile [] None)].

End Samples.

(** * Properties *)

(** ** Lists, sorting and products *)

Section ListFacts.

Local Open Scope R_scope.

Lemma compound_from (l : list R) (a : R) :
  fold_left (fun compounded r => compounded * (1 + r / 100)) l a
  = a * Spec.product (map (fun r => 1 + r / 100) l).
Proof.
  revert a; induction l as [|r l IH]; intro a; simpl.
  - lra.
  - rewrite IH. ring.
Qed.

Lemma compound_product (l : list R) :
  ExportCsv.compound l = Spec.product (map (fun r => 1 + r / 100) l).
Proof. unfold ExportCsv.compound. rewrite compound_from. ring. Qed.

Lemma product_perm (l l' : list R) :
  Permutation l l' -> Spec.product l = Spec.product l'.
Proof.
  induction 1; simpl; try congruence; try ring.
Qed.

Lemma compound_perm (l l' : list R) :
  Permutation l l' -> ExportCsv.compound l = ExportCsv.compound l'.
Proof.
  intro H. rewrite !compound_product. apply product_perm.
  apply Permutation_map. exact H.
Qed.

Lemma insert_by_perm {A : Type} (lt : A -> A -> bool) (x : A) (l : list A) :
  Permutation (Py.insert_by lt x l) (x :: l).
Proof.
  induction l as [|y l IH]; simpl.
  - apply Permutation_refl.
  - destruct (lt x y).
    + apply Permutation_refl.
    + eapply perm_trans; [apply perm_skip, IH | apply perm_swap].
Qed.

Lemma sorted_from_perm {A : Type} (lt : A -> A -> bool) (l acc : list A) :
  Permutation (fold_left (fun acc x => Py.insert_by lt x acc) l acc) (acc ++ l).
Proof.
  revert acc; induction l as [|x l IH]; intro acc; simpl.
  - rewrite app_nil_r. apply Permutation_refl.
  - eapply perm_trans; [apply IH|].
    eapply perm_trans; [apply Permutation_app_tail, insert_by_perm|].
    simpl. apply Permutation_middle.
Qed.

Lemma sorted_by_perm {A : Type} (lt : A -> A -> bool) (l : list A) :
  Permutation (Py.sorted_by lt l) l.
Proof. unfold Py.sorted_by. apply (sorted_from_perm lt l []). Qed.

Lemma filter_map_map {A B C : Type} (f : A -> option B) (h : C -> B) (R' : A -> C -> Prop)
  (l : list A) (g : list C) :
  (forall a c, R' a c -> f a = Some (h c)) ->
  Forall2 R' l g -> Py.filter_map f l = map h g.
Proof.
  intros Hf H; induction H as [|a c l g Hac _ IH]; simpl.
  - reflexivity.
  - rewrite (Hf a c Hac), IH. reflexivity.
Qed.

End ListFacts.

(** ** Compound annual growth rate from the grid *)

Section Cagr.

Import Py Spec.

Local Open Scope R_scope.

Lemma year_of_get (d : dict) (y : Z) :
  int_of_str_of (get_default d "year" (PStr EmptyString)) = Some y ->
  int_of_str_of (get d "year") = Some y.
Proof.
  unfold get, get_default. destruct (assoc "year" d); [trivial|].
  vm_compute. discriminate.
Qed.

Lemma export_returns (rows : list pyval) (g : list ReturnPoint) :
  Forall2 row_holds rows g ->
  filter_map ExportCsv.row_return rows = map rp_return g.
Proof.
  apply filter_map_map. intros a c (d & -> & _ & _ & Hr). exact Hr.
Qed.

Lemma export_points (rows : list pyval) (g : list ReturnPoint) :
  Forall2 row_holds rows g ->
  filter_map ExportCsv.row_point rows
  = map (fun p => (rp_year p, (rp_month p, rp_return p))) g.
Proof.
  apply filter_map_map. intros a c (d & -> & Hy & Hm & Hr). simpl.
  rewrite (year_of_get _ Hy), Hm, Hr. reflexivity.
Qed.

Lemma scrape_points (rows : list pyval) (g : list ReturnPoint) :
  Forall2 row_holds rows g ->
  filter_map Scrape.row_point rows
  = map (fun p => (rp_year p, rp_month p, rp_return p)) g.
Proof.
  apply filter_map_map. intros a c (d & -> & Hy & Hm & Hr). simpl.
  rewrite Hm, Hr, Hy. reflexivity.
Qed.

Lemma product_factor (g : list ReturnPoint) :
  ExportCsv.compound (map rp_return g) = product (map factor g).
Proof. rewrite compound_product, map_map. reflexivity. Qed.

Lemma product_zero_returns (g : list ReturnPoint) :
  Forall (fun p => rp_return p = 0) g -> product (map factor g) = 1.
Proof.
  induction 1 as [|p g Hp _ IH]; simpl; [reflexivity|].
  rewrite IH. unfold factor. rewrite Hp. lra.
Qed.

Lemma export_cagr_spec (h : dict) (g : list ReturnPoint) :
  grid_of h g ->
  ExportCsv.compute_cagr_from_heatmap (PDict h) = compound_cagr g.
Proof.
  intros (rows & Hv & Hrows). unfold ExportCsv.compute_cagr_from_heatmap.
  rewrite Hv, (export_returns Hrows).
  destruct g as [|p g]; [reflexivity|].
  cbn [map]. unfold ExportCsv.annualize, compound_cagr.
  change (rp_return p :: map rp_return g) with (map rp_return (p :: g)).
  rewrite product_factor, length_map. reflexivity.
Qed.

Lemma scrape_cagr_spec (h : dict) (g : list ReturnPoint) :
  grid_of h g ->
  Scrape.compute_cagr_from_heatmap (Some h) = compound_cagr g.
Proof.
  intros (rows & Hv & Hrows). unfold Scrape.compute_cagr_from_heatmap.
  destruct h as [|kv h']; [discriminate Hv|].
  rewrite Hv, (scrape_points Hrows).
  destruct g as [|p g]; [reflexivity|].
  set (pts := map (fun p => (rp_year p, rp_month p, rp_return p)) (p :: g)).
  change (map _ (p :: g)) with pts. cbv zeta.
  assert (Hperm : Permutation (sorted_by Scrape.point_lt pts) pts)
    by apply sorted_by_perm.
  assert (Hlen : List.length (sorted_by Scrape.point_lt pts) = List.length (p :: g)).
  { rewrite (Permutation_length Hperm). unfold pts. apply length_map. }
  assert (Hc : ExportCsv.compound (map snd (sorted_by Scrape.point_lt pts))
               = product (map factor (p :: g))).
  { rewrite (compound_perm (Permutation_map snd Hperm)).
    unfold pts. rewrite map_map. cbn [snd]. apply product_factor. }
  rewrite Hlen, Hc.
  destruct pts eqn:E; [discriminate E|]. reflexivity.
Qed.

(** C1.  On a heat map that holds the grid [g], both implementations of
    [compute_cagr_from_heatmap] return the specified [compound_cagr]:
    absent for a grid without points or a compounded factor that is not
    positive, otherwise the factor raised to [12 / point_count], minus
    one, in percent, where [point_count] is the number of points present.
    An empty grid gives absent, and twelve monthly returns equal to zero
    give a rate of zero. *)
Theorem compute_cagr_from_heatmap_spec (h : dict) (g : list ReturnPoint) :
  grid_of h g ->
  ExportCsv.compute_cagr_from_heatmap (PDict h) = compound_cagr g
  /\ Scrape.compute_cagr_from_heatmap (Some h) = compound_cagr g
  /\ (g = [] -> ExportCsv.compute_cagr_from_heatmap (PDict h) = None
                /\ Scrape.compute_cagr_from_heatmap (Some h) = None)
  /\ (product (map factor g) <= 0 ->
      ExportCsv.compute_cagr_from_heatmap (PDict h) = None
      /\ Scrape.compute_cagr_from_heatmap (Some h) = None)
  /\ (g <> [] -> 0 < product (map factor g) ->
      ExportCsv.compute_cagr_from_heatmap (PDict h)
      = Some ((Rpower (product (map factor g)) (12 / INR (List.length g)) - 1) * 100))
  /\ (List.length g = 12%nat -> Forall (fun p => rp_return p = 0) g ->
      ExportCsv.compute_cagr_from_heatmap (PDict h) = Some 0
      /\ Scrape.compute_cagr_from_heatmap (Some h) = Some 0).
Proof.
  intro H. rewrite (export_cagr_spec H), (scrape_cagr_spec H).
  repeat split.
  - subst g. reflexivity.
  - subst g. reflexivity.
  - unfold compound_cagr. destruct g; [reflexivity|].
    cbv zeta. destruct (Rle_dec _ 0); [reflexivity|contradiction].
  - unfold compound_cagr. destruct g; [reflexivity|].
    cbv zeta. destruct (Rle_dec _ 0); [reflexivity|contradiction].
  - unfold compound_cagr. destruct g; [congruence|].
    cbv zeta. destruct (Rle_dec _ 0); [lra|reflexivity].
  - assert (E : compound_cagr g = Some 0).
    { unfold compound_cagr. destruct g as [|p g']; [discriminate|].
      cbv zeta. rewrite (product_zero_returns H1), H0.
      destruct (Rle_dec 1 0); [lra|].
      f_equal. replace (12 / INR 12) with 1 by (simpl; lra).
      rewrite Rpower_1 by lra. lra. }
    exact E.
  - unfold compound_cagr. destruct g as [|p g']; [discriminate|].
    cbv zeta. rewrite (product_zero_returns H1), H0.
    destruct (Rle_dec 1 0); [lra|].
    f_equal. replace (12 / INR 12) with 1 by (simpl; lra).
    rewrite Rpower_1 by lra. lra.
Qed.

End Cagr.

(** ** Yearly returns *)

Section Sorting.

Local Open Scope Z_scope.

Lemma insert_Z_perm (x : Z) (l : list Z) : Permutation (Py.insert_Z x l) (x :: l).
Proof.
  induction l as [|y l IH]; simpl; [apply Permutation_refl|].
  destruct (x <=? y); [apply Permutation_refl|].
  eapply perm_trans; [apply perm_skip, IH | apply perm_swap].
Qed.

Lemma sorted_Z_perm (l : list Z) : Permutation (Py.sorted_Z l) l.
Proof.
  induction l as [|x l IH]; simpl; [apply Permutation_refl|].
  eapply perm_trans; [apply insert_Z_perm | apply perm_skip, IH].
Qed.

Lemma insert_Z_sorted (x : Z) (l : list Z) :
  StronglySorted Z.le l -> StronglySorted Z.le (Py.insert_Z x l).
Proof.
  induction 1 as [|y l Hs IH Hy]; simpl.
  - repeat constructor.
  - destruct (x <=? y) eqn:E.
    + apply Z.leb_le in E. constructor; [constructor; assumption|].
      constructor; [assumption|].
      eapply Forall_impl; [|exact Hy]. intros; lia.
    + apply Z.leb_gt in E. constructor; [assumption|].
      eapply Permutation_Forall; [apply Permutation_sym, insert_Z_perm|].
      constructor; [lia|assumption].
Qed.

Lemma sorted_Z_sorted (l : list Z) : StronglySorted Z.le (Py.sorted_Z l).
Proof.
  induction l as [|x l IH]; simpl; [constructor|].
  apply insert_Z_sorted, IH.
Qed.

Lemma sorted_le_nodup_lt (l : list Z) :
  StronglySorted Z.le l -> NoDup l -> StronglySorted Z.lt l.
Proof.
  induction 1 as [|x l Hs IH Hx]; intro Hnd; [constructor|].
  inversion Hnd as [|? ? Hnin Hnd']; subst.
  constructor; [apply IH, Hnd'|].
  rewrite Forall_forall in *. intros y Hy.
  specialize (Hx y Hy). assert (x <> y) by (intros ->; contradiction). lia.
Qed.

(** Ascending, without repetition, the same years: what [sorted(by_year)]
    yields on distinct keys. *)
Lemma sorted_Z_distinct (l : list Z) :
  NoDup l ->
  StronglySorted Z.lt (Py.sorted_Z l) /\ forall y, In y (Py.sorted_Z l) <-> In y l.
Proof.
  intro Hnd. split.
  - apply sorted_le_nodup_lt; [apply sorted_Z_sorted|].
    eapply Permutation_NoDup; [apply Permutation_sym, sorted_Z_perm|exact Hnd].
  - intro y. split; apply Permutation_in;
      [apply sorted_Z_perm | apply Permutation_sym, sorted_Z_perm].
Qed.

Variable A : Type.
Variable key : A -> Z.

Let lt (a b : A) : bool := key a <? key b.
Let le (a b : A) : Prop := key a <= key b.

Lemma insert_by_sorted (x : A) (l : list A) :
  StronglySorted le l -> StronglySorted le (Py.insert_by lt x l).
Proof.
  induction 1 as [|y l Hs IH Hy]; simpl.
  - repeat constructor.
  - unfold lt at 1. destruct (key x <? key y) eqn:E.
    + apply Z.ltb_lt in E. constructor; [constructor; assumption|].
      constructor; [unfold le; lia|].
      eapply Forall_impl; [|exact Hy]. unfold le; intros; lia.
    + apply Z.ltb_ge in E. constructor; [assumption|].
      eapply Permutation_Forall; [apply Permutation_sym, insert_by_perm|].
      constructor; [exact E|assumption].
Qed.

Lemma sorted_from_sorted (l acc : list A) :
  StronglySorted le acc ->
  StronglySorted le (fold_left (fun acc x => Py.insert_by lt x acc) l acc).
Proof.
  revert acc; induction l as [|x l IH]; intros acc H; simpl; [exact H|].
  apply IH, insert_by_sorted, H.
Qed.

Lemma sorted_by_sorted (l : list A) : StronglySorted le (Py.sorted_by lt l).
Proof. apply sorted_from_sorted. constructor. Qed.

Variable B : Type.
Variable f : B -> A.

Lemma insert_by_map (x : B) (l : list B) :
  map f (Py.insert_by (fun a b => lt (f a) (f b)) x l) = Py.insert_by lt (f x) (map f l).
Proof.
  induction l as [|y l IH]; simpl; [reflexivity|].
  destruct (lt (f x) (f y)); simpl; [reflexivity|]. rewrite IH. reflexivity.
Qed.

Lemma sorted_from_map (l acc : list B) :
  map f (fold_left (fun acc x => Py.insert_by (fun a b => lt (f a) (f b)) x acc) l acc)
  = fold_left (fun acc x => Py.insert_by lt x acc) (map f l) (map f acc).
Proof.
  revert acc; induction l as [|x l IH]; intro acc; simpl; [reflexivity|].
  rewrite IH, insert_by_map. reflexivity.
Qed.

Lemma sorted_by_map (l : list B) :
  map f (Py.sorted_by (fun a b => lt (f a) (f b)) l) = Py.sorted_by lt (map f l).
Proof. apply (sorted_from_map l []). Qed.

End Sorting.

Section YearlyReturns.

Import Py Spec.

Local Open Scope Z_scope.

Local Abbreviation by_year_t := (list (Z * list (Z * R))).

Lemma lookup_setdefault (b : by_year_t) (y' : Z) (it : Z * R) (y : Z) :
  ExportCsv.lookup_year (ExportCsv.setdefault_append b y' it) y
  = (ExportCsv.lookup_year b y ++ (if y =? y' then [it] else []))%list.
Proof.
  induction b as [|[k items] rest IH]; simpl.
  - destruct (y =? y'); reflexivity.
  - destruct (y' =? k) eqn:E1; simpl.
    + apply Z.eqb_eq in E1; subst k.
      destruct (y =? y'); [reflexivity|]. rewrite app_nil_r. reflexivity.
    + destruct (y =? k) eqn:E2; [|apply IH].
      apply Z.eqb_eq in E2; subst k. rewrite Z.eqb_sym in E1. rewrite E1.
      rewrite app_nil_r. reflexivity.
Qed.

Lemma keys_setdefault_in (b : by_year_t) (y' : Z) (it : Z * R) (y : Z) :
  In y (map fst (ExportCsv.setdefault_append b y' it))
  <-> In y (map fst b) \/ y = y'.
Proof.
  induction b as [|[k items] rest IH]; simpl.
  - intuition.
  - destruct (y' =? k) eqn:E1; simpl.
    + apply Z.eqb_eq in E1; subst k. intuition.
    + rewrite IH. intuition.
Qed.

Lemma keys_setdefault_nodup (b : by_year_t) (y' : Z) (it : Z * R) :
  NoDup (map fst b) -> NoDup (map fst (ExportCsv.setdefault_append b y' it)).
Proof.
  induction b as [|[k items] rest IH]; simpl; intro H.
  - repeat constructor. intros [].
  - destruct (y' =? k) eqn:E1; simpl; [exact H|].
    inversion H as [|? ? Hnin Hnd]; subst. constructor; [|apply IH, Hnd].
    rewrite keys_setdefault_in. intros [Hin | ->]; [contradiction|].
    rewrite Z.eqb_refl in E1. discriminate.
Qed.

Lemma group_from (pts : list (Z * (Z * R))) (b : by_year_t) :
  let b' := fold_left (fun by_year p =>
              ExportCsv.setdefault_append by_year (fst p) (snd p)) pts b in
  (forall y, ExportCsv.lookup_year b' y
             = (ExportCsv.lookup_year b y ++ map snd (filter (ExportCsv.year_is y) pts))%list)
  /\ (forall y, In y (map fst b') <-> In y (map fst b) \/ In y (map fst pts))
  /\ (NoDup (map fst b) -> NoDup (map fst b')).
Proof.
  revert b; induction pts as [|p pts IH]; intro b; simpl.
  - repeat split; intros; rewrite ?app_nil_r; intuition.
  - destruct (IH (ExportCsv.setdefault_append b (fst p) (snd p))) as (H1 & H2 & H3).
    repeat split.
    + intro y. rewrite H1, lookup_setdefault, <- app_assoc. f_equal.
      unfold ExportCsv.year_is at 2. rewrite (Z.eqb_sym y).
      destruct (fst p =? y); reflexivity.
    + rewrite H2, keys_setdefault_in. intuition.
    + rewrite H2, keys_setdefault_in. intuition.
    + intro Hnd. apply H3, keys_setdefault_nodup, Hnd.
Qed.

Lemma group_by_year_spec (pts : list (Z * (Z * R))) :
  (forall y, ExportCsv.lookup_year (ExportCsv.group_by_year pts) y
             = map snd (filter (ExportCsv.year_is y) pts))
  /\ (forall y, In y (map fst (ExportCsv.group_by_year pts)) <-> In y (map fst pts))
  /\ NoDup (map fst (ExportCsv.group_by_year pts)).
Proof.
  destruct (group_from pts []) as (H1 & H2 & H3). repeat split.
  - intro y. apply H1.
  - intro H. apply H2 in H. destruct H as [[]|H]; exact H.
  - intro H. apply H2. right. exact H.
  - apply H3. constructor.
Qed.

Lemma filter_year_map (g : list ReturnPoint) (y : Z) :
  filter (ExportCsv.year_is y)
         (map (fun p => (rp_year p, (rp_month p, rp_return p))) g)
  = map (fun p => (rp_year p, (rp_month p, rp_return p))) (filter (in_year y) g).
Proof.
  induction g as [|p g IH]; simpl; [reflexivity|].
  unfold ExportCsv.year_is at 1, in_year at 1. simpl.
  destruct (rp_year p =? y); simpl; rewrite IH; reflexivity.
Qed.

Lemma fold_left_snd (months : list (Z * R)) (a : R) :
  fold_left (fun c r => (c * (1 + r / 100))%R) (map snd months) a
  = fold_left (fun c m => (c * (1 + snd m / 100))%R) months a.
Proof.
  revert a; induction months as [|m months IH]; intro a; simpl; [reflexivity|].
  apply IH.
Qed.

Lemma year_return_entry (g : list ReturnPoint) (y : Z) :
  let items := map snd (filter (ExportCsv.year_is y)
                 (map (fun p => (rp_year p, (rp_month p, rp_return p))) g)) in
  yearly_entry g y (ExportCsv.sorted_months items) (ExportCsv.year_return items).
Proof.
  cbv zeta. rewrite filter_year_map, map_map. cbn [snd].
  change (fun p => (rp_month p, rp_return p)) with month_of.
  set (items := map month_of (filter (in_year y) g)).
  split; [apply sorted_by_perm|].
  split; [apply (sorted_by_sorted (@fst Z R))|].
  split.
  - unfold ExportCsv.year_return, ExportCsv.compound.
    rewrite fold_left_snd. reflexivity.
  - unfold ExportCsv.year_return.
    rewrite (@compound_perm (map snd (ExportCsv.sorted_months items)) (map snd items))
      by (apply Permutation_map, sorted_by_perm).
    rewrite compound_product. unfold items. rewrite !map_map. reflexivity.
Qed.

Lemma neg_years_from (l : list R) (n : Z) :
  fold_left (fun n r => if Rlt_dec r 0 then n + 1 else n) l n
  = n + Z.of_nat (List.length (filter (fun r => if Rlt_dec r 0 then true else false) l)).
Proof.
  revert n; induction l as [|r l IH]; intro n; simpl; [lia|].
  rewrite IH. destruct (Rlt_dec r 0); simpl List.length; lia.
Qed.

Lemma min_from (l : list R) (x : R) :
  let m := fold_left (fun m y => if Rlt_dec y m then y else m) l x in
  (m = x \/ In m l) /\ (m <= x)%R /\ Forall (fun r => (m <= r)%R) l.
Proof.
  revert x; induction l as [|y l IH]; intro x; simpl.
  - split; [left; reflexivity|]. split; [lra|constructor].
  - destruct (IH (if Rlt_dec y x then y else x)) as (H1 & H2 & H3).
    destruct (Rlt_dec y x) as [Hlt|Hge].
    + split; [destruct H1 as [->|H1]; auto|]. split; [lra|].
      constructor; [exact H2|exact H3].
    + split; [destruct H1 as [->|H1]; auto|]. split; [exact H2|].
      constructor; [lra|exact H3].
Qed.

(** C2.  On a heat map that holds the grid [g], the yearly returns are
    one entry per distinct year of [g], in ascending year order; for
    each year the sequence that the inner loop walks holds the points
    present for that year, in ascending month order, and the entry is
    the product of [1 + r / 100] taken along that sequence, minus one,
    in percent.  The count of negative years is the number of entries
    below zero, and the worst year is the least entry, absent exactly
    when there is no entry. *)
Theorem compute_yearly_returns_spec (h : dict) (g : list ReturnPoint) :
  grid_of h g ->
  let ys := ExportCsv.compute_yearly_returns_from_heatmap (PDict h) in
  (exists years,
      StronglySorted Z.lt years
      /\ (forall y, In y years <-> In y (map rp_year g))
      /\ Forall2 (fun y entry =>
                    yearly_entry g y (ExportCsv.months_of_year (PDict h) y) entry)
                 years ys)
  /\ List.length ys = List.length (nodup Z.eq_dec (map rp_year g))
  /\ ExportCsv.neg_years ys
     = Z.of_nat (List.length (filter (fun r => if Rlt_dec r 0 then true else false) ys))
  /\ (ExportCsv.worst_year ys = None <-> ys = [])
  /\ (forall w, ExportCsv.worst_year ys = Some w ->
                In w ys /\ Forall (fun r => (w <= r)%R) ys).
Proof.
  intros (rows & Hv & Hrows) ys.
  set (pts := map (fun p => (rp_year p, (rp_month p, rp_return p))) g).
  assert (Eys : ys = map (fun year => ExportCsv.year_return
                            (ExportCsv.lookup_year (ExportCsv.group_by_year pts) year))
                         (sorted_Z (map fst (ExportCsv.group_by_year pts)))).
  { unfold ys, ExportCsv.compute_yearly_returns_from_heatmap.
    rewrite Hv, (export_points Hrows). reflexivity. }
  destruct (group_by_year_spec pts) as (Hlook & Hkeys & Hnd).
  destruct (sorted_Z_distinct Hnd) as (Hsorted & Hin).
  assert (Hyears : forall y, In y (sorted_Z (map fst (ExportCsv.group_by_year pts)))
                             <-> In y (map rp_year g)).
  { intro y. rewrite Hin, Hkeys. unfold pts. rewrite map_map. simpl. reflexivity. }
  split; [|split; [|split; [|split]]].
  - exists (sorted_Z (map fst (ExportCsv.group_by_year pts))).
    split; [exact Hsorted|]. split; [exact Hyears|].
    rewrite Eys. clear Hsorted Hin Hyears Eys.
    assert (Em : forall y, ExportCsv.months_of_year (PDict h) y
                           = ExportCsv.sorted_months
                               (ExportCsv.lookup_year (ExportCsv.group_by_year pts) y)).
    { intro y. unfold ExportCsv.months_of_year.
      rewrite Hv, (export_points Hrows). reflexivity. }
    induction (sorted_Z (map fst (ExportCsv.group_by_year pts))) as [|y l IH];
      cbn [map]; constructor; [|exact IH].
    rewrite Em, Hlook. apply year_return_entry.
  - rewrite Eys, length_map. apply Permutation_length, NoDup_Permutation.
    + eapply Permutation_NoDup; [apply Permutation_sym, sorted_Z_perm|exact Hnd].
    + apply NoDup_nodup.
    + intro y. rewrite Hyears, nodup_In. reflexivity.
  - unfold ExportCsv.neg_years. rewrite neg_years_from. lia.
  - unfold ExportCsv.worst_year, ExportCsv.py_min. destruct ys; split; congruence.
  - intros w Hw. unfold ExportCsv.worst_year, ExportCsv.py_min in Hw.
    destruct ys as [|x l]; [discriminate|]. injection Hw as <-.
    destruct (min_from l x) as (H1 & H2 & H3). split.
    + destruct H1 as [->|H1]; [left; reflexivity|right; exact H1].
    + constructor; [exact H2|exact H3].
Qed.

End YearlyReturns.

(** ** Text *)

Section Text.

Import Py.

Local Open Scope string_scope.

Lemma append_nil_r (s : string) : s ++ "" = s.
Proof. induction s; simpl; congruence. Qed.

Lemma append_assoc (a b c : string) : (a ++ b) ++ c = a ++ b ++ c.
Proof. induction a; simpl; congruence. Qed.

Lemma smap_append (f : ascii -> ascii) (a b : string) :
  smap f (a ++ b) = smap f a ++ smap f b.
Proof. induction a; simpl; congruence. Qed.

Lemma drop_prefix_spec (p s r : string) :
  drop_prefix p s = Some r <-> s = p ++ r.
Proof.
  revert s; induction p as [|a p IH]; intro s; simpl.
  - split; congruence.
  - destruct s as [|b s]; [split; discriminate|].
    destruct (Ascii.eqb_spec a b) as [->|Hab].
    + rewrite IH. split; congruence.
    + split; [discriminate|]. intro H; injection H; congruence.
Qed.

Lemma contains_spec (p s : string) :
  contains p s = true <-> Spec.occurs_in p s.
Proof.
  induction s as [|c s IH].
  - simpl. destruct (drop_prefix p "") as [r|] eqn:E.
    + apply drop_prefix_spec in E. split; [|reflexivity].
      intros _. exists "", r. exact E.
    + split; [discriminate|]. intros (pre & post & H).
      destruct pre; [|discriminate]. simpl in H.
      apply drop_prefix_spec in H. congruence.
  - cbn [contains]. destruct (drop_prefix p (String c s)) as [r|] eqn:E.
    + apply drop_prefix_spec in E. split; [|reflexivity].
      intros _. exists "", r. exact E.
    + rewrite IH. split.
      * intros (pre & post & ->). exists (String c pre), post. reflexivity.
      * intros (pre & post & H). destruct pre as [|c' pre].
        -- simpl in H. apply drop_prefix_spec in H. congruence.
        -- injection H as _ ->. exists pre, post. reflexivity.
Qed.

Lemma contains_false (p s : string) :
  contains p s = false <-> ~ Spec.occurs_in p s.
Proof.
  rewrite <- contains_spec. destruct (contains p s); split; congruence.
Qed.

(** C6.  [classify_category] lower-cases the name, a space and the axis
    (an absent one counts as empty) and answers "Core" when "core"
    occurs in that text, else "Hedge" when "hedg" occurs, else
    "Satellite"; "core" is looked for first, so a text with both is
    "Core".  The three examples of the specification follow. *)
Theorem classify_category_spec (name axis : option string) :
  let text := lower (ExportCsv.or_empty name ++ " " ++ ExportCsv.or_empty axis) in
  (Spec.occurs_in "core" text -> ExportCsv.classify_category name axis = "Core")
  /\ (~ Spec.occurs_in "core" text -> Spec.occurs_in "hedg" text ->
      ExportCsv.classify_category name axis = "Hedge")
  /\ (~ Spec.occurs_in "core" text -> ~ Spec.occurs_in "hedg" text ->
      ExportCsv.classify_category name axis = "Satellite")
  /\ ExportCsv.classify_category (Some "MSCI World Core UCITS ETF") None = "Core"
  /\ (forall pre post,
        name = Some (pre ++ "Hedged" ++ post) -> ~ Spec.occurs_in "core" text ->
        ExportCsv.classify_category name axis = "Hedge").
Proof.
  intro text. unfold ExportCsv.classify_category. fold text.
  assert (Hc : forall b, contains "hedg" text = b ->
     (~ Spec.occurs_in "core" text ->
      (if contains "core" text then "Core"
       else if contains "hedg" text then "Hedge" else "Satellite")
      = if b then "Hedge" else "Satellite")).
  { intros b <- Hn. apply contains_false in Hn. rewrite Hn. reflexivity. }
  split; [|split; [|split; [|split]]].
  - intro H. apply contains_spec in H. rewrite H. reflexivity.
  - intros Hn Hh. apply contains_spec in Hh. apply (Hc true Hh Hn).
  - intros Hn Hh. apply contains_false in Hh. apply (Hc false Hh Hn).
  - reflexivity.
  - intros pre post Hname Hn. apply (Hc true); [|exact Hn].
    apply contains_spec. unfold text. rewrite Hname. cbn [ExportCsv.or_empty].
    unfold lower. rewrite !smap_append.
    exists (smap lower_char pre),
           ("ed" ++ smap lower_char post ++ smap lower_char (" " ++ ExportCsv.or_empty axis)).
    rewrite !append_assoc. reflexivity.
Qed.

End Text.

(** ** Dictionaries *)

Section Dicts.

Import Py.

Lemma get_set_same (d : dict) (k : string) (v : pyval) : get (set d k v) k = v.
Proof.
  unfold get, get_default. induction d as [|[k' v'] d IH]; simpl.
  - rewrite String.eqb_refl. reflexivity.
  - destruct (String.eqb k k') eqn:E; simpl; rewrite E; [reflexivity|exact IH].
Qed.

Lemma get_set_other (d : dict) (k k' : string) (v : pyval) :
  String.eqb k' k = false -> get (set d k v) k' = get d k'.
Proof.
  intro Hk. unfold get, get_default. induction d as [|[k0 v0] d IH]; simpl.
  - rewrite Hk. reflexivity.
  - destruct (String.eqb k k0) eqn:E; simpl.
    + apply String.eqb_eq in E; subst k0. rewrite Hk. reflexivity.
    + destruct (String.eqb k' k0); [reflexivity|exact IH].
Qed.

Lemma get_del_other (d : dict) (k k' : string) :
  String.eqb k' k = false -> get (del d k) k' = get d k'.
Proof.
  intro Hk. unfold get, get_default. induction d as [|[k0 v0] d IH]; simpl.
  - reflexivity.
  - destruct (String.eqb k k0) eqn:E; simpl.
    + apply String.eqb_eq in E; subst k0. rewrite Hk. reflexivity.
    + destruct (String.eqb k' k0); [reflexivity|exact IH].
Qed.

End Dicts.

(** ** The fallback estimate and the priority of the grid *)

Section Fallback.

Import Py.

Local Open Scope R_scope.

Lemma ln_2_bounds : 0 < ln 2 < 1.
Proof.
  split.
  - rewrite <- ln_1. apply ln_increasing; lra.
  - assert (H : ln 2 < ln (exp 1)).
    { apply ln_increasing; [lra|]. pose proof (exp_ineq1 1). lra. }
    rewrite ln_exp in H. exact H.
Qed.

Lemma Rpower_2_split (e : R) : Rpower 2 (1 + e) = 2 * exp (e * ln 2).
Proof.
  rewrite Rpower_plus, Rpower_1 by lra. reflexivity.
Qed.

(** Doubling over 365 or 366 days is a rate within half a point of 100. *)
Lemma doubling_bound (days : Z) :
  (days = 365 \/ days = 366)%Z ->
  Rabs ((Rpower 2 (1 / (IZR days / 365.2425)) - 1) * 100 - 100) < 1 / 2.
Proof.
  pose proof ln_2_bounds as [Hl0 Hl1].
  intros [-> | ->].
  - replace (1 / (365 / 365.2425)) with (1 + 97 / 146000) by lra.
    rewrite Rpower_2_split.
    set (x := 97 / 146000 * ln 2).
    assert (Hx : 0 < x < 97 / 146000) by (unfold x; nra).
    pose proof (exp_ineq1_le x) as Hlo.
    pose proof (exp_ineq1_le (- x)) as Hm.
    assert (He : exp x * exp (- x) = 1) by (rewrite <- exp_plus, Rplus_opp_r; apply exp_0).
    pose proof (exp_pos x) as Hp.
    assert (Hup : exp x <= 1 + 1 / 1000) by nra.
    apply Rabs_def1; lra.
  - replace (1 / (366 / 365.2425)) with (1 + - (101 / 48800)) by lra.
    rewrite Rpower_2_split.
    set (x := - (101 / 48800) * ln 2).
    assert (Hx : - (101 / 48800) < x < 0) by (unfold x; nra).
    pose proof (exp_ineq1_le x) as Hlo.
    assert (Hup : exp x < 1).
    { rewrite <- exp_0. apply exp_increasing. lra. }
    apply Rabs_def1; lra.
Qed.

Lemma exp_twice (a b : R) : exp a <= b -> exp (2 * a) <= b * b.
Proof.
  intro H. replace (2 * a) with (a + a) by ring. rewrite exp_plus.
  pose proof (exp_pos a). nra.
Qed.

Lemma exp_twice_lower (a b : R) : 0 <= b -> b <= exp a -> b * b <= exp (2 * a).
Proof.
  intros Hb H. replace (2 * a) with (a + a) by ring. rewrite exp_plus. nra.
Qed.

Lemma ln_2_lower : 68 / 100 < ln 2.
Proof.
  assert (H : exp (68 / 100) < 2).
  { pose proof (exp_ineq1_le (- (2125 / 100000))) as H0.
    assert (E : exp (2125 / 100000) * exp (- (2125 / 100000)) = 1)
      by (rewrite <- exp_plus, Rplus_opp_r; apply exp_0).
    pose proof (exp_pos (2125 / 100000)) as Hp.
    assert (H1 : exp (2125 / 100000) <= 102172 / 100000) by nra.
    apply exp_twice in H1. apply exp_twice in H1. apply exp_twice in H1.
    apply exp_twice in H1. apply exp_twice in H1.
    replace (2 * (2 * (2 * (2 * (2 * (2125 / 100000)))))) with (68 / 100) in H1 by lra.
    lra. }
  rewrite <- (ln_exp (68 / 100)). apply ln_increasing; [apply exp_pos|exact H].
Qed.

Lemma ln_2_upper : ln 2 < 72 / 100.
Proof.
  assert (H : 2 < exp (72 / 100)).
  { pose proof (exp_ineq1_le (45 / 1000)) as H1.
    assert (H2 : 1045 / 1000 <= exp (45 / 1000)) by lra.
    apply exp_twice_lower in H2; [|lra]. apply exp_twice_lower in H2; [|lra].
    apply exp_twice_lower in H2; [|lra]. apply exp_twice_lower in H2; [|lra].
    replace (2 * (2 * (2 * (2 * (45 / 1000))))) with (72 / 100) in H2 by lra.
    lra. }
  rewrite <- (ln_exp (72 / 100)). apply ln_increasing; [lra|exact H].
Qed.

(** Doubling over 365 days is a rate between 100.09 and 100.10, over 366
    days a rate between 99.70 and 99.72: a year of 365.2425 days is
    neither. *)
Lemma doubling_offset_365 :
  9 / 100 < (Rpower 2 (1 / (365 / 365.2425)) - 1) * 100 - 100 < 1 / 10.
Proof.
  pose proof ln_2_lower as Hl0. pose proof ln_2_upper as Hl1.
  replace (1 / (365 / 365.2425)) with (1 + 97 / 146000) by lra.
  rewrite Rpower_2_split.
  set (x := 97 / 146000 * ln 2).
  assert (Hx : 97 / 146000 * (68 / 100) < x < 97 / 146000 * (72 / 100))
    by (unfold x; nra).
  pose proof (exp_ineq1_le x) as Hlo.
  pose proof (exp_ineq1_le (- x)) as Hm.
  assert (He : exp x * exp (- x) = 1) by (rewrite <- exp_plus, Rplus_opp_r; apply exp_0).
  pose proof (exp_pos x) as Hp.
  assert (Hup : exp x <= 1 + 48 / 100000) by nra.
  lra.
Qed.

Lemma doubling_offset_366 :
  28 / 100 < 100 - (Rpower 2 (1 / (366 / 365.2425)) - 1) * 100 < 3 / 10.
Proof.
  pose proof ln_2_lower as Hl0. pose proof ln_2_upper as Hl1.
  replace (1 / (366 / 365.2425)) with (1 + - (101 / 48800)) by lra.
  rewrite Rpower_2_split.
  set (y := 101 / 48800 * ln 2).
  replace (- (101 / 48800) * ln 2) with (- y) by (unfold y; ring).
  assert (Hy : 101 / 48800 * (68 / 100) < y < 101 / 48800 * (72 / 100))
    by (unfold y; nra).
  pose proof (exp_ineq1_le y) as Hlo.
  pose proof (exp_ineq1_le (- y)) as Hm.
  assert (He : exp y * exp (- y) = 1) by (rewrite <- exp_plus, Rplus_opp_r; apply exp_0).
  pose proof (exp_pos (- y)) as Hp.
  assert (Hup : exp (- y) <= 1 - 1405 / 1000000) by nra.
  lra.
Qed.

Local Open Scope Z_scope.

Lemma days_before_next_year (y : Z) :
  Date.days_before_year (y + 1) - Date.days_before_year y
  = 365 + (if Date.is_leap y then 1 else 0).
Proof.
  unfold Date.days_before_year, Date.is_leap.
  replace (y + 1 - 1) with y by lia.
  destruct (Z.eqb_spec (y mod 4) 0), (Z.eqb_spec (y mod 100) 0),
    (Z.eqb_spec (y mod 400) 0); cbn [negb andb orb];
    Z.div_mod_to_equations; lia.
Qed.

Lemma one_year_days (y m d : Z) :
  Date.days_between (Date.mk_date (y - 1) m d) (Date.mk_date y m d) = 365
  \/ Date.days_between (Date.mk_date (y - 1) m d) (Date.mk_date y m d) = 366.
Proof.
  unfold Date.days_between, Date.toordinal, Date.days_before_month. cbn [Date.year Date.month Date.day].
  pose proof (days_before_next_year (y - 1)) as H.
  replace (y - 1 + 1) with y in H by lia.
  assert (Hx : Date.is_leap (y - 1) = true -> Date.is_leap y = false).
  { unfold Date.is_leap. intro H1.
    destruct (Z.eqb_spec (y mod 4) 0); [|reflexivity].
    destruct (Z.eqb_spec ((y - 1) mod 4) 0); [|discriminate].
    exfalso. Z.div_mod_to_equations; lia. }
  destruct (Date.is_leap (y - 1)) eqn:E1.
  - rewrite (Hx eq_refl). destruct (2 <? m); cbn [andb]; lia.
  - destruct (Date.is_leap y), (2 <? m); cbn [andb]; lia.
Qed.

End Fallback.

(** One step of a computation that is known to return. *)
Ltac ok_step :=
  match goal with
  | |- bind ?m _ = Ok _ -> _ => destruct m; [cbn [bind]|discriminate]
  end.

Section FallbackPolicy.

Import Py.

Local Open Scope R_scope.

Lemma estimate_one_year (today launch : Date.date) :
  Date.year today = (Date.year launch + 1)%Z ->
  Date.month today = Date.month launch ->
  Date.day today = Date.day launch ->
  exists c, Scrape.estimate today (Some 100) (Some launch) = Some c
            /\ ((Date.days_between launch today = 365%Z
                 /\ 9 / 100 < c - 100 < 1 / 10)
                \/ (Date.days_between launch today = 366%Z
                    /\ 28 / 100 < 100 - c < 3 / 10)).
Proof.
  destruct today as [ty tm td], launch as [ly lm ld]. cbn [Date.year Date.month Date.day].
  intros -> -> ->. unfold Scrape.estimate.
  pose proof (one_year_days (ly + 1) lm ld) as Hd.
  replace (ly + 1 - 1)%Z with ly in Hd by lia.
  set (days := Date.days_between _ _) in *. cbv zeta.
  assert (Hpos : (days <=? 0)%Z = false) by (apply Z.leb_gt; lia).
  rewrite Hpos. destruct (Rle_dec (1 + 100 / 100) 0) as [Hle|_]; [lra|].
  eexists. split; [reflexivity|].
  replace (1 + 100 / 100) with 2 by lra.
  destruct Hd as [Hd | Hd]; rewrite Hd; [left|right]; (split; [reflexivity|]).
  - exact doubling_offset_365.
  - exact doubling_offset_366.
Qed.


Lemma overview_row_cagr (E : ExportCsv.helpers) (today : Date.date)
  (ticker_map : list (string * string)) (d row : dict) :
  ExportCsv.overview_row E today ticker_map (PDict d) = Ok (Some row) ->
  get row "CAGR (%)" = ExportCsv.of_float (ExportCsv.document_cagr d).
Proof.
  unfold ExportCsv.overview_row.
  destruct (String.eqb _ EmptyString); [discriminate|].
  cbv zeta. repeat ok_step. intro H. injection H as <-. reflexivity.
Qed.

(** C5.  The figure taken from the grid has priority: when it exists it
    is the one recorded, whatever the fallback would give; the fallback
    is recorded only when the grid gives none; when both are absent the
    recorded entry stays as the profile reader left it ([None]), and the
    normalised row of such a document carries [None] for the CAGR, which
    is not the number zero. *)
Theorem cagr_priority (today : Date.date) (heatmap : option dict) (parsed : dict) :
  let out := Scrape.record_cagr today heatmap parsed in
  (forall c, Scrape.compute_cagr_from_heatmap heatmap = Some c ->
     get out "cagr_depuis_creation_pct" = PFloat (py_round c 6)
     /\ get out "cagr_depuis_creation_source" = PStr "heatmap_mensuelle")
  /\ (Scrape.compute_cagr_from_heatmap heatmap = None ->
      forall c, Scrape.compute_cagr_from_max_return today parsed = Some c ->
        get out "cagr_depuis_creation_pct" = PFloat (py_round c 6)
        /\ get out "cagr_depuis_creation_source" = PStr "max_return_plus_launch_date")
  /\ (Scrape.compute_cagr_from_heatmap heatmap = None ->
      Scrape.compute_cagr_from_max_return today parsed = None ->
      get out "cagr_depuis_creation_pct" = get parsed "cagr_depuis_creation_pct"
      /\ get out "cagr_depuis_creation_source" = get parsed "cagr_depuis_creation_source")
  /\ (forall E ticker_map d row,
        ExportCsv.overview_row E today ticker_map (PDict d) = Ok (Some row) ->
        as_number (get d "cagr_depuis_creation_pct") = None ->
        ExportCsv.compute_cagr_from_heatmap (get d "heatmap_mensuelle") = None ->
        get row "CAGR (%)" = PNone /\ as_number (get row "CAGR (%)") <> Some 0).
Proof.
  intro out.
  assert (Hfb : Scrape.compute_cagr_from_max_return today
                  (set parsed "heatmap_mensuelle" (Scrape.of_heatmap heatmap))
                = Scrape.compute_cagr_from_max_return today parsed).
  { unfold Scrape.compute_cagr_from_max_return.
    rewrite get_set_other by reflexivity. reflexivity. }
  assert (Hdel : forall p k, String.eqb k "_meta_returns" = false ->
     get (match get p "_meta_returns" with
          | PDict _ => del p "_meta_returns"
          | _ => p
          end) k = get p k).
  { intros p k Hk. destruct (get p "_meta_returns"); try reflexivity.
    apply get_del_other, Hk. }
  unfold out, Scrape.record_cagr. cbv zeta.
  split; [|split; [|split]].
  - intros c ->. rewrite !Hdel by reflexivity. split.
    + rewrite get_set_other by reflexivity. apply get_set_same.
    + apply get_set_same.
  - intros -> c Hc. rewrite Hfb, Hc, !Hdel by reflexivity. split.
    + rewrite get_set_other by reflexivity. apply get_set_same.
    + apply get_set_same.
  - intros -> Hn. rewrite Hfb, Hn, !Hdel by reflexivity.
    rewrite !get_set_other by reflexivity. split; reflexivity.
  - intros E ticker_map d row Hrow Hnum Hgrid.
    rewrite (overview_row_cagr _ _ _ _ Hrow).
    unfold ExportCsv.document_cagr. rewrite Hnum, Hgrid. simpl.
    split; [reflexivity|discriminate].
Qed.

End FallbackPolicy.

(** ** The projection sheet *)

Section EmptySheet.

(** C8.  Without instruments [write_projection_csv] hands the writer one
    row of one cell, the placeholder text, which is no formula; nothing
    is raised. *)
Theorem write_projection_csv_empty (E : ExportCsv.helpers) (years : nat)
  (capital_initial inflation dca_mensuel : R) :
  ExportCsv.write_projection_csv E [] years capital_initial inflation dca_mensuel
  = Ok [["Aucun ETF exploitable"%string]]
  /\ ~ Spec.is_formula "Aucun ETF exploitable".
Proof.
  split; [reflexivity|]. intros (body & H). discriminate H.
Qed.

End EmptySheet.

(** ** The normalised rows *)

Section OverviewRows.

Import Py.

Variable E : ExportCsv.helpers.
Variable today : Date.date.
Variable ticker_map : list (string * string).


Lemma launch_point_month (row : pyval) (y m : Z) :
  ExportCsv.launch_point row = Some (y, m) -> (1 <= m <= 12)%Z.
Proof.
  unfold ExportCsv.launch_point. destruct row; try discriminate.
  destruct (int_of_str_of _); [|discriminate].
  destruct (as_int _) as [mi|]; [|discriminate].
  destruct (Z.ltb_spec mi 1), (Z.ltb_spec 12 mi); cbn [orb]; try discriminate.
  intro Heq; injection Heq as _ <-. lia.
Qed.







Local Open Scope R_scope.











End OverviewRows.

Section Matrix.

Import Py.

Variable width : nat.

Local Abbreviation well_formed := (Spec.well_formed width).

Lemma assign_ok {A : Type} (l : list A) (i : nat) (v : A) :
  (i < List.length l)%nat ->
  exists l', assign l i v = Ok l'
    /\ List.length l' = List.length l
    /\ forall j d, nth j l' d = if (j =? i)%nat then v else nth j l d.
Proof.
  revert i; induction l as [|x l IH]; intros i Hi; simpl in Hi; [lia|].
  destruct i as [|i]; simpl.
  - eexists. split; [reflexivity|]. split; [reflexivity|].
    intros [|j] d; reflexivity.
  - destruct (IH i) as (l' & -> & Hlen & Hnth); [lia|].
    eexists. split; [reflexivity|]. split; [simpl; lia|].
    intros [|j] d; simpl; [reflexivity|apply Hnth].
Qed.

Lemma assign_fail {A : Type} (l : list A) (i : nat) (v : A) :
  (List.length l <= i)%nat -> assign l i v = Raise IndexError.
Proof.
  revert i; induction l as [|x l IH]; intros i Hi; simpl; [reflexivity|].
  simpl in Hi. destruct i as [|i]; [lia|]. rewrite IH by lia. reflexivity.
Qed.

Lemma ensure_row_well_formed (m : ExportCsv.matrix) (r : nat) :
  well_formed m -> well_formed (ExportCsv.ensure_row width m r).
Proof.
  intro H. unfold ExportCsv.ensure_row, well_formed. apply Forall_app. split; [exact H|].
  apply Forall_forall. intros row Hrow. apply repeat_spec in Hrow. subst row.
  apply repeat_length.
Qed.

Lemma ensure_row_length (m : ExportCsv.matrix) (r : nat) :
  List.length (ExportCsv.ensure_row width m r) = Nat.max (List.length m) (S r).
Proof. unfold ExportCsv.ensure_row. rewrite length_app, repeat_length. lia. Qed.

Lemma nth_blank (c : nat) : nth c (ExportCsv.blank_row width) EmptyString = EmptyString.
Proof.
  unfold ExportCsv.blank_row. generalize width. induction c as [|c IH]; intros [|w]; simpl; auto.
Qed.

Lemma ensure_row_cell (m : ExportCsv.matrix) (r r' c' : nat) :
  Spec.cell (ExportCsv.ensure_row width m r) r' c' = Spec.cell m r' c'.
Proof.
  unfold Spec.cell, ExportCsv.ensure_row.
  destruct (Nat.lt_ge_cases r' (List.length m)) as [Hlt|Hge].
  - rewrite app_nth1 by exact Hlt. reflexivity.
  - rewrite app_nth2 by exact Hge. rewrite (nth_overflow m) by exact Hge.
    set (k := (S r - List.length m)%nat). set (i := (r' - List.length m)%nat).
    assert (Hrow : nth i (repeat (ExportCsv.blank_row width) k) []
                   = ExportCsv.blank_row width
                   \/ nth i (repeat (ExportCsv.blank_row width) k) [] = []).
    { clearbody k i. revert i. induction k as [|k IH]; intros [|i]; simpl; auto. }
    destruct Hrow as [-> | ->]; [rewrite nth_blank|]; destruct c'; reflexivity.
Qed.

Lemma set_cell_ok (m : ExportCsv.matrix) (r c : nat) (v : string) :
  well_formed m -> (c < width)%nat ->
  exists m', ExportCsv.set_cell width m r c v = Ok m'
    /\ well_formed m'
    /\ List.length m' = Nat.max (List.length m) (S r)
    /\ forall r' c', Spec.cell m' r' c'
         = if ((r' =? r) && (c' =? c))%nat then v else Spec.cell m r' c'.
Proof.
  intros Hwf Hc. unfold ExportCsv.set_cell.
  pose proof (@ensure_row_well_formed m r Hwf) as Hwf1.
  pose proof (ensure_row_length m r) as Hlen1.
  pose proof (ensure_row_cell m r) as Hcell1.
  set (m1 := ExportCsv.ensure_row width m r) in *.
  assert (Hr : (r < List.length m1)%nat) by lia.
  destruct (nth_error m1 r) as [row|] eqn:Erow;
    [|apply nth_error_None in Erow; lia].
  assert (Hrow : List.length row = width).
  { unfold well_formed in Hwf1. rewrite Forall_forall in Hwf1.
    apply Hwf1. eapply nth_error_In; exact Erow. }
  destruct (@assign_ok _ row c v) as (row' & -> & Hlen' & Hnth'); [lia|]. cbn [bind].
  destruct (@assign_ok _ m1 r row' Hr) as (m' & -> & Hlenm & Hnthm).
  exists m'. split; [reflexivity|]. split; [|split; [lia|]].
  - unfold well_formed. apply Forall_forall. intros x Hx.
    apply (In_nth _ _ []) in Hx. destruct Hx as (j & Hj & <-).
    rewrite Hnthm. destruct (j =? r)%nat; [lia|].
    unfold well_formed in Hwf1. rewrite Forall_forall in Hwf1.
    apply Hwf1, nth_In. lia.
  - intros r' c'. unfold Spec.cell at 1. rewrite Hnthm.
    destruct (Nat.eqb_spec r' r) as [->|Hne]; cbn [andb].
    + rewrite Hnth'. destruct (c' =? c)%nat; [reflexivity|].
      rewrite <- Hcell1. unfold Spec.cell.
      rewrite (nth_error_nth _ _ _ Erow). reflexivity.
    + rewrite <- Hcell1. reflexivity.
Qed.

Lemma set_cell_fail (m : ExportCsv.matrix) (r c : nat) (v : string) :
  well_formed m -> (width <= c)%nat ->
  ExportCsv.set_cell width m r c v = Raise IndexError.
Proof.
  intros Hwf Hc. unfold ExportCsv.set_cell.
  pose proof (@ensure_row_well_formed m r Hwf) as Hwf1.
  set (m1 := ExportCsv.ensure_row width m r) in *.
  destruct (nth_error m1 r) as [row|] eqn:Erow; [|reflexivity].
  assert (Hrow : List.length row = width).
  { unfold well_formed in Hwf1. rewrite Forall_forall in Hwf1.
    apply Hwf1. eapply nth_error_In; exact Erow. }
  rewrite assign_fail by lia. reflexivity.
Qed.

Lemma run_raise (ws : list ExportCsv.write) (e : exn) :
  fold_left
    (fun acc w => let '(r, c, value) := w in
       bind acc (fun m' => ExportCsv.set_cell width m' r c value)) ws (Raise e)
  = Raise e.
Proof. induction ws as [|[[r c] v] ws IH]; simpl; [reflexivity|exact IH]. Qed.

Lemma run_cons (r c : nat) (v : string) (ws : list ExportCsv.write) (m : ExportCsv.matrix) :
  ExportCsv.run width ((r, c, v) :: ws) m
  = match ExportCsv.set_cell width m r c v with
    | Ok m' => ExportCsv.run width ws m'
    | Raise e => Raise e
    end.
Proof.
  unfold ExportCsv.run. simpl.
  destruct (ExportCsv.set_cell width m r c v); [reflexivity|apply run_raise].
Qed.

Local Abbreviation column := Spec.column.

(** Calls that stay inside the width all succeed, and the sheet holds at
    every cell the value of the last call made on it. *)
Lemma run_ok (ws : list ExportCsv.write) (m : ExportCsv.matrix) :
  well_formed m -> Forall (fun w => (column w < width)%nat) ws ->
  exists m', ExportCsv.run width ws m = Ok m'
    /\ well_formed m'
    /\ forall r c, Spec.cell m' r c
         = match Spec.last_write ws r c with
           | Some v => v
           | None => Spec.cell m r c
           end.
Proof.
  revert m; induction ws as [|[[r0 c0] v0] ws IH]; intros m Hwf Hcols.
  - exists m. repeat split; assumption.
  - inversion Hcols as [|? ? Hc Hrest]; subst. unfold column in Hc; simpl in Hc.
    rewrite run_cons.
    destruct (@set_cell_ok m r0 c0 v0 Hwf Hc) as (m1 & -> & Hwf1 & _ & Hcell1).
    destruct (IH m1 Hwf1 Hrest) as (m' & Hrun & Hwf' & Hcell').
    exists m'. split; [exact Hrun|]. split; [exact Hwf'|].
    intros r c. rewrite Hcell'. cbn [Spec.last_write].
    destruct (Spec.last_write ws r c); [reflexivity|].
    rewrite Hcell1. cbn [Spec.targets snd]. rewrite (Nat.eqb_sym r r0), (Nat.eqb_sym c c0).
    destruct ((r0 =? r) && (c0 =? c))%nat; reflexivity.
Qed.

(** One call outside the width makes the whole run raise. *)
Lemma run_fail (ws : list ExportCsv.write) (m : ExportCsv.matrix) :
  well_formed m -> Exists (fun w => (width <= column w)%nat) ws ->
  ExportCsv.run width ws m = Raise IndexError.
Proof.
  revert m; induction ws as [|[[r0 c0] v0] ws IH]; intros m Hwf Hex.
  - inversion Hex.
  - rewrite run_cons. destruct (Nat.lt_ge_cases c0 width) as [Hlt|Hge].
    + destruct (@set_cell_ok m r0 c0 v0 Hwf Hlt) as (m1 & -> & Hwf1 & _).
      apply IH; [exact Hwf1|].
      inversion Hex as [? ? Hbad|? ? Hlater]; subst; [|exact Hlater].
      unfold column in Hbad; simpl in Hbad. lia.
    + rewrite set_cell_fail by assumption. reflexivity.
Qed.

End Matrix.

Section LastWrite.

Import Py.

Lemma last_write_app (a b : list ExportCsv.write) (r c : nat) :
  Spec.last_write (a ++ b) r c
  = match Spec.last_write b r c with
    | Some v => Some v
    | None => Spec.last_write a r c
    end.
Proof.
  induction a as [|w a IH]; simpl.
  - destruct (Spec.last_write b r c); reflexivity.
  - rewrite IH. destruct (Spec.last_write b r c); reflexivity.
Qed.

Lemma last_write_none (ws : list ExportCsv.write) (r c : nat) :
  (forall w, In w ws -> Spec.row_index w <> r \/ Spec.column w <> c) ->
  Spec.last_write ws r c = None.
Proof.
  induction ws as [|[[r0 c0] v0] ws IH]; intro H; simpl; [reflexivity|].
  rewrite IH by (intros w Hw; apply H; right; exact Hw).
  destruct (H (r0, c0, v0) (or_introl eq_refl)) as [Hr|Hc];
    unfold Spec.row_index, Spec.column in *; simpl in *.
  - destruct (Nat.eqb_spec r0 r); [contradiction|reflexivity].
  - destruct (Nat.eqb_spec c0 c); [contradiction|]. rewrite andb_false_r. reflexivity.
Qed.

Lemma last_write_flat_map_none {A : Type} (f : A -> list ExportCsv.write)
  (l : list A) (r c : nat) :
  (forall b, In b l -> Spec.last_write (f b) r c = None) ->
  Spec.last_write (flat_map f l) r c = None.
Proof.
  induction l as [|x l IH]; intro H; simpl; [reflexivity|].
  rewrite last_write_app, IH by (intros b Hb; apply H; right; exact Hb).
  apply H. left; reflexivity.
Qed.

(** In a loop whose turns are told apart by a key, the last call on a
    cell is the one of the only turn that reaches the cell. *)
Lemma last_write_flat_map_key {A : Type} (key : A -> nat)
  (f : A -> list ExportCsv.write) (l : list A) (a : A) (r c : nat) :
  In a l -> NoDup (map key l) ->
  (forall b, In b l -> key b <> key a -> Spec.last_write (f b) r c = None) ->
  Spec.last_write (flat_map f l) r c = Spec.last_write (f a) r c.
Proof.
  induction l as [|x l IH]; intros Hin Hnd Hother; [destruct Hin|].
  cbn [flat_map map] in *. inversion Hnd as [|? ? Hx Hnd']; subst.
  rewrite last_write_app. destruct Hin as [->|Hin].
  - rewrite last_write_flat_map_none; [reflexivity|].
    intros b Hb. apply Hother; [right; exact Hb|].
    intro Heq. apply Hx. rewrite <- Heq. apply in_map. exact Hb.
  - rewrite IH; [|exact Hin|exact Hnd'|intros b Hb; apply Hother; right; exact Hb].
    destruct (Spec.last_write (f a) r c) eqn:Ea; [reflexivity|].
    apply Hother; [left; reflexivity|].
    intro Heq. apply Hx. rewrite Heq. apply in_map. exact Hin.
Qed.

Lemma map_as_flat_map {A B : Type} (g : A -> B) (l : list A) :
  map g l = flat_map (fun x => [g x]) l.
Proof. induction l as [|x l IH]; simpl; [reflexivity|]. rewrite IH. reflexivity. Qed.

Lemma enumerate_keys {A : Type} (start : nat) (l : list A) :
  map fst (ExportCsv.enumerate start l) = seq start (List.length l).
Proof.
  unfold ExportCsv.enumerate. revert start.
  induction l as [|x l IH]; intro start; simpl; [reflexivity|].
  rewrite IH. reflexivity.
Qed.

Lemma enumerate_in {A : Type} (start : nat) (l : list A) (i : nat) (x : A) :
  In (i, x) (ExportCsv.enumerate start l) ->
  (start <= i < start + List.length l)%nat /\ nth_error l (i - start) = Some x.
Proof.
  unfold ExportCsv.enumerate. revert start.
  induction l as [|y l IH]; intro start; simpl; [intros []|].
  intros [H|H].
  - injection H as <- <-. rewrite Nat.sub_diag. split; [lia|reflexivity].
  - destruct (IH _ H) as (Hi & Hx). split; [lia|].
    replace (i - start)%nat with (S (i - S start)) by lia. exact Hx.
Qed.

Lemma enumerate_nth {A : Type} (start : nat) (l : list A) (j : nat) (x : A) :
  nth_error l j = Some x -> In ((start + j)%nat, x) (ExportCsv.enumerate start l).
Proof.
  unfold ExportCsv.enumerate. revert start j.
  induction l as [|y l IH]; intros start [|j]; simpl; try discriminate.
  - intro H; injection H as ->. left. rewrite Nat.add_0_r. reflexivity.
  - intro H. right. replace (start + S j)%nat with (S start + j)%nat by lia.
    apply IH, H.
Qed.

End LastWrite.

Section Projection.

Import Py.

Variable E : ExportCsv.helpers.
Variable etfs : list dict.
Variable years : nat.
Variables capital_initial inflation dca_mensuel : R.

Local Abbreviation N := (List.length etfs).
Local Abbreviation row_index := Spec.row_index.
Local Abbreviation column := Spec.column.

Lemma parameters_shape (w : ExportCsv.write) :
  In w (ExportCsv.parameters_block years capital_initial inflation dca_mensuel) ->
  (row_index w <= 10 /\ column w <= 1)%nat.
Proof.
  unfold ExportCsv.parameters_block. cbn [In].
  intro H. repeat (destruct H as [<-|H]; [cbv; lia|]). destruct H.
Qed.

Lemma rate_shape (w : ExportCsv.write) :
  In w (flat_map (ExportCsv.rate_cells E) (ExportCsv.enumerate 2 etfs)) ->
  (6 <= row_index w <= 10 /\ 1 <= column w <= N)%nat.
Proof.
  intro H. apply in_flat_map in H. destruct H as ([idx row] & Hin & Hw).
  apply enumerate_in in Hin. destruct Hin as (Hidx & _).
  unfold ExportCsv.rate_cells in Hw. cbn [In] in Hw.
  repeat (destruct Hw as [<-|Hw];
          [unfold Spec.row_index, Spec.column; cbn [fst snd]; lia|]).
  destruct Hw.
Qed.

Lemma isin_shape (header : nat) (w : ExportCsv.write) :
  In w (map (ExportCsv.isin_cell E header) (ExportCsv.enumerate 2 etfs)) ->
  (row_index w = header /\ 1 <= column w <= N)%nat.
Proof.
  intro H. apply in_map_iff in H. destruct H as ([idx row] & <- & Hin).
  apply enumerate_in in Hin. destruct Hin as (Hidx & _).
  unfold Spec.row_index, Spec.column; cbn [ExportCsv.isin_cell fst snd]. lia.
Qed.

Lemma growth_cell_shape (start : nat) (rate : string) (y idx : nat) :
  row_index (ExportCsv.growth_cell start rate y idx) = (start + y)%nat
  /\ column (ExportCsv.growth_cell start rate y idx) = (idx - 1)%nat.
Proof. unfold ExportCsv.growth_cell. destruct (y =? 0)%nat; split; reflexivity. Qed.

Lemma growth_row_shape (start : nat) (rate : string) (n y : nat) (w : ExportCsv.write) :
  In w (ExportCsv.growth_row start rate n y) ->
  row_index w = (start + y)%nat
  /\ (column w = 0%nat
      \/ exists idx, (2 <= idx < 2 + n)%nat /\ w = ExportCsv.growth_cell start rate y idx).
Proof.
  unfold ExportCsv.growth_row. intros [<-|H].
  - split; [reflexivity|left; reflexivity].
  - apply in_map_iff in H. destruct H as (idx & <- & Hidx). apply in_seq in Hidx.
    split; [apply growth_cell_shape|]. right. exists idx. split; [lia|reflexivity].
Qed.

Lemma growth_shape (start : nat) (rate : string) (n : nat) (w : ExportCsv.write) :
  In w (ExportCsv.growth_block start rate n years) ->
  (start <= row_index w <= start + years /\ column w <= n)%nat.
Proof.
  unfold ExportCsv.growth_block. intro H. apply in_flat_map in H.
  destruct H as (y & Hy & Hw). apply in_seq in Hy.
  apply growth_row_shape in Hw. destruct Hw as (Hr & [Hc|(idx & Hidx & ->)]).
  - lia.
  - destruct (growth_cell_shape start rate y idx) as (_ & Hc). lia.
Qed.

Lemma summary_shape (sh a b : nat) (w : ExportCsv.write) :
  In w (flat_map (ExportCsv.summary_cells E sh a b) (ExportCsv.enumerate 1 etfs)) ->
  (sh + 1 <= row_index w <= sh + N /\ column w <= 5)%nat.
Proof.
  intro H. apply in_flat_map in H. destruct H as ([i row] & Hin & Hw).
  apply enumerate_in in Hin. destruct Hin as (Hi & _).
  unfold ExportCsv.summary_cells in Hw. cbn [In] in Hw.
  repeat (destruct Hw as [<-|Hw];
          [unfold Spec.row_index, Spec.column; cbn [fst snd]; lia|]).
  destruct Hw.
Qed.

(** Where the calls of [write_projection_csv] land. *)
Lemma projection_shape (w : ExportCsv.write) :
  (1 <= N)%nat ->
  In w (ExportCsv.projection_writes E etfs years capital_initial inflation dca_mensuel) ->
  (row_index w <= 10 /\ column w <= N)%nat
  \/ (row_index w = 12 /\ column w <= N)%nat
  \/ (13 <= row_index w <= 13 + years /\ column w <= N)%nat
  \/ (row_index w = 16 + years /\ column w <= N)%nat
  \/ (17 + years <= row_index w <= 17 + 2 * years /\ column w <= N)%nat
  \/ (20 + 2 * years <= row_index w /\ column w <= 5)%nat.
Proof.
  intros HN H. unfold ExportCsv.projection_writes in H.
  rewrite !in_app_iff in H.
  unfold ExportCsv.summary_header, ExportCsv.no_cost_final_row, ExportCsv.no_cost_start,
    ExportCsv.no_cost_header, ExportCsv.net_final_row, ExportCsv.start_data_row,
    ExportCsv.projection_header in *.
  destruct H as [H|[H|[H|[H|[H|[H|[H|[H|[H|H]]]]]]]]].
  - apply parameters_shape in H. left. lia.
  - apply rate_shape in H. left. lia.
  - destruct H as [<-|[]]. right; left. cbv [Spec.row_index Spec.column fst snd]. lia.
  - apply isin_shape in H. right; left. lia.
  - apply growth_shape in H. right; right; left. lia.
  - destruct H as [<-|[]]. do 3 right; left. cbv [Spec.row_index Spec.column fst snd]. lia.
  - apply isin_shape in H. do 3 right; left. lia.
  - apply growth_shape in H. do 4 right; left. lia.
  - cbn [In] in H. do 5 right.
    repeat (destruct H as [<-|H]; [cbv [Spec.row_index Spec.column fst snd]; lia|]).
    destruct H.
  - apply summary_shape in H. do 5 right. lia.
Qed.

End Projection.

Section ProjectionSheet.

Import Py.

Variable E : ExportCsv.helpers.
Variable etfs : list dict.
Variable years : nat.
Variables capital_initial inflation dca_mensuel : R.

Local Abbreviation N := (List.length etfs).
Local Abbreviation writes :=
  (ExportCsv.projection_writes E etfs years capital_initial inflation dca_mensuel).

Lemma cell_empty (r c : nat) : Spec.cell [] r c = EmptyString.
Proof. unfold Spec.cell. destruct r, c; reflexivity. Qed.

Lemma last_write_skip (a b : list ExportCsv.write) (r c : nat) (v : string) :
  Spec.last_write b r c = Some v -> Spec.last_write (a ++ b) r c = Some v.
Proof. intro H. rewrite last_write_app, H. reflexivity. Qed.

(** With five instruments or more every call stays inside the sheet. *)
Lemma projection_run :
  (5 <= N)%nat ->
  exists m,
    ExportCsv.write_projection_csv E etfs years capital_initial inflation dca_mensuel = Ok m
    /\ Spec.well_formed (1 + N) m
    /\ forall r c, Spec.cell m r c
         = match Spec.last_write writes r c with
           | Some v => v
           | None => EmptyString
           end.
Proof.
  intro HN.
  assert (Hcols : Forall (fun w => (Spec.column w < 1 + N)%nat) writes).
  { apply Forall_forall. intros w Hw.
    apply projection_shape in Hw; [|lia]. lia. }
  destruct (@run_ok (1 + N) writes [] (Forall_nil _) Hcols) as (m & Hrun & Hwf & Hcell).
  exists m. split; [|split; [exact Hwf|]].
  - unfold ExportCsv.write_projection_csv. destruct etfs; [simpl in HN; lia|exact Hrun].
  - intros r c. rewrite Hcell, cell_empty. reflexivity.
Qed.

(** With one to four instruments the header of the summary block, six
    cells wide, does not fit the sheet, one column wider than the list. *)
Lemma projection_raise :
  (1 <= N <= 4)%nat ->
  ExportCsv.write_projection_csv E etfs years capital_initial inflation dca_mensuel
  = Raise IndexError.
Proof.
  intro HN. unfold ExportCsv.write_projection_csv.
  destruct etfs as [|row rest] eqn:Ee; [simpl in HN; lia|]. rewrite <- Ee.
  apply run_fail; [constructor|].
  apply Exists_exists.
  exists (ExportCsv.summary_header years, 5%nat, "Manque a gagner %"%string).
  split; [|unfold Spec.column; cbn [fst snd]; subst; simpl in *; lia].
  unfold ExportCsv.projection_writes. rewrite !in_app_iff.
  do 8 right. left. cbn [In]. do 5 right. left. reflexivity.
Qed.

Lemma growth_block_last (start : nat) (rate : string) (n y j : nat) :
  (y <= years)%nat -> (j < n)%nat ->
  Spec.last_write (ExportCsv.growth_block start rate n years) (start + y) (j + 1)
  = Some (snd (ExportCsv.growth_cell start rate y (j + 2))).
Proof.
  intros Hy Hj. unfold ExportCsv.growth_block.
  rewrite (@last_write_flat_map_key _ (fun y => y) _ _ y).
  - unfold ExportCsv.growth_row.
    change (?h :: map ?g ?l) with ([h] ++ map g l).
    rewrite last_write_app, map_as_flat_map.
    rewrite (@last_write_flat_map_key _ (fun i => i) _ _ (j + 2)%nat).
    + cbn [Spec.last_write].
      destruct (growth_cell_shape start rate y (j + 2)) as (Hr & Hc).
      unfold Spec.row_index, Spec.column in Hr, Hc.
      destruct (ExportCsv.growth_cell start rate y (j + 2)) as [[r0 c0] v0].
      cbn [fst snd Spec.targets] in *. subst r0 c0.
      replace (j + 2 - 1)%nat with (j + 1)%nat by lia.
      rewrite !Nat.eqb_refl. reflexivity.
    + apply in_seq. lia.
    + rewrite map_id. apply seq_NoDup.
    + intros idx Hidx Hne. apply in_seq in Hidx. apply last_write_none.
      intros w [<-|[]]. right.
      destruct (growth_cell_shape start rate y idx) as (_ & ->). lia.
  - apply in_seq. lia.
  - rewrite map_id. apply seq_NoDup.
  - intros y' Hy' Hne. apply last_write_none. intros w Hw.
    apply growth_row_shape in Hw. left. lia.
Qed.

Lemma growth_label_last (start : nat) (rate : string) (n y : nat) :
  (y <= years)%nat ->
  Spec.last_write (ExportCsv.growth_block start rate n years) (start + y) 0
  = Some (str_of_nat y).
Proof.
  intros Hy. unfold ExportCsv.growth_block.
  rewrite (@last_write_flat_map_key _ (fun y => y) _ _ y).
  - unfold ExportCsv.growth_row.
    change (?h :: map ?g ?l) with ([h] ++ map g l).
    rewrite last_write_app, last_write_none.
    + cbn [Spec.last_write Spec.targets snd]. rewrite Nat.eqb_refl. reflexivity.
    + intros w Hw. apply in_map_iff in Hw. destruct Hw as (idx & <- & Hidx).
      apply in_seq in Hidx. right.
      destruct (growth_cell_shape start rate y idx) as (_ & ->). lia.
  - apply in_seq. lia.
  - rewrite map_id. apply seq_NoDup.
  - intros y' Hy' Hne. apply last_write_none. intros w Hw.
    apply growth_row_shape in Hw. left. lia.
Qed.

Lemma rate_cells_last (j : nat) (row : dict) :
  nth_error etfs j = Some row ->
  Spec.last_write (flat_map (ExportCsv.rate_cells E) (ExportCsv.enumerate 2 etfs)) 8 (j + 1)
  = Some (String "=" (ExportCsv.fmt_number
                        (Some (ExportCsv.number_or_zero row "CAGR (%)" / 100)%R) 10))
  /\ Spec.last_write (flat_map (ExportCsv.rate_cells E) (ExportCsv.enumerate 2 etfs)) 9 (j + 1)
     = Some (String "=" (ExportCsv.fmt_number
                           (Some (ExportCsv.number_or_zero row "TER (%)" / 100)%R) 10)).
Proof.
  intro Hrow.
  assert (Hkey : forall r,
    Spec.last_write (flat_map (ExportCsv.rate_cells E) (ExportCsv.enumerate 2 etfs)) r (j + 1)
    = Spec.last_write (ExportCsv.rate_cells E ((2 + j)%nat, row)) r (j + 1)).
  { intro r. apply (@last_write_flat_map_key _ fst).
    - apply enumerate_nth, Hrow.
    - rewrite enumerate_keys. apply seq_NoDup.
    - intros [idx row'] Hin Hne. apply enumerate_in in Hin. destruct Hin as (Hidx & _).
      cbn [fst] in Hne. apply last_write_none. intros w Hw. right.
      unfold ExportCsv.rate_cells in Hw. cbn [In] in Hw.
      repeat (destruct Hw as [<-|Hw]; [unfold Spec.column; cbn [fst snd]; lia|]).
      destruct Hw. }
  rewrite !Hkey. unfold ExportCsv.rate_cells.
  replace (2 + j - 1)%nat with (j + 1)%nat by lia.
  cbn [Spec.last_write Spec.targets snd Nat.eqb andb].
  rewrite !Nat.eqb_refl. split; reflexivity.
Qed.

End ProjectionSheet.

Section GrowthBlocks.

Import Py.

Variable E : ExportCsv.helpers.
Variable etfs : list dict.
Variable years : nat.
Variables capital_initial inflation dca_mensuel : R.

Local Abbreviation N := (List.length etfs).
Local Abbreviation writes :=
  (ExportCsv.projection_writes E etfs years capital_initial inflation dca_mensuel).
Local Abbreviation summary :=
  ([(ExportCsv.summary_header years, 0, "ISIN");
    (ExportCsv.summary_header years, 1, "Nom ETF");
    (ExportCsv.summary_header years, 2, "Capital final net reel");
    (ExportCsv.summary_header years, 3, "Capital final sans frais");
    (ExportCsv.summary_header years, 4, "Manque a gagner");
    (ExportCsv.summary_header years, 5, "Manque a gagner %")]%string%nat
   ++ flat_map (ExportCsv.summary_cells E (ExportCsv.summary_header years)
                  (ExportCsv.net_final_row years) (ExportCsv.no_cost_final_row years))
               (ExportCsv.enumerate 1 etfs)).
Local Abbreviation no_cost :=
  ([(ExportCsv.no_cost_header years, O, "Annee (sans frais)"%string)]
   ++ map (ExportCsv.isin_cell E (ExportCsv.no_cost_header years)) (ExportCsv.enumerate 2 etfs)
   ++ ExportCsv.growth_block (ExportCsv.no_cost_start years) "9" N years
   ++ summary).
Local Abbreviation growth :=
  ([(ExportCsv.projection_header, O, "Annee"%string)]
   ++ map (ExportCsv.isin_cell E ExportCsv.projection_header) (ExportCsv.enumerate 2 etfs)
   ++ ExportCsv.growth_block ExportCsv.start_data_row "11" N years
   ++ no_cost).

Ltac unfold_rows :=
  unfold ExportCsv.summary_header, ExportCsv.no_cost_final_row, ExportCsv.no_cost_start,
    ExportCsv.no_cost_header, ExportCsv.net_final_row, ExportCsv.start_data_row,
    ExportCsv.projection_header in *.

Lemma summary_rows (w : ExportCsv.write) :
  In w summary -> (20 + 2 * years <= Spec.row_index w)%nat.
Proof.
  rewrite in_app_iff. intros [H|H].
  - cbn [In] in H. unfold_rows.
    repeat (destruct H as [<-|H]; [cbv [Spec.row_index fst]; lia|]). destruct H.
  - apply summary_shape in H. unfold_rows. lia.
Qed.

Lemma no_cost_rows (w : ExportCsv.write) :
  In w no_cost -> (16 + years <= Spec.row_index w)%nat.
Proof.
  rewrite !in_app_iff. intros [H|[H|[H|H]]].
  - destruct H as [<-|[]]. unfold_rows. cbv [Spec.row_index fst]. lia.
  - apply isin_shape in H. unfold_rows. lia.
  - apply growth_shape in H. unfold_rows. lia.
  - assert (H' : In w summary) by (rewrite in_app_iff; exact H).
    apply summary_rows in H'. lia.
Qed.

Lemma growth_rows (w : ExportCsv.write) :
  In w growth -> (12 <= Spec.row_index w)%nat.
Proof.
  rewrite !in_app_iff. intros [H|[H|[H|H]]].
  - destruct H as [<-|[]]. unfold_rows. cbv [Spec.row_index fst]. lia.
  - apply isin_shape in H. unfold_rows. lia.
  - apply growth_shape in H. unfold_rows. lia.
  - assert (H' : In w no_cost) by (rewrite !in_app_iff; exact H).
    apply no_cost_rows in H'. lia.
Qed.

Lemma fee_adjusted_last (y j : nat) :
  (y <= years)%nat -> (j < N)%nat ->
  Spec.last_write writes (ExportCsv.start_data_row + y) (j + 1)
  = Some (snd (ExportCsv.growth_cell ExportCsv.start_data_row "11" y (j + 2))).
Proof.
  intros Hy Hj. unfold ExportCsv.projection_writes.
  do 4 apply last_write_skip.
  rewrite last_write_app, last_write_none.
  - apply growth_block_last; assumption.
  - intros w Hw. apply no_cost_rows in Hw. left. unfold_rows. lia.
Qed.

Lemma fee_free_last (y j : nat) :
  (y <= years)%nat -> (j < N)%nat ->
  Spec.last_write writes (ExportCsv.no_cost_start years + y) (j + 1)
  = Some (snd (ExportCsv.growth_cell (ExportCsv.no_cost_start years) "9" y (j + 2))).
Proof.
  intros Hy Hj. unfold ExportCsv.projection_writes.
  do 7 apply last_write_skip.
  rewrite last_write_app, last_write_none.
  - apply growth_block_last; assumption.
  - intros w Hw. apply summary_rows in Hw. left. unfold_rows. lia.
Qed.

Lemma rates_last (j : nat) (row : dict) :
  nth_error etfs j = Some row ->
  Spec.last_write writes 8 (j + 1)
  = Some (String "=" (ExportCsv.fmt_number
                        (Some (ExportCsv.number_or_zero row "CAGR (%)" / 100)%R) 10))
  /\ Spec.last_write writes 9 (j + 1)
     = Some (String "=" (ExportCsv.fmt_number
                           (Some (ExportCsv.number_or_zero row "TER (%)" / 100)%R) 10)).
Proof.
  intro Hrow. destruct (rate_cells_last E etfs j Hrow) as (H8 & H9).
  unfold ExportCsv.projection_writes.
  split; apply last_write_skip; rewrite last_write_app, last_write_none;
    try assumption; intros w Hw; apply growth_rows in Hw; left; lia.
Qed.

Lemma blank_rows (r c : nat) :
  (1 <= N)%nat ->
  r = (ExportCsv.start_data_row + years + 1)%nat
  \/ r = (ExportCsv.no_cost_start years + years + 1)%nat ->
  Spec.last_write writes r c = None.
Proof.
  intros HN Hr. apply last_write_none. intros w Hw. left.
  apply projection_shape in Hw; [|exact HN]. unfold_rows. lia.
Qed.

End GrowthBlocks.

(** ** Rounding and the text of a number *)

Section Rounding.

Import Py.

Local Open Scope R_scope.

Lemma Int_part_IZR (k : Z) : Int_part (IZR k) = k.
Proof. symmetry. apply Int_part_spec. lra. Qed.

Lemma round_half_even_IZR (k : Z) : round_half_even (IZR k) = k.
Proof.
  unfold round_half_even. rewrite Int_part_IZR.
  destruct (Rlt_dec (IZR k - IZR k) (1 / 2)); [reflexivity|lra].
Qed.

(** The rounded integer is within one half of the number. *)
Lemma round_half_even_near (x : R) : Rabs (IZR (round_half_even x) - x) <= 1 / 2.
Proof.
  unfold round_half_even. destruct (base_Int_part x) as (H1 & H2).
  set (f := Int_part x) in *.
  destruct (Rlt_dec (x - IZR f) (1 / 2)) as [Hlt|Hge].
  - apply Rabs_le. lra.
  - destruct (Rlt_dec (1 / 2) (x - IZR f)) as [Hgt|Hle].
    + rewrite plus_IZR. apply Rabs_le. lra.
    + destruct (Z.even f); [|rewrite plus_IZR]; apply Rabs_le; lra.
Qed.

Lemma round_half_even_sign (x : R) :
  (x < 0 -> (round_half_even x <= 0)%Z) /\ (0 <= x -> (0 <= round_half_even x)%Z).
Proof.
  unfold round_half_even. destruct (base_Int_part x) as (H1 & H2).
  set (f := Int_part x) in *.
  split; intro Hx.
  - assert (Hf : (f <= -1)%Z).
    { apply le_IZR. apply Rnot_lt_le. intro Hc.
      assert (0 <= f)%Z.
      { apply Z.lt_succ_r. apply lt_IZR. rewrite succ_IZR. lra. }
      apply IZR_le in H. lra. }
    destruct (Rlt_dec (x - IZR f) (1 / 2)); [lia|].
    destruct (Rlt_dec (1 / 2) (x - IZR f)); [lia|].
    destruct (Z.even f); lia.
  - assert (Hf : (0 <= f)%Z).
    { apply Z.lt_succ_r. apply lt_IZR. rewrite succ_IZR. lra. }
    destruct (Rlt_dec (x - IZR f) (1 / 2)); [lia|].
    destruct (Rlt_dec (1 / 2) (x - IZR f)); [lia|].
    destruct (Z.even f); lia.
Qed.

Lemma pow10_pos (n : nat) : 0 < 10 ^ n.
Proof. apply pow_lt. lra. Qed.

Lemma round_py_round (x : R) (n : nat) :
  round_half_even (py_round x n * 10 ^ n) = round_half_even (x * 10 ^ n).
Proof.
  unfold py_round. pose proof (pow10_pos n).
  replace (IZR (round_half_even (x * 10 ^ n)) / 10 ^ n * 10 ^ n)
    with (IZR (round_half_even (x * 10 ^ n))) by (field; lra).
  apply round_half_even_IZR.
Qed.

(** [fmt_number] in one step: the digits of the scaled, rounded number
    behind the sign of the number, then the two trims and the comma. *)
Lemma fmt_number_unfold (x : R) (n : nat) :
  ExportCsv.fmt_number (Some x) n
  = replace_char "." ","
      (rstrip (is_char ".")
         (rstrip (is_char "0")
            ((if Rlt_dec x 0 then "-" else EmptyString)
             ++ fixed (Z.abs (round_half_even (x * 10 ^ n))) n)%string)).
Proof.
  unfold ExportCsv.fmt_number, format_f. rewrite round_py_round.
  destruct (Rlt_dec x 0); reflexivity.
Qed.

Lemma fmt_number_zero : ExportCsv.fmt_number (Some (0 / 100)) 10 = "0"%string.
Proof.
  rewrite fmt_number_unfold.
  replace (0 / 100 * 10 ^ 10) with (IZR 0) by (unfold Rdiv; rewrite !Rmult_0_l; reflexivity).
  rewrite round_half_even_IZR.
  destruct (Rlt_dec (0 / 100) 0) as [H|_]; [lra|].
  vm_compute. reflexivity.
Qed.

End Rounding.

(** ** The growth blocks and the rate block *)

Section SheetClaims.

Import Py.

Local Open Scope string_scope.

Variable E : ExportCsv.helpers.
Variable years : nat.
Variables capital_initial inflation dca_mensuel : R.

(** The formula of a growth cell at sheet position [(r, c)], [r] past the
    first row of its block: the cell above, times one plus the rate of
    the column, plus twelve monthly contributions. *)
Lemma growth_cell_formula (start : nat) (rate : string) (y j : nat) :
  snd (ExportCsv.growth_cell start rate y (j + 2))
  = if (y =? 0)%nat then "=$B$2"
    else "=" ++ Spec.address (start + y - 1) (j + 1) ++ "*(1+"
             ++ ExportCsv.excel_col_name (j + 1 + 1) ++ "$" ++ rate ++ ")+$B$4*12".
Proof.
  unfold ExportCsv.growth_cell, Spec.address.
  replace (j + 1 + 1)%nat with (j + 2)%nat by lia.
  destruct (y =? 0)%nat; [reflexivity|]. cbn [snd].
  rewrite !append_assoc. reflexivity.
Qed.

(** With five instruments or more the sheet is produced and each growth
    block is as the specification describes it: [years + 1] rows per
    instrument column, the first one the reference to the initial
    capital, every later one the formula on the row above; the row under
    each block is empty. *)
Lemma growth_blocks_wide (etfs : list dict) :
  (5 <= List.length etfs)%nat ->
  exists m,
    ExportCsv.write_projection_csv E etfs years capital_initial inflation dca_mensuel = Ok m
    /\ (forall y j, (y <= years)%nat -> (j < List.length etfs)%nat ->
          Spec.cell m (ExportCsv.start_data_row + y) (j + 1)
          = (if (y =? 0)%nat then "=$B$2"
             else "=" ++ Spec.address (ExportCsv.start_data_row + y - 1) (j + 1) ++ "*(1+"
                      ++ ExportCsv.excel_col_name (j + 1 + 1) ++ "$11)+$B$4*12")
          /\ Spec.cell m (ExportCsv.no_cost_start years + y) (j + 1)
             = (if (y =? 0)%nat then "=$B$2"
                else "=" ++ Spec.address (ExportCsv.no_cost_start years + y - 1) (j + 1)
                         ++ "*(1+" ++ ExportCsv.excel_col_name (j + 1 + 1) ++ "$9)+$B$4*12"))
    /\ (forall c, Spec.cell m (ExportCsv.start_data_row + years + 1) c = ""
                  /\ Spec.cell m (ExportCsv.no_cost_start years + years + 1) c = "").
Proof.
  intro HN.
  destruct (projection_run E etfs years capital_initial inflation dca_mensuel HN)
    as (m & Hm & _ & Hcell).
  exists m. split; [exact Hm|]. split.
  - intros y j Hy Hj. rewrite !Hcell.
    rewrite (fee_adjusted_last E etfs capital_initial inflation dca_mensuel Hy Hj).
    rewrite (fee_free_last E etfs capital_initial inflation dca_mensuel Hy Hj).
    rewrite !growth_cell_formula. split; reflexivity.
  - intro c. rewrite !Hcell, !blank_rows by (auto; lia). split; reflexivity.
Qed.

(** C3, at the inputs where the code departs from it.  With one to four
    instruments [write_projection_csv] raises [IndexError] and produces
    no growth block at all: the header of the summary block is written
    six cells wide into rows that are one cell wider than the list. *)
Theorem write_projection_csv_few_instruments (etfs : list dict) :
  (1 <= List.length etfs <= 4)%nat ->
  ExportCsv.write_projection_csv E etfs years capital_initial inflation dca_mensuel
  = Raise IndexError.
Proof. apply projection_raise. Qed.

Lemma number_or_zero_absent (row : dict) (k : string) :
  as_number (get row k) = None -> ExportCsv.number_or_zero row k = 0%R.
Proof. unfold ExportCsv.number_or_zero. intros ->. reflexivity. Qed.

Lemma get_default_set_other (d : dict) (k k' : string) (v dflt : pyval) :
  String.eqb k' k = false -> get_default (set d k v) k' dflt = get_default d k' dflt.
Proof.
  intro Hk. unfold get_default. induction d as [|[k0 v0] d IH]; simpl.
  - rewrite Hk. reflexivity.
  - destruct (String.eqb k k0) eqn:Ek; simpl.
    + apply String.eqb_eq in Ek; subst k0. rewrite Hk. reflexivity.
    + destruct (String.eqb k' k0); [reflexivity|exact IH].
Qed.

Lemma is_number_as_number (v : pyval) :
  is_number v = false -> as_number v = None.
Proof. destruct v; simpl; congruence. Qed.

Lemma number_or_zero_fill (row : dict) (k : string) :
  ExportCsv.number_or_zero
    (if is_number (get row k) then row else set row k (PFloat 0)) k
  = ExportCsv.number_or_zero row k.
Proof.
  destruct (is_number (get row k)) eqn:En; [reflexivity|].
  unfold ExportCsv.number_or_zero. rewrite get_set_same.
  rewrite (is_number_as_number _ En). reflexivity.
Qed.

Lemma zero_filled_numbers (row : dict) :
  ExportCsv.number_or_zero (Spec.zero_filled row) "CAGR (%)"
  = ExportCsv.number_or_zero row "CAGR (%)"
  /\ ExportCsv.number_or_zero (Spec.zero_filled row) "TER (%)"
     = ExportCsv.number_or_zero row "TER (%)".
Proof.
  unfold Spec.zero_filled.
  set (row1 := if is_number (get row "CAGR (%)") then row else set row "CAGR (%)" (PFloat 0)).
  assert (H1 : ExportCsv.number_or_zero row1 "CAGR (%)"
               = ExportCsv.number_or_zero row "CAGR (%)") by apply number_or_zero_fill.
  assert (H2 : get row1 "TER (%)" = get row "TER (%)").
  { unfold row1. destruct (is_number _); [reflexivity|].
    apply get_set_other. reflexivity. }
  split.
  - rewrite <- H1. destruct (is_number (get row1 "TER (%)")); [reflexivity|].
    unfold ExportCsv.number_or_zero. rewrite get_set_other by reflexivity. reflexivity.
  - rewrite number_or_zero_fill. unfold ExportCsv.number_or_zero. rewrite H2. reflexivity.
Qed.

Lemma zero_filled_text (row : dict) (k : string) :
  String.eqb k "CAGR (%)" = false -> String.eqb k "TER (%)" = false ->
  ExportCsv.field_text E (Spec.zero_filled row) k = ExportCsv.field_text E row k.
Proof.
  intros H1 H2. unfold ExportCsv.field_text, Spec.zero_filled. f_equal.
  destruct (is_number (get row "CAGR (%)")), (is_number (get _ "TER (%)"));
    rewrite ?get_default_set_other by assumption; reflexivity.
Qed.

Lemma flat_map_enumerate_map {A B C : Type} (f : A -> B) (g : nat * B -> list C)
  (g' : nat * A -> list C) (l : list A) (start : nat) :
  (forall i x, g (i, f x) = g' (i, x)) ->
  flat_map g (ExportCsv.enumerate start (map f l))
  = flat_map g' (ExportCsv.enumerate start l).
Proof.
  intro H. unfold ExportCsv.enumerate. revert start.
  induction l as [|x l IH]; intro start; simpl; [reflexivity|].
  rewrite H. f_equal. apply IH.
Qed.

Lemma isin_cells_zero_filled (header start : nat) (l : list dict) :
  map (ExportCsv.isin_cell E header) (ExportCsv.enumerate start (map Spec.zero_filled l))
  = map (ExportCsv.isin_cell E header) (ExportCsv.enumerate start l).
Proof.
  rewrite !map_as_flat_map. apply flat_map_enumerate_map.
  intros i x. unfold ExportCsv.isin_cell.
  rewrite !zero_filled_text by reflexivity. reflexivity.
Qed.

Lemma rate_cells_zero_filled (start : nat) (l : list dict) :
  flat_map (ExportCsv.rate_cells E) (ExportCsv.enumerate start (map Spec.zero_filled l))
  = flat_map (ExportCsv.rate_cells E) (ExportCsv.enumerate start l).
Proof.
  apply flat_map_enumerate_map. intros i x. unfold ExportCsv.rate_cells.
  destruct (zero_filled_numbers x) as (-> & ->).
  rewrite !zero_filled_text by reflexivity. reflexivity.
Qed.

Lemma summary_cells_zero_filled (a b c start : nat) (l : list dict) :
  flat_map (ExportCsv.summary_cells E a b c)
           (ExportCsv.enumerate start (map Spec.zero_filled l))
  = flat_map (ExportCsv.summary_cells E a b c) (ExportCsv.enumerate start l).
Proof.
  apply flat_map_enumerate_map. intros i x. unfold ExportCsv.summary_cells.
  rewrite !zero_filled_text by reflexivity. reflexivity.
Qed.

Lemma projection_writes_zero_filled (etfs : list dict) :
  ExportCsv.projection_writes E (map Spec.zero_filled etfs) years
    capital_initial inflation dca_mensuel
  = ExportCsv.projection_writes E etfs years capital_initial inflation dca_mensuel.
Proof.
  unfold ExportCsv.projection_writes.
  rewrite length_map, !isin_cells_zero_filled, rate_cells_zero_filled,
    summary_cells_zero_filled.
  reflexivity.
Qed.

(** C10.  In the rate block a CAGR or a TER that is no number is
    replaced by [0.0]: the call made for its cell carries the text [=0],
    which is what the cell reads once the sheet is produced, and the
    whole result of [write_projection_csv] is the one obtained from the
    rows in which the missing figures are zeros, so the sheet cannot tell
    an unknown figure from a measured zero. *)
Theorem rate_block_absent_is_zero (etfs : list dict) :
  ExportCsv.write_projection_csv E etfs years capital_initial inflation dca_mensuel
  = ExportCsv.write_projection_csv E (map Spec.zero_filled etfs) years
      capital_initial inflation dca_mensuel
  /\ ((5 <= List.length etfs)%nat ->
      exists m,
        ExportCsv.write_projection_csv E etfs years capital_initial inflation dca_mensuel
        = Ok m
        /\ forall j row, nth_error etfs j = Some row ->
             (as_number (get row "CAGR (%)") = None -> Spec.cell m 8 (j + 1) = "=0")
             /\ (as_number (get row "TER (%)") = None -> Spec.cell m 9 (j + 1) = "=0"))
  /\ (forall j row, nth_error etfs j = Some row ->
        let calls :=
          ExportCsv.projection_writes E etfs years capital_initial inflation dca_mensuel in
        (as_number (get row "CAGR (%)") = None -> In (8%nat, (j + 1)%nat, "=0") calls)
        /\ (as_number (get row "TER (%)") = None -> In (9%nat, (j + 1)%nat, "=0") calls)).
Proof.
  split; [|split].
  - unfold ExportCsv.write_projection_csv.
    destruct etfs as [|row rest] eqn:Ee; [reflexivity|]. rewrite <- Ee.
    rewrite projection_writes_zero_filled, length_map.
    destruct (map Spec.zero_filled etfs) eqn:Em; [subst; discriminate Em|]. reflexivity.
  - intro HN.
    destruct (projection_run E etfs years capital_initial inflation dca_mensuel HN)
      as (m & Hm & _ & Hcell).
    exists m. split; [exact Hm|]. intros j row Hrow.
    destruct (rates_last E etfs years capital_initial inflation dca_mensuel j Hrow)
      as (H8 & H9).
    split; intro Habs; rewrite Hcell.
    + rewrite H8, (number_or_zero_absent _ _ Habs), fmt_number_zero. reflexivity.
    + rewrite H9, (number_or_zero_absent _ _ Habs), fmt_number_zero. reflexivity.
  - intros j row Hrow calls.
    assert (Hcalls : forall w, In w (ExportCsv.rate_cells E ((2 + j)%nat, row)) -> In w calls).
    { intros w Hw. unfold calls, ExportCsv.projection_writes. rewrite !in_app_iff.
      right; left. apply in_flat_map. exists ((2 + j)%nat, row).
      split; [apply enumerate_nth, Hrow|exact Hw]. }
    split; intro Habs; apply Hcalls; unfold ExportCsv.rate_cells;
      rewrite (number_or_zero_absent _ _ Habs), fmt_number_zero;
      replace (2 + j - 1)%nat with (j + 1)%nat by lia; cbn [In append]; auto 6.
Qed.

End SheetClaims.

(** ** Numerals: from a number to its text and back *)

(** Facts on single characters, by going through the 256 of them. *)
Ltac by_cases_on_ascii :=
  let c := fresh "c" in
  intro c; destruct c as [[] [] [] [] [] [] [] []];
  vm_compute; intros; try reflexivity; try discriminate.

Section Strings.

Import Py.

Local Open Scope string_scope.

Lemma sall_app (p : ascii -> bool) (s t : string) :
  sall p (s ++ t) = sall p s && sall p t.
Proof. induction s as [|c s IH]; simpl; [reflexivity|]. rewrite IH, andb_assoc. reflexivity. Qed.

Lemma sall_impl (p q : ascii -> bool) (s : string) :
  (forall c, p c = true -> q c = true) -> sall p s = true -> sall q s = true.
Proof.
  intro H. induction s as [|c s IH]; simpl; [reflexivity|].
  intro Hs. apply andb_true_iff in Hs. destruct Hs as (Hc & Hs).
  rewrite (H c Hc), (IH Hs). reflexivity.
Qed.

Lemma smap_id (p : ascii -> bool) (f : ascii -> ascii) (s : string) :
  (forall c, p c = true -> f c = c) -> sall p s = true -> smap f s = s.
Proof.
  intro H. induction s as [|c s IH]; simpl; [reflexivity|].
  intro Hs. apply andb_true_iff in Hs. destruct Hs as (Hc & Hs).
  rewrite (H c Hc), (IH Hs). reflexivity.
Qed.

Lemma remove_char_id (p : ascii -> bool) (a : ascii) (s : string) :
  (forall c, p c = true -> Ascii.eqb c a = false) -> sall p s = true ->
  remove_char a s = s.
Proof.
  intro H. induction s as [|c s IH]; simpl; [reflexivity|].
  intro Hs. apply andb_true_iff in Hs. destruct Hs as (Hc & Hs).
  rewrite (H c Hc), (IH Hs). reflexivity.
Qed.

Lemma collapse_spaces_id (p : ascii -> bool) (b : bool) (s : string) :
  (forall c, p c = true -> is_space c = false) -> sall p s = true ->
  collapse_spaces b s = s.
Proof.
  intro H. revert b. induction s as [|c s IH]; intro b; simpl; [reflexivity|].
  intro Hs. apply andb_true_iff in Hs. destruct Hs as (Hc & Hs).
  rewrite (H c Hc), (IH false Hs). reflexivity.
Qed.

Lemma lstrip_id (p q : ascii -> bool) (s : string) :
  (forall c, p c = true -> q c = false) -> sall p s = true -> lstrip q s = s.
Proof.
  intro H. destruct s as [|c s]; simpl; [reflexivity|].
  intro Hs. apply andb_true_iff in Hs. destruct Hs as (Hc & _).
  rewrite (H c Hc). reflexivity.
Qed.

Lemma rstrip_id (p q : ascii -> bool) (s : string) :
  (forall c, p c = true -> q c = false) -> sall p s = true -> rstrip q s = s.
Proof.
  intro H. induction s as [|c s IH]; simpl; [reflexivity|].
  intro Hs. apply andb_true_iff in Hs. destruct Hs as (Hc & Hs).
  rewrite (IH Hs), (H c Hc). destruct s; reflexivity.
Qed.

Lemma rstrip_app (q : ascii -> bool) (s t : string) :
  rstrip q (s ++ t)
  = match rstrip q t with
    | EmptyString => rstrip q s
    | r => s ++ r
    end.
Proof.
  induction s as [|c s IH]; simpl.
  - destruct (rstrip q t); reflexivity.
  - rewrite IH. destruct (rstrip q t) as [|c' r]; [reflexivity|].
    destruct (s ++ String c' r) eqn:E; [destruct s; discriminate E|reflexivity].
Qed.

Lemma replace_fuel_id (p : ascii -> bool) (a : ascii) (old' new s : string) (fuel : nat) :
  (forall c, p c = true -> Ascii.eqb a c = false) -> sall p s = true ->
  replace_fuel fuel (String a old') new s = s.
Proof.
  intro H. revert s. induction fuel as [|fuel IH]; intros s Hs; simpl; [reflexivity|].
  destruct s as [|c s]; [reflexivity|].
  simpl in Hs. apply andb_true_iff in Hs. destruct Hs as (Hc & Hs).
  rewrite (H c Hc), (IH s Hs). reflexivity.
Qed.

Lemma span_app (p : ascii -> bool) (s t : string) :
  sall p s = true ->
  match t with EmptyString => True | String c _ => p c = false end ->
  span p (s ++ t) = (s, t).
Proof.
  intros Hs Ht. induction s as [|c s IH]; simpl.
  - destruct t as [|c t]; [reflexivity|]. simpl. rewrite Ht. reflexivity.
  - simpl in Hs. apply andb_true_iff in Hs. destruct Hs as (Hc & Hs).
    rewrite Hc, (IH Hs). reflexivity.
Qed.

Lemma length_append (s t : string) :
  String.length (s ++ t) = (String.length s + String.length t)%nat.
Proof. induction s as [|c s IH]; simpl; [reflexivity|]. rewrite IH. reflexivity. Qed.

Lemma numeral_not_space : forall c, Spec.numeral_char c = true -> is_space c = false.
Proof. by_cases_on_ascii. Qed.

Lemma numeral_not_nbsp : forall c, Spec.numeral_char c = true -> Ascii.eqb c nbsp = false.
Proof. by_cases_on_ascii. Qed.

Lemma numeral_not_blank : forall c, Spec.numeral_char c = true -> Ascii.eqb c " " = false.
Proof. by_cases_on_ascii. Qed.

Lemma numeral_not_percent : forall c, Spec.numeral_char c = true -> Ascii.eqb c "%" = false.
Proof. by_cases_on_ascii. Qed.

Lemma numeral_not_plus : forall c, Spec.numeral_char c = true -> Ascii.eqb c "+" = false.
Proof. by_cases_on_ascii. Qed.

Lemma numeral_not_p : forall c, Spec.numeral_char c = true -> Ascii.eqb "p" c = false.
Proof. by_cases_on_ascii. Qed.

Lemma digit_numeral : forall c, is_digit c = true -> Spec.numeral_char c = true.
Proof. by_cases_on_ascii. Qed.

Lemma digit_aum : forall c, is_digit c = true -> ExportCsv.aum_char c = true.
Proof. by_cases_on_ascii. Qed.

Lemma digit_comma_to_dot : forall c, is_digit c = true ->
  (if Ascii.eqb c "," then "."%char else c) = c.
Proof. by_cases_on_ascii. Qed.

Lemma digit_dot_to_comma : forall c, is_digit c = true ->
  (if Ascii.eqb c "." then ","%char else c) = c.
Proof. by_cases_on_ascii. Qed.

Lemma digit_val_range : forall c, is_digit c = true -> (0 <= digit_val c <= 9)%Z.
Proof. by_cases_on_ascii; split; discriminate. Qed.

End Strings.

Section Digits.

Import Py.

Local Open Scope Z_scope.

Lemma digit_char_spec (d : Z) :
  0 <= d <= 9 -> is_digit (digit_char d) = true /\ digit_val (digit_char d) = d.
Proof.
  intro H.
  assert (Hd : d = 0 \/ d = 1 \/ d = 2 \/ d = 3 \/ d = 4 \/ d = 5 \/ d = 6
               \/ d = 7 \/ d = 8 \/ d = 9) by lia.
  repeat (destruct Hd as [->|Hd]; [split; reflexivity|]). subst d. split; reflexivity.
Qed.

Lemma digits_val_acc (s : string) (a : Z) :
  digits_val a s = a * 10 ^ Z.of_nat (String.length s) + digits_val 0 s.
Proof.
  revert a; induction s as [|c s IH]; intro a; cbn [digits_val String.length].
  - change (10 ^ Z.of_nat 0) with 1. lia.
  - rewrite (IH (10 * a + digit_val c)), (IH (10 * 0 + digit_val c)).
    rewrite Nat2Z.inj_succ, Z.pow_succ_r by lia. ring.
Qed.

Lemma digits_val_app (s t : string) (a : Z) :
  digits_val a (s ++ t) = digits_val (digits_val a s) t.
Proof. revert a; induction s as [|c s IH]; intro a; simpl; [reflexivity|apply IH]. Qed.

Lemma digits_val_snoc (s : string) (d : Z) :
  0 <= d <= 9 ->
  digits_val 0 (s ++ String (digit_char d) EmptyString) = 10 * digits_val 0 s + d.
Proof.
  intro Hd. rewrite digits_val_app. cbn [digits_val].
  destruct (digit_char_spec Hd) as (_ & ->). reflexivity.
Qed.

Lemma digits_fuel_spec (fuel : nat) (n : Z) (acc : string) :
  0 <= n < 2 ^ Z.of_nat (S fuel) ->
  exists ds, digits_fuel (S fuel) n acc = (ds ++ acc)%string
    /\ sall is_digit ds = true /\ ds <> EmptyString /\ digits_val 0 ds = n.
Proof.
  revert n acc; induction fuel as [|fuel IH]; intros n acc Hn.
  - change (2 ^ Z.of_nat 1) with 2 in Hn.
    assert (Hq : n / 10 = 0) by (apply Z.div_small; lia).
    assert (Hr : n mod 10 = n) by (apply Z.mod_small; lia).
    cbn [digits_fuel]. rewrite Hq, Hr. cbn [Z.eqb].
    destruct (@digit_char_spec n) as (H1 & H2); [lia|].
    exists (String (digit_char n) EmptyString). cbn [sall digits_val append].
    rewrite H1, H2. split; [reflexivity|]. split; [reflexivity|].
    split; [discriminate|lia].
  - cbn [digits_fuel].
    assert (Hd : 0 <= n mod 10 <= 9) by (pose proof (Z.mod_pos_bound n 10); lia).
    destruct (digit_char_spec Hd) as (H1 & H2).
    destruct (Z.eqb_spec (n / 10) 0) as [Hq|Hq].
    + exists (String (digit_char (n mod 10)) EmptyString). cbn [sall digits_val append].
      rewrite H1, H2. split; [reflexivity|]. split; [reflexivity|].
      split; [discriminate|]. pose proof (Z.div_mod n 10). lia.
    + destruct (IH (n / 10) (String (digit_char (n mod 10)) acc)) as (ds & Hds & Hall & Hne & Hv).
      { rewrite Nat2Z.inj_succ, Z.pow_succ_r in Hn by lia.
        split; [apply Z.div_pos; lia|].
        apply Z.div_lt_upper_bound; lia. }
      exists (ds ++ String (digit_char (n mod 10)) EmptyString)%string.
      split; [|split; [|split]].
      * change (digits_fuel (S fuel) (n / 10) (String (digit_char (n mod 10)) acc)
                = ((ds ++ String (digit_char (n mod 10)) EmptyString) ++ acc)%string).
        rewrite Hds, append_assoc. reflexivity.
      * rewrite sall_app, Hall. cbn [sall]. rewrite H1. reflexivity.
      * destruct ds; discriminate.
      * rewrite (digits_val_snoc _ Hd), Hv. pose proof (Z.div_mod n 10). lia.
Qed.

(** The digits of [n]: not empty, digits only, and read back as [n]. *)
Lemma digits_of_spec (n : Z) :
  0 <= n ->
  sall is_digit (digits_of n) = true /\ digits_of n <> EmptyString
  /\ digits_val 0 (digits_of n) = n.
Proof.
  intro Hn. unfold digits_of.
  destruct (@digits_fuel_spec (Z.to_nat (Z.log2 n)) n EmptyString) as (ds & -> & H).
  - split; [exact Hn|]. rewrite Nat2Z.inj_succ, Z2Nat.id by apply Z.log2_nonneg.
    destruct (Z.eq_dec n 0) as [->|Hne]; [reflexivity|].
    apply Z.log2_spec. lia.
  - rewrite append_nil_r. exact H.
Qed.

Lemma pad_digits_spec (n : nat) (v : Z) (acc : string) :
  exists ds, pad_digits n v acc = (ds ++ acc)%string
    /\ sall is_digit ds = true /\ String.length ds = n
    /\ digits_val 0 ds = v mod 10 ^ Z.of_nat n.
Proof.
  revert v acc; induction n as [|n IH]; intros v acc.
  - exists EmptyString. repeat split. cbn. rewrite Z.mod_1_r. reflexivity.
  - cbn [pad_digits].
    assert (Hd : 0 <= v mod 10 <= 9) by (pose proof (Z.mod_pos_bound v 10); lia).
    destruct (digit_char_spec Hd) as (H1 & H2).
    destruct (IH (v / 10) (String (digit_char (v mod 10)) acc)) as (ds & -> & Hall & Hlen & Hv).
    exists (ds ++ String (digit_char (v mod 10)) EmptyString)%string.
    split; [rewrite append_assoc; reflexivity|]. split; [|split].
    + rewrite sall_app, Hall. cbn [sall]. rewrite H1. reflexivity.
    + rewrite length_append. cbn [String.length]. lia.
    + rewrite (digits_val_snoc _ Hd), Hv.
      rewrite Nat2Z.inj_succ, Z.pow_succ_r by lia.
      rewrite (Z.rem_mul_r v 10 (10 ^ Z.of_nat n)) by lia. lia.
Qed.

Local Open Scope R_scope.

Lemma frac_nil : Spec.frac EmptyString = 0.
Proof. unfold Spec.frac. cbn. lra. Qed.

Lemma frac_cons (c : ascii) (s : string) :
  Spec.frac (String c s) = (IZR (digit_val c) + Spec.frac s) / 10.
Proof.
  unfold Spec.frac. cbn [digits_val String.length].
  rewrite digits_val_acc. change (10 * 0 + digit_val c)%Z with (digit_val c).
  rewrite plus_IZR, mult_IZR, <- pow_IZR. cbn [pow].
  pose proof (pow10_pos (String.length s)). field. lra.
Qed.

Lemma zero_char_val : forall c, is_char "0" c = true -> digit_val c = 0%Z.
Proof. by_cases_on_ascii. Qed.

(** Dropping the zeros at the end does not change the fraction. *)
Lemma frac_rstrip_zeros (s : string) :
  Spec.frac (rstrip (is_char "0") s) = Spec.frac s.
Proof.
  induction s as [|c s IH]; [reflexivity|]. cbn [rstrip].
  rewrite (frac_cons c s), <- IH.
  destruct (rstrip (is_char "0") s) as [|c' r] eqn:Er.
  - destruct (is_char "0" c) eqn:Ec.
    + rewrite (zero_char_val _ Ec), frac_nil. lra.
    + rewrite frac_cons. reflexivity.
  - rewrite frac_cons. reflexivity.
Qed.

Lemma sall_rstrip (p q : ascii -> bool) (s : string) :
  sall p s = true -> sall p (rstrip q s) = true.
Proof.
  induction s as [|c s IH]; [reflexivity|]. cbn [rstrip sall].
  intro H. apply andb_true_iff in H. destruct H as (Hc & Hs).
  specialize (IH Hs). destruct (rstrip q s) as [|c' r].
  - destruct (q c); cbn [sall]; rewrite ?Hc; reflexivity.
  - cbn [sall] in *. rewrite Hc, IH. reflexivity.
Qed.

End Digits.

Section Numerals.

Import Py.

Local Open Scope string_scope.

Lemma take_minus_digit : forall c, is_digit c = true ->
  forall s, take_minus (String c s) = (EmptyString, String c s).
Proof. by_cases_on_ascii. Qed.

Lemma take_sign_digit : forall c, is_digit c = true ->
  forall s, take_sign (String c s) = (false, String c s).
Proof. by_cases_on_ascii. Qed.

Lemma search_number_unfold (sep : ascii -> bool) (s : string) :
  search_number sep s
  = match match_number sep s with
    | Some m => Some m
    | None =>
        match s with
        | EmptyString => None
        | String _ s' => search_number sep s'
        end
    end.
Proof. destruct s; reflexivity. Qed.

(** The decimals of a numeral, behind their separator. *)
Local Abbreviation tail_of fp sep :=
  (match fp%string with EmptyString => EmptyString | _ => String sep fp end).

Lemma numeral_chars (neg : bool) (ip fp : string) (sep : ascii) :
  sall is_digit ip = true -> sall is_digit fp = true ->
  Spec.numeral_char sep = true ->
  sall Spec.numeral_char (Spec.numeral neg ip fp sep) = true.
Proof.
  intros Hip Hfp Hsep. unfold Spec.numeral. rewrite !sall_app.
  rewrite (@sall_impl _ _ ip digit_numeral Hip).
  pose proof (@sall_impl _ _ fp digit_numeral Hfp) as Hfp'.
  destruct neg, fp; cbn [sall] in *; rewrite ?Hsep, ?Hfp'; reflexivity.
Qed.

Lemma numeral_not_empty (neg : bool) (ip fp : string) (sep : ascii) :
  ip <> EmptyString -> Spec.numeral neg ip fp sep <> EmptyString.
Proof.
  intro Hip. unfold Spec.numeral. destruct neg; [discriminate|].
  destruct ip; [contradiction|discriminate].
Qed.

Lemma strip_numeral (s : string) :
  sall Spec.numeral_char s = true -> strip s = s.
Proof.
  intro Hc. unfold strip.
  rewrite (@lstrip_id Spec.numeral_char) by (try exact Hc; apply numeral_not_space).
  apply (@rstrip_id Spec.numeral_char); [apply numeral_not_space|exact Hc].
Qed.

Lemma clean_spaces_numeral (s : string) :
  sall Spec.numeral_char s = true -> ExportCsv.clean_spaces s = s.
Proof.
  intro Hc. unfold ExportCsv.clean_spaces, replace_char.
  rewrite (@smap_id Spec.numeral_char) by
    (try exact Hc; intros c H; rewrite (numeral_not_nbsp c H); reflexivity).
  rewrite (@collapse_spaces_id Spec.numeral_char) by (try exact Hc; apply numeral_not_space).
  apply strip_numeral, Hc.
Qed.

Lemma span_digits_tail (ip fp : string) (sep : ascii) :
  sall is_digit ip = true -> is_digit sep = false ->
  span is_digit (ip ++ tail_of fp sep) = (ip, tail_of fp sep).
Proof.
  intros Hip Hsep. apply span_app; [exact Hip|]. destruct fp; [exact I|exact Hsep].
Qed.

Lemma span_all (p : ascii -> bool) (s : string) :
  sall p s = true -> span p s = (s, EmptyString).
Proof.
  intro H. rewrite <- (append_nil_r s) at 1. apply span_app; [exact H|exact I].
Qed.

Lemma take_minus_numeral (neg : bool) (ip fp : string) (sep : ascii) :
  sall is_digit ip = true -> ip <> EmptyString ->
  take_minus (Spec.numeral neg ip fp sep)
  = ((if neg then "-" else EmptyString), ip ++ tail_of fp sep).
Proof.
  intros Hip Hne. unfold Spec.numeral. destruct neg; [reflexivity|].
  destruct ip as [|d ip']; [contradiction|].
  cbn [append sall] in *. apply andb_true_iff in Hip.
  apply take_minus_digit, Hip.
Qed.

Lemma take_sign_numeral (neg : bool) (ip fp : string) (sep : ascii) :
  sall is_digit ip = true -> ip <> EmptyString ->
  take_sign (Spec.numeral neg ip fp sep) = (neg, ip ++ tail_of fp sep).
Proof.
  intros Hip Hne. unfold Spec.numeral. destruct neg; [reflexivity|].
  destruct ip as [|d ip']; [contradiction|].
  cbn [append sall] in *. apply andb_true_iff in Hip.
  apply take_sign_digit, Hip.
Qed.

Lemma match_number_numeral (sep : ascii -> bool) (c : ascii) (neg : bool) (ip fp : string) :
  sall is_digit ip = true -> ip <> EmptyString -> sall is_digit fp = true ->
  sep c = true -> is_digit c = false ->
  match_number sep (Spec.numeral neg ip fp c) = Some (Spec.numeral neg ip fp c).
Proof.
  intros Hip Hne Hfp Hsep Hc. unfold match_number.
  rewrite (@take_minus_numeral neg ip fp c Hip Hne), (@span_digits_tail ip fp c Hip Hc).
  unfold Spec.numeral.
  destruct ip as [|d ip']; [contradiction|].
  destruct fp as [|f fp'].
  - rewrite (append_nil_r (String d ip')). reflexivity.
  - rewrite Hsep, (@span_all is_digit _ Hfp). reflexivity.
Qed.

Lemma replace_comma_numeral (neg : bool) (ip fp : string) :
  sall is_digit ip = true -> sall is_digit fp = true ->
  replace_char "," "." (Spec.numeral neg ip fp ",") = Spec.numeral neg ip fp ".".
Proof.
  intros Hip Hfp. unfold replace_char, Spec.numeral. rewrite !smap_append.
  rewrite (@smap_id is_digit _ ip digit_comma_to_dot Hip).
  destruct neg, fp as [|f fp']; cbn [smap append]; try reflexivity;
    cbn [sall] in Hfp; apply andb_true_iff in Hfp;
    destruct Hfp as (Hf & Hfp');
    rewrite (digit_comma_to_dot f Hf), (@smap_id is_digit _ fp' digit_comma_to_dot Hfp');
    reflexivity.
Qed.

Lemma py_float_numeral (neg : bool) (ip fp : string) :
  sall is_digit ip = true -> ip <> EmptyString -> sall is_digit fp = true ->
  py_float (Spec.numeral neg ip fp ".")
  = Some (if neg then - (IZR (digits_val 0 ip) + Spec.frac fp)
          else IZR (digits_val 0 ip) + Spec.frac fp)%R.
Proof.
  intros Hip Hne Hfp. unfold py_float.
  rewrite strip_numeral by (apply numeral_chars; auto).
  rewrite (@take_sign_numeral neg ip fp "." Hip Hne), (@span_digits_tail ip fp "." Hip eq_refl).
  destruct ip as [|d ip']; [contradiction|].
  destruct fp as [|f fp'].
  - reflexivity.
  - rewrite (@span_all is_digit _ Hfp). reflexivity.
Qed.

Lemma parse_percent_numeral (neg : bool) (ip fp : string) :
  sall is_digit ip = true -> ip <> EmptyString -> sall is_digit fp = true ->
  ExportCsv.parse_percent_str (Spec.numeral neg ip fp ",")
  = Some (if neg then - (IZR (digits_val 0 ip) + Spec.frac fp)
          else IZR (digits_val 0 ip) + Spec.frac fp)%R.
Proof.
  intros Hip Hne Hfp.
  assert (Hc : sall Spec.numeral_char (Spec.numeral neg ip fp ",") = true)
    by (apply numeral_chars; auto).
  unfold ExportCsv.parse_percent_str. rewrite (@clean_spaces_numeral _ Hc).
  rewrite (@remove_char_id Spec.numeral_char "%" _ numeral_not_percent Hc).
  unfold replace.
  rewrite (@replace_fuel_id Spec.numeral_char "p" _ _ _ _ numeral_not_p Hc).
  rewrite (@remove_char_id Spec.numeral_char "+" _ numeral_not_plus Hc).
  rewrite search_number_unfold.
  rewrite (@match_number_numeral ExportCsv.dot_or_comma "," neg ip fp Hip Hne Hfp eq_refl eq_refl).
  rewrite (@replace_comma_numeral neg ip fp Hip Hfp).
  apply py_float_numeral; assumption.
Qed.

Lemma search_aum_numeral (neg : bool) (ip fp : string) :
  sall is_digit ip = true -> ip <> EmptyString -> sall is_digit fp = true ->
  ExportCsv.search_aum (Spec.numeral neg ip fp ",")
  = Some (Spec.numeral false ip fp ",", EmptyString).
Proof.
  intros Hip Hne Hfp.
  assert (Hpos : ExportCsv.search_aum (Spec.numeral false ip fp ",")
                 = Some (Spec.numeral false ip fp ",", EmptyString)).
  { unfold Spec.numeral. cbn [append].
    destruct ip as [|d ip']; [contradiction|].
    cbn [append ExportCsv.search_aum sall] in *.
    apply andb_true_iff in Hip. destruct Hip as (Hd & Hip'). rewrite Hd.
    rewrite (@span_all ExportCsv.aum_char); [reflexivity|].
    rewrite sall_app, (@sall_impl _ _ ip' digit_aum Hip').
    destruct fp as [|f fp']; [reflexivity|]. cbn [sall andb].
    cbn [sall] in Hfp. apply andb_true_iff in Hfp. destruct Hfp as (Hf & Hfp').
    rewrite (digit_aum f Hf), (@sall_impl _ _ fp' digit_aum Hfp'). reflexivity. }
  destruct neg; [|exact Hpos].
  change (Spec.numeral true ip fp ",") with (String "-" (Spec.numeral false ip fp ",")).
  cbn [ExportCsv.search_aum]. exact Hpos.
Qed.

Lemma parse_aum_numeral (neg : bool) (ip fp : string) :
  sall is_digit ip = true -> ip <> EmptyString -> sall is_digit fp = true ->
  ExportCsv.parse_aum_meur_str (Spec.numeral neg ip fp ",")
  = Some (IZR (digits_val 0 ip) + Spec.frac fp)%R.
Proof.
  intros Hip Hne Hfp.
  assert (Hc : sall Spec.numeral_char (Spec.numeral neg ip fp ",") = true)
    by (apply numeral_chars; auto).
  assert (Hc' : sall Spec.numeral_char (Spec.numeral false ip fp ",") = true)
    by (apply numeral_chars; auto).
  unfold ExportCsv.parse_aum_meur_str. rewrite (@clean_spaces_numeral _ Hc).
  rewrite (@search_aum_numeral neg ip fp Hip Hne Hfp).
  rewrite (@remove_char_id Spec.numeral_char " " _ numeral_not_blank Hc').
  rewrite (@replace_comma_numeral false ip fp Hip Hfp).
  rewrite (@py_float_numeral false ip fp Hip Hne Hfp). reflexivity.
Qed.

Lemma rstrip_keep (q : ascii -> bool) (c : ascii) (s : string) :
  q c = false -> rstrip q (String c s) = String c (rstrip q s).
Proof. intro H. cbn [rstrip]. destruct (rstrip q s); rewrite ?H; reflexivity. Qed.

Lemma rstrip_app_keep (q : ascii -> bool) (s t : string) :
  rstrip q t <> EmptyString -> rstrip q (s ++ t) = s ++ rstrip q t.
Proof.
  intro H. rewrite rstrip_app. destruct (rstrip q t); [contradiction|reflexivity].
Qed.

Lemma rstrip_app_drop (q : ascii -> bool) (s t : string) :
  rstrip q t = EmptyString -> rstrip q (s ++ t) = rstrip q s.
Proof. intro H. rewrite rstrip_app, H. reflexivity. Qed.

Lemma digit_not_dot : forall c, is_digit c = true -> is_char "." c = false.
Proof. by_cases_on_ascii. Qed.

(** The text of [fmt_number] with at least one decimal asked for. *)
Lemma fmt_number_numeral (x : R) (n : nat) :
  (1 <= n)%nat ->
  exists ip fp,
    ExportCsv.fmt_number (Some x) n
    = Spec.numeral (if Rlt_dec x 0 then true else false) ip fp ","
    /\ sall is_digit ip = true /\ ip <> EmptyString /\ sall is_digit fp = true
    /\ (IZR (digits_val 0 ip) + Spec.frac fp
        = IZR (Z.abs (round_half_even (x * 10 ^ n))) / 10 ^ n)%R.
Proof.
  intro Hn. rewrite fmt_number_unfold.
  set (a := Z.abs (round_half_even (x * 10 ^ n))).
  set (sign := if Rlt_dec x 0 then "-" else EmptyString).
  assert (Ha : (0 <= a)%Z) by apply Z.abs_nonneg.
  assert (HP : (0 < 10 ^ Z.of_nat n)%Z) by (apply Z.pow_pos_nonneg; lia).
  destruct (@digits_of_spec (a / 10 ^ Z.of_nat n)%Z) as (Hip & Hne & Hv);
    [apply Z.div_pos; lia|].
  destruct (pad_digits_spec n (a mod 10 ^ Z.of_nat n) EmptyString)
    as (fp0 & Hpad & Hfp0 & Hlen & Hv0).
  rewrite append_nil_r in Hpad.
  set (ip := digits_of (a / 10 ^ Z.of_nat n)) in *.
  set (fp := rstrip (is_char "0") fp0).
  assert (Hfp : sall is_digit fp = true) by (apply sall_rstrip; exact Hfp0).
  exists ip, fp.
  split; [|split; [exact Hip|split; [exact Hne|split; [exact Hfp|]]]].
  - unfold fixed. fold ip. destruct n as [|n']; [lia|]. rewrite Hpad.
    assert (H1 : rstrip (is_char "0") (sign ++ ip ++ String "." fp0)
                 = sign ++ ip ++ String "." fp).
    { assert (E1 : rstrip (is_char "0") (String "." fp0) = String "." fp)
        by (apply rstrip_keep; reflexivity).
      assert (E2 : rstrip (is_char "0") (ip ++ String "." fp0) = ip ++ String "." fp).
      { rewrite rstrip_app_keep; rewrite E1; [reflexivity|discriminate]. }
      rewrite rstrip_app_keep; rewrite E2; [reflexivity|].
      destruct ip; [contradiction|discriminate]. }
    rewrite H1.
    assert (Hipdot : rstrip (is_char ".") ip = ip)
      by (apply (@rstrip_id is_digit); [apply digit_not_dot|exact Hip]).
    assert (Hfpdot : rstrip (is_char ".") fp = fp)
      by (apply (@rstrip_id is_digit); [apply digit_not_dot|exact Hfp]).
    assert (H2 : rstrip (is_char ".") (sign ++ ip ++ String "." fp)
                 = sign ++ ip ++ match fp with EmptyString => EmptyString | _ => String "." fp end).
    { destruct fp as [|f fp'] eqn:Efp.
      - assert (E2 : rstrip (is_char ".") (ip ++ String "." EmptyString) = ip).
        { rewrite rstrip_app_drop; [exact Hipdot|reflexivity]. }
        rewrite rstrip_app_keep; rewrite E2; [|exact Hne].
        rewrite (append_nil_r ip). reflexivity.
      - assert (Hk : rstrip (is_char ".") (String "." (String f fp')) = String "." (String f fp')).
        { change (rstrip (is_char ".") (String "." (String f fp')))
            with (match rstrip (is_char ".") (String f fp') with
                  | EmptyString => EmptyString
                  | r => String "." r
                  end).
          rewrite Hfpdot. reflexivity. }
        assert (E2 : rstrip (is_char ".") (ip ++ String "." (String f fp'))
                     = ip ++ String "." (String f fp')).
        { rewrite rstrip_app_keep; rewrite Hk; [reflexivity|discriminate]. }
        rewrite rstrip_app_keep; rewrite E2; [reflexivity|].
        destruct ip; [contradiction|discriminate]. }
    rewrite H2. unfold replace_char, Spec.numeral. rewrite !smap_append.
    rewrite (@smap_id is_digit _ ip digit_dot_to_comma Hip).
    assert (Hs : smap (fun c => if Ascii.eqb c "." then ","%char else c) sign = sign)
      by (unfold sign; destruct (Rlt_dec x 0); reflexivity).
    rewrite Hs. unfold sign. destruct (Rlt_dec x 0); f_equal; f_equal;
      (destruct fp as [|f fp']; [reflexivity|]; cbn [smap];
       change (Ascii.eqb "." ".") with true; cbv iota;
       cbn [sall] in Hfp; apply andb_true_iff in Hfp; destruct Hfp as (Hf & Hfp');
       rewrite (digit_dot_to_comma f Hf), (@smap_id is_digit _ fp' digit_dot_to_comma Hfp');
       reflexivity).
  - unfold fp. rewrite frac_rstrip_zeros. unfold Spec.frac.
    rewrite Hv, Hv0, Hlen, Z.mod_mod by lia.
    pose proof (Z.div_mod a (10 ^ Z.of_nat n)) as Hdm.
    assert (Hr : IZR a = (10 ^ n * IZR (a / 10 ^ Z.of_nat n)
                          + IZR (a mod 10 ^ Z.of_nat n))%R).
    { rewrite Hdm at 1 by lia. rewrite plus_IZR, mult_IZR, <- pow_IZR. reflexivity. }
    rewrite Hr. pose proof (pow10_pos n). field. lra.
Qed.

Lemma scaled_error (x : R) (n : nat) (z : Z) :
  (Rabs (IZR z - x * 10 ^ n) <= 1 / 2 -> Rabs (IZR z / 10 ^ n - x) <= 1 / 2 / 10 ^ n)%R.
Proof.
  intro H. pose proof (pow10_pos n) as HP.
  replace (IZR z / 10 ^ n - x)%R with ((IZR z - x * 10 ^ n) * / 10 ^ n)%R by (field; lra).
  rewrite Rabs_mult, (Rabs_pos_eq (/ 10 ^ n)) by (left; apply Rinv_0_lt_compat; exact HP).
  unfold Rdiv. apply Rmult_le_compat_r; [left; apply Rinv_0_lt_compat; exact HP|exact H].
Qed.

Lemma truthy_text (s : string) : s <> EmptyString -> truthy (PStr s) = true.
Proof. intro H. cbn [truthy]. destruct (String.eqb_spec s EmptyString); [contradiction|reflexivity]. Qed.

(** What each parser reads in the text of a number: the percent parser
    the number rounded, the size parser its absolute value. *)
Lemma parse_fmt_number (x : R) (n : nat) :
  (1 <= n)%nat ->
  ExportCsv.parse_percent (PStr (ExportCsv.fmt_number (Some x) n))
  = Ok (Some (IZR (round_half_even (x * 10 ^ n)) / 10 ^ n)%R)
  /\ ExportCsv.parse_aum_meur (PStr (ExportCsv.fmt_number (Some x) n))
     = Ok (Some (IZR (Z.abs (round_half_even (x * 10 ^ n))) / 10 ^ n)%R).
Proof.
  intro Hn. destruct (fmt_number_numeral x Hn) as (ip & fp & -> & Hip & Hne & Hfp & Hv).
  pose proof (@numeral_not_empty (if Rlt_dec x 0 then true else false) ip fp "," Hne) as Hn0.
  unfold ExportCsv.parse_percent, ExportCsv.parse_aum_meur.
  rewrite (truthy_text Hn0). cbn [negb].
  rewrite (@parse_percent_numeral _ ip fp Hip Hne Hfp),
    (@parse_aum_numeral _ ip fp Hip Hne Hfp), Hv.
  split; [|reflexivity]. do 2 f_equal.
  pose proof (pow10_pos n) as HP.
  destruct (round_half_even_sign (x * 10 ^ n)) as (Hneg & Hpos).
  destruct (Rlt_dec x 0) as [Hx|Hx].
  - assert (Hz : (round_half_even (x * 10 ^ n) <= 0)%Z) by (apply Hneg; nra).
    rewrite Z.abs_neq, opp_IZR by exact Hz. field. lra.
  - assert (Hz : (0 <= round_half_even (x * 10 ^ n))%Z) by (apply Hpos; nra).
    rewrite Z.abs_eq by exact Hz. reflexivity.
Qed.

(** C7, as the code has it.  At a precision of at least one decimal, the
    text [fmt_number] gives for a number is read back by the percent
    parser as a number within half a unit of the last decimal kept; the
    size parser reads it back within the same distance when the number is
    not negative. *)
Theorem fmt_parse_round_trip (x : R) (n : nat) :
  (1 <= n)%nat ->
  (exists y,
      ExportCsv.parse_percent (PStr (ExportCsv.fmt_number (Some x) n)) = Ok (Some y)
      /\ Rabs (y - x) <= 1 / 2 / 10 ^ n)%R
  /\ (0 <= x ->
      exists y,
        ExportCsv.parse_aum_meur (PStr (ExportCsv.fmt_number (Some x) n)) = Ok (Some y)
        /\ Rabs (y - x) <= 1 / 2 / 10 ^ n)%R.
Proof.
  intro Hn. destruct (parse_fmt_number x Hn) as (Hp & Ha).
  pose proof (scaled_error x n _ (round_half_even_near (x * 10 ^ n))) as Herr.
  split.
  - eexists. split; [exact Hp|exact Herr].
  - intro Hx. eexists. split; [exact Ha|].
    destruct (round_half_even_sign (x * 10 ^ n)) as (_ & Hpos).
    pose proof (pow10_pos n) as HP.
    rewrite Z.abs_eq by (apply Hpos; nra). exact Herr.
Qed.

End Numerals.

(** ** Every typed grid has its heat map *)

Section Encoding.

Import Py.

Local Open Scope string_scope.

Lemma int_body_digits (ds : string) (b : bool) (acc : Z) :
  sall is_digit ds = true -> ds <> EmptyString ->
  int_body b acc ds = Some (digits_val acc ds).
Proof.
  revert b acc; induction ds as [|c ds IH]; intros b acc Hd Hne; [contradiction|].
  cbn [sall] in Hd. apply andb_true_iff in Hd. destruct Hd as (Hc & Hds).
  cbn [int_body digits_val]. rewrite Hc.
  destruct ds as [|c' ds']; [reflexivity|].
  apply IH; [exact Hds|discriminate].
Qed.

Lemma digits_strip (ds : string) : sall is_digit ds = true -> strip ds = ds.
Proof.
  intro H. apply strip_numeral. exact (@sall_impl _ _ ds digit_numeral H).
Qed.

(** [int(str(z))] is [z]. *)
Lemma int_of_str_of_Z (z : Z) : int_of_str (str_of_Z z) = Some z.
Proof.
  unfold int_of_str, str_of_Z. destruct (Z.ltb_spec z 0) as [Hneg|Hpos].
  - destruct (@digits_of_spec (- z)%Z) as (Hd & Hne & Hv); [lia|].
    assert (Hs : strip (String "-" (digits_of (- z))) = String "-" (digits_of (- z))).
    { apply strip_numeral. cbn [sall].
      rewrite (@sall_impl _ _ _ digit_numeral Hd). reflexivity. }
    rewrite Hs. cbn [take_sign]. rewrite (@int_body_digits _ false 0 Hd Hne), Hv.
    cbn [option_map]. f_equal. lia.
  - destruct (@digits_of_spec z) as (Hd & Hne & Hv); [lia|].
    rewrite (@digits_strip _ Hd).
    destruct (digits_of z) as [|c ds] eqn:E; [contradiction|].
    assert (Hc : is_digit c = true).
    { cbn [sall] in Hd. apply andb_true_iff in Hd. apply Hd. }
    rewrite (take_sign_digit c Hc ds), (@int_body_digits _ false 0 Hd Hne), Hv.
    reflexivity.
Qed.

Lemma heatmap_of_grid (g : list Spec.ReturnPoint) :
  Spec.grid_of (Spec.heatmap_of g) g.
Proof.
  exists (map Spec.row_of g). split; [reflexivity|].
  induction g as [|p g IH]; cbn [map]; constructor; [|exact IH].
  eexists. split; [reflexivity|]. split; [|split; reflexivity].
  cbn. apply int_of_str_of_Z.
Qed.

End Encoding.

(** ** The properties at work on the sample data *)

Section Witnesses.

Import Py.

Local Open Scope string_scope.

Lemma compute_cagr_from_heatmap_witness :
  ExportCsv.compute_cagr_from_heatmap (PDict (Spec.heatmap_of Samples.flat_year)) = Some 0%R
  /\ Scrape.compute_cagr_from_heatmap (Some (Spec.heatmap_of Samples.flat_year)) = Some 0%R.
Proof.
  destruct (compute_cagr_from_heatmap_spec (heatmap_of_grid Samples.flat_year))
    as (_ & _ & _ & _ & _ & Hz).
  apply Hz; [reflexivity|]. unfold Samples.flat_year. cbn [map]. repeat constructor.
Defined.

Lemma compute_yearly_returns_witness :
  List.length (ExportCsv.compute_yearly_returns_from_heatmap
                 (PDict (Spec.heatmap_of Samples.two_years))) = 2%nat.
Proof.
  pose proof (compute_yearly_returns_spec (heatmap_of_grid Samples.two_years)) as H.
  cbv zeta in H. destruct H as (_ & Hlen & _). rewrite Hlen. reflexivity.
Defined.

Lemma write_projection_csv_few_instruments_witness :
  ExportCsv.write_projection_csv Samples.plain_helpers Samples.one_row 1 10000 (2 / 100) 0
  = Raise IndexError.
Proof.
  apply write_projection_csv_few_instruments. cbn [Samples.one_row List.length]. lia.
Defined.

Lemma sample_percent :
  Scrape.parse_percent_text (Scrape.as_text (get Samples.meta "max_return_text"))
  = Some 100%R.
Proof.
  change (Scrape.as_text (get Samples.meta "max_return_text")) with (Some "+100,00 %").
  unfold Scrape.parse_percent_text.
  replace (search_number (is_char ".")
             (replace_char "," "."
                (remove_char "+" (remove_char "%"
                   (remove_char " " (remove_char nbsp "+100,00 %"))))))
    with (Some (Spec.numeral false "100" "00" ".")) by (vm_compute; reflexivity).
  rewrite py_float_numeral; [|reflexivity|discriminate|reflexivity].
  f_equal. unfold Spec.frac.
  change (digits_val 0 "100") with 100%Z. change (digits_val 0 "00") with 0%Z.
  cbn [String.length pow]. lra.
Qed.

Lemma sample_date :
  Scrape.parse_french_date (Scrape.as_text (get Samples.meta "launch_date_text"))
  = Some (Date.mk_date 2020 3 12).
Proof. vm_compute. reflexivity. Qed.

Lemma sample_estimate :
  Scrape.compute_cagr_from_max_return Samples.today Samples.profile
  = Scrape.estimate Samples.today (Some 100%R) (Some (Date.mk_date 2020 3 12)).
Proof.
  rewrite <- sample_percent, <- sample_date. reflexivity.
Qed.

(** A fund launched on 12 March 2020 whose total return is 100, read on
    12 March 2021: the estimate is above 100.09, not 100 to within the
    six decimals kept. *)
Lemma one_year_doubling_off :
  exists c, Scrape.compute_cagr_from_max_return Samples.today Samples.profile = Some c
            /\ (9 / 100 < c - 100)%R
            /\ ~ (Rabs (c - 100) <= 1 / 1000000)%R.
Proof.
  rewrite sample_estimate.
  destruct (@estimate_one_year Samples.today (Date.mk_date 2020 3 12)
              eq_refl eq_refl eq_refl) as (c & Hc & Hb).
  exists c. split; [exact Hc|].
  assert (H : (9 / 100 < c - 100)%R).
  { destruct Hb as [(_ & Hb) | (Hd & _)]; [apply Hb|].
    vm_compute in Hd. discriminate Hd. }
  split; [exact H|].
  intro Ha. rewrite Rabs_pos_eq in Ha; lra.
Qed.


Lemma compound_cagr_zero (g : list Spec.ReturnPoint) :
  List.length g = 12%nat -> Forall (fun p => Spec.rp_return p = 0%R) g ->
  Spec.compound_cagr g = Some 0%R.
Proof.
  intros Hlen Hz. unfold Spec.compound_cagr. destruct g as [|p g']; [discriminate|].
  cbv zeta. rewrite (product_zero_returns Hz), Hlen.
  destruct (Rle_dec 1 0); [lra|].
  f_equal. replace (12 / INR 12)%R with 1%R by (simpl; lra).
  rewrite Rpower_1 by lra. lra.
Qed.

Lemma flat_year_scrape :
  Scrape.compute_cagr_from_heatmap (Some (Spec.heatmap_of Samples.flat_year)) = Some 0%R.
Proof.
  rewrite (scrape_cagr_spec (heatmap_of_grid Samples.flat_year)).
  apply compound_cagr_zero; [reflexivity|].
  unfold Samples.flat_year. cbn [map]. repeat constructor.
Qed.

Lemma cagr_priority_witness :
  get (Scrape.record_cagr Samples.today (Some (Spec.heatmap_of Samples.flat_year))
         Samples.profile) "cagr_depuis_creation_pct"
  = PFloat (py_round 0 6)
  /\ get (Scrape.record_cagr Samples.today None [])
         "cagr_depuis_creation_pct" = PNone.
Proof.
  split.
  - pose proof (cagr_priority Samples.today (Some (Spec.heatmap_of Samples.flat_year))
                  Samples.profile) as H.
    cbv zeta in H. destruct H as (H & _). apply (H 0%R flat_year_scrape).
  - pose proof (cagr_priority Samples.today None []) as H.
    cbv zeta in H. destruct H as (_ & _ & H & _).
    destruct (H eq_refl eq_refl) as (H1 & _). rewrite H1. reflexivity.
Defined.

Lemma classify_category_witness :
  ExportCsv.classify_category (Some "Euro Bond Hedged") None = "Hedge".
Proof.
  pose proof (classify_category_spec (Some "Euro Bond Hedged") None) as H.
  cbv zeta in H. destruct H as (_ & _ & _ & _ & H).
  apply (H "Euro Bond " ""); [reflexivity|].
  apply contains_false. vm_compute. reflexivity.
Defined.

(** C7 as stated fails on the size parser: the text of [-5] is read back
    as [5]. *)
Lemma aum_round_trip_negative :
  exists y,
    ExportCsv.parse_aum_meur (PStr (ExportCsv.fmt_number (Some (-5)%R) 3)) = Ok (Some y)
    /\ ~ (Rabs (y - (-5)) <= 1 / 2 / 10 ^ 3)%R.
Proof.
  destruct (@parse_fmt_number (-5)%R 3) as (_ & Ha); [lia|].
  eexists. split; [exact Ha|].
  replace (-5 * 10 ^ 3)%R with (IZR (-5000)) by (simpl; lra).
  rewrite round_half_even_IZR. change (Z.abs (-5000)) with 5000%Z.
  intro H. simpl in H. unfold Rabs in H.
  destruct (Rcase_abs (5000 / (10 * (10 * (10 * 1))) - -5)) as [Hc|Hc]; lra.
Qed.

(** Without a decimal the trim of the zeros reaches the integer part. *)
Lemma fmt_number_no_decimal : ExportCsv.fmt_number (Some 100%R) 0 = "1".
Proof.
  rewrite fmt_number_unfold.
  replace (100 * 10 ^ 0)%R with (IZR 100) by (simpl; lra).
  rewrite round_half_even_IZR.
  destruct (Rlt_dec 100 0) as [H|_]; [lra|].
  vm_compute. reflexivity.
Qed.

Lemma fmt_parse_round_trip_witness :
  (exists y,
      ExportCsv.parse_percent (PStr (ExportCsv.fmt_number (Some (25 / 2)%R) 2)) = Ok (Some y)
      /\ (Rabs (y - 25 / 2) <= 1 / 2 / 10 ^ 2)%R)
  /\ ((0 <= 25 / 2)%R ->
      exists y,
        ExportCsv.parse_aum_meur (PStr (ExportCsv.fmt_number (Some (25 / 2)%R) 2))
        = Ok (Some y)
        /\ (Rabs (y - 25 / 2) <= 1 / 2 / 10 ^ 2)%R).
Proof. apply (@fmt_parse_round_trip (25 / 2)%R 2). lia. Defined.




Lemma rate_block_absent_is_zero_witness :
  exists m,
    ExportCsv.write_projection_csv Samples.plain_helpers Samples.five_rows 30
      10000 (2 / 100) 0 = Ok m
    /\ Spec.cell m 8 1 = "=0" /\ Spec.cell m 9 1 = "=0".
Proof.
  destruct (@rate_block_absent_is_zero Samples.plain_helpers 30 10000%R (2 / 100)%R 0%R
              Samples.five_rows) as (_ & H & _).
  destruct H as (m & Hm & Hc); [cbn [Samples.five_rows List.length]; lia|].
  exists m. split; [exact Hm|].
  destruct (Hc 0%nat _ eq_refl) as (H8 & H9).
  split; [apply H8|apply H9]; reflexivity.
Defined.

End Witnesses.

(** ** The projection sheet, cell by cell *)

Section SheetSize.

Import Py.

Lemma run_length (width : nat) (ws : list ExportCsv.write) (m m' : ExportCsv.matrix) :
  Spec.well_formed width m -> Forall (fun w => (Spec.column w < width)%nat) ws ->
  ExportCsv.run width ws m = Ok m' ->
  List.length m' = Nat.max (List.length m) (Spec.height ws).
Proof.
  revert m; induction ws as [|[[r0 c0] v0] ws IH]; intros m Hwf Hcols Hrun.
  - unfold ExportCsv.run in Hrun. simpl in Hrun. injection Hrun as <-. cbn [Spec.height]. rewrite Nat.max_0_r. reflexivity.
  - inversion Hcols as [|? ? Hc Hrest]; subst. unfold Spec.column in Hc; simpl in Hc.
    rewrite run_cons in Hrun.
    destruct (@set_cell_ok width m r0 c0 v0 Hwf Hc) as (m1 & E1 & Hwf1 & Hlen1 & _).
    rewrite E1 in Hrun. rewrite (IH m1 Hwf1 Hrest Hrun), Hlen1.
    cbn [Spec.height]. unfold Spec.row_index. cbn [fst]. lia.
Qed.

Lemma height_spec (ws : list ExportCsv.write) (h : nat) :
  (forall w, In w ws -> (S (Spec.row_index w) <= h)%nat) ->
  (exists w, In w ws /\ S (Spec.row_index w) = h) ->
  Spec.height ws = h.
Proof.
  intros Hle (w & Hin & Hw).
  assert (Hup : (Spec.height ws <= h)%nat).
  { clear Hin. induction ws as [|x ws IH]; cbn [Spec.height]; [lia|].
    pose proof (Hle x (or_introl eq_refl)).
    assert (Spec.height ws <= h)%nat by (apply IH; intros y Hy; apply Hle; right; exact Hy).
    apply Nat.max_lub; assumption. }
  assert (Hlow : (h <= Spec.height ws)%nat).
  { clear Hle Hup. induction ws as [|x ws IH]; [destruct Hin|].
    cbn [Spec.height]. destruct Hin as [->|Hin]; [rewrite Hw; apply Nat.le_max_l|].
    specialize (IH Hin). etransitivity; [exact IH|apply Nat.le_max_r]. }
  lia.
Qed.

End SheetSize.

Section SheetLayout.

Import Py.

Local Open Scope string_scope.

Variable E : ExportCsv.helpers.
Variable etfs : list dict.
Variable years : nat.
Variables capital_initial inflation dca_mensuel : R.

Local Abbreviation N := (List.length etfs).
Local Abbreviation writes :=
  (ExportCsv.projection_writes E etfs years capital_initial inflation dca_mensuel).

Ltac rows_unfold :=
  unfold ExportCsv.summary_header, ExportCsv.no_cost_final_row, ExportCsv.no_cost_start,
    ExportCsv.no_cost_header, ExportCsv.net_final_row, ExportCsv.start_data_row,
    ExportCsv.projection_header in *.

Lemma projection_rows (w : ExportCsv.write) :
  In w writes -> (Spec.row_index w <= ExportCsv.summary_header years + N)%nat.
Proof.
  intro H. unfold ExportCsv.projection_writes in H. rewrite !in_app_iff in H.
  destruct H as [H|[H|[H|[H|[H|[H|[H|[H|[H|H]]]]]]]]].
  - apply parameters_shape in H. rows_unfold. lia.
  - apply rate_shape in H. rows_unfold. lia.
  - destruct H as [<-|[]]. rows_unfold. cbv [Spec.row_index fst]. lia.
  - apply isin_shape in H. rows_unfold. lia.
  - apply growth_shape in H. rows_unfold. lia.
  - destruct H as [<-|[]]. rows_unfold. cbv [Spec.row_index fst]. lia.
  - apply isin_shape in H. rows_unfold. lia.
  - apply growth_shape in H. rows_unfold. lia.
  - cbn [In] in H. rows_unfold.
    repeat (destruct H as [<-|H]; [cbv [Spec.row_index fst]; lia|]). destruct H.
  - apply summary_shape in H. lia.
Qed.

Lemma projection_height : (1 <= N)%nat -> Spec.height writes = (ExportCsv.summary_header years + N + 1)%nat.
Proof.
  intro HN. apply height_spec.
  - intros w Hw. apply projection_rows in Hw. lia.
  - destruct (nth_error etfs (N - 1)) as [row|] eqn:Erow;
      [|apply nth_error_None in Erow; lia].
    exists ((ExportCsv.summary_header years + (1 + (N - 1)))%nat, 0%nat,
            ExportCsv.field_text E row "ISIN").
    split; [|unfold Spec.row_index; cbn [fst]; lia].
    unfold ExportCsv.projection_writes. rewrite !in_app_iff. do 9 right.
    apply in_flat_map. exists ((1 + (N - 1))%nat, row).
    split; [apply enumerate_nth, Erow|]. left. reflexivity.
Qed.

Lemma rate_column_last (j : nat) (row : dict) (r : nat) :
  nth_error etfs j = Some row ->
  Spec.last_write (flat_map (ExportCsv.rate_cells E) (ExportCsv.enumerate 2 etfs)) r (j + 1)
  = Spec.last_write (ExportCsv.rate_cells E ((2 + j)%nat, row)) r (j + 1).
Proof.
  intro Hrow. apply (@last_write_flat_map_key _ fst).
  - apply enumerate_nth, Hrow.
  - rewrite enumerate_keys. apply seq_NoDup.
  - intros [idx row'] Hin Hne. apply enumerate_in in Hin. destruct Hin as (Hidx & _).
    cbn [fst] in Hne. apply last_write_none. intros w Hw. right.
    unfold ExportCsv.rate_cells in Hw. cbn [In] in Hw.
    repeat (destruct Hw as [<-|Hw]; [unfold Spec.column; cbn [fst snd]; lia|]).
    destruct Hw.
Qed.

Lemma identity_last (j : nat) (row : dict) :
  nth_error etfs j = Some row ->
  Spec.last_write writes 6 (j + 1) = Some (ExportCsv.field_text E row "Nom ETF")
  /\ Spec.last_write writes 7 (j + 1) = Some (ExportCsv.field_text E row "ISIN")
  /\ Spec.last_write writes 10 (j + 1)
     = Some ("=(1+" ++ ExportCsv.excel_col_name (2 + j) ++ "9)*(1-"
                    ++ ExportCsv.excel_col_name (2 + j) ++ "10)/(1+$B$3)-1").
Proof.
  intro Hrow. unfold ExportCsv.projection_writes.
  repeat split; apply last_write_skip; rewrite last_write_app, last_write_none;
    try (intros w Hw; apply growth_rows in Hw; left; lia);
    rewrite (@rate_column_last j row _ Hrow); unfold ExportCsv.rate_cells;
    replace (2 + j - 1)%nat with (j + 1)%nat by lia;
    cbn [Spec.last_write Spec.targets snd Nat.eqb andb];
    rewrite !Nat.eqb_refl; reflexivity.
Qed.

Lemma isin_cells_last (header j : nat) (row : dict) :
  nth_error etfs j = Some row ->
  Spec.last_write (map (ExportCsv.isin_cell E header) (ExportCsv.enumerate 2 etfs))
    header (j + 1)
  = Some (ExportCsv.field_text E row "ISIN").
Proof.
  intro Hrow. rewrite map_as_flat_map.
  rewrite (@last_write_flat_map_key _ fst _ _ ((2 + j)%nat, row)).
  - cbn [Spec.last_write Spec.targets ExportCsv.isin_cell snd].
    replace (2 + j - 1)%nat with (j + 1)%nat by lia.
    rewrite !Nat.eqb_refl. reflexivity.
  - apply enumerate_nth, Hrow.
  - rewrite enumerate_keys. apply seq_NoDup.
  - intros [idx row'] Hin Hne. apply enumerate_in in Hin. destruct Hin as (Hidx & _).
    cbn [fst] in Hne. apply last_write_none. intros w [<-|[]]. right.
    unfold Spec.column. cbn [ExportCsv.isin_cell fst snd]. lia.
Qed.

Lemma headers_last (j : nat) (row : dict) :
  nth_error etfs j = Some row ->
  Spec.last_write writes ExportCsv.projection_header (j + 1)
  = Some (ExportCsv.field_text E row "ISIN")
  /\ Spec.last_write writes (ExportCsv.no_cost_header years) (j + 1)
     = Some (ExportCsv.field_text E row "ISIN").
Proof.
  intro Hrow. unfold ExportCsv.projection_writes. split.
  - do 3 apply last_write_skip. rewrite last_write_app, last_write_none.
    + apply isin_cells_last, Hrow.
    + intros w Hw. left. apply in_app_iff in Hw. destruct Hw as [Hw|Hw].
      * apply growth_shape in Hw. rows_unfold. lia.
      * apply no_cost_rows in Hw. rows_unfold. lia.
  - do 6 apply last_write_skip. rewrite last_write_app, last_write_none.
    + apply isin_cells_last, Hrow.
    + intros w Hw. left. apply in_app_iff in Hw. destruct Hw as [Hw|Hw].
      * apply growth_shape in Hw. rows_unfold. lia.
      * apply summary_rows in Hw. rows_unfold. lia.
Qed.

Lemma summary_last (j : nat) (row : dict) (c : nat) :
  nth_error etfs j = Some row ->
  Spec.last_write writes (ExportCsv.summary_header years + (1 + j)) c
  = Spec.last_write
      (ExportCsv.summary_cells E (ExportCsv.summary_header years)
         (ExportCsv.net_final_row years) (ExportCsv.no_cost_final_row years)
         ((1 + j)%nat, row))
      (ExportCsv.summary_header years + (1 + j)) c.
Proof.
  intro Hrow. unfold ExportCsv.projection_writes.
  rewrite !last_write_app.
  rewrite (@last_write_flat_map_key _ fst _ _ ((1 + j)%nat, row)).
  - destruct (Spec.last_write _ _ c) eqn:Es; [reflexivity|].
    rewrite !last_write_none; [reflexivity| | | | | | | | |];
      intros w Hw; left.
    + apply parameters_shape in Hw. rows_unfold. lia.
    + apply rate_shape in Hw. rows_unfold. lia.
    + destruct Hw as [<-|[]]. rows_unfold. cbv [Spec.row_index fst]. lia.
    + apply isin_shape in Hw. rows_unfold. lia.
    + apply growth_shape in Hw. rows_unfold. lia.
    + destruct Hw as [<-|[]]. rows_unfold. cbv [Spec.row_index fst]. lia.
    + apply isin_shape in Hw. rows_unfold. lia.
    + apply growth_shape in Hw. rows_unfold. lia.
    + cbn [In] in Hw. rows_unfold.
      repeat (destruct Hw as [<-|Hw]; [cbv [Spec.row_index fst]; lia|]). destruct Hw.
  - apply enumerate_nth, Hrow.
  - rewrite enumerate_keys. apply seq_NoDup.
  - intros [i row'] Hin Hne. apply enumerate_in in Hin. destruct Hin as (Hi & _).
    cbn [fst] in Hne. apply last_write_none. intros w Hw. left.
    unfold ExportCsv.summary_cells in Hw. cbn [In] in Hw.
    repeat (destruct Hw as [<-|Hw]; [unfold Spec.row_index; cbn [fst snd]; lia|]).
    destruct Hw.
Qed.

Lemma parameters_last :
  Spec.last_write writes 1 1 = Some (ExportCsv.fmt_number (Some capital_initial) 2)
  /\ Spec.last_write writes 2 1 = Some (ExportCsv.fmt_number (Some inflation) 6)
  /\ Spec.last_write writes 3 1 = Some (ExportCsv.fmt_number (Some dca_mensuel) 2)
  /\ Spec.last_write writes 4 1 = Some (str_of_nat years).
Proof.
  unfold ExportCsv.projection_writes.
  repeat split; rewrite last_write_app, last_write_none;
    try (unfold ExportCsv.parameters_block;
         cbn [Spec.last_write Spec.targets snd Nat.eqb andb]; reflexivity);
    intros w Hw; left; apply in_app_iff in Hw; destruct Hw as [Hw|Hw];
    try (apply rate_shape in Hw; lia); apply growth_rows in Hw; lia.
Qed.

Lemma labels_last (y : nat) :
  (y <= years)%nat ->
  Spec.last_write writes (ExportCsv.start_data_row + y) 0 = Some (str_of_nat y)
  /\ Spec.last_write writes (ExportCsv.no_cost_start years + y) 0 = Some (str_of_nat y).
Proof.
  intro Hy. unfold ExportCsv.projection_writes. split.
  - do 4 apply last_write_skip. rewrite last_write_app, last_write_none.
    + apply growth_label_last, Hy.
    + intros w Hw. apply no_cost_rows in Hw. left. rows_unfold. lia.
  - do 7 apply last_write_skip. rewrite last_write_app, last_write_none.
    + apply growth_label_last, Hy.
    + intros w Hw. apply summary_rows in Hw. left. rows_unfold. lia.
Qed.

(** X1. With five instruments or more the projection sheet is a
    rectangle: [2 * years + 21] rows plus one per instrument, each of one
    cell plus one per instrument. *)
Theorem write_projection_csv_size :
  (5 <= N)%nat ->
  exists m,
    ExportCsv.write_projection_csv E etfs years capital_initial inflation dca_mensuel = Ok m
    /\ List.length m = (2 * years + 21 + N)%nat
    /\ Forall (fun row => List.length row = (1 + N)%nat) m.
Proof.
  intro HN.
  destruct (projection_run E etfs years capital_initial inflation dca_mensuel HN)
    as (m & Hm & Hwf & _).
  exists m. split; [exact Hm|]. split; [|exact Hwf].
  assert (Hcols : Forall (fun w => (Spec.column w < 1 + N)%nat) writes).
  { apply Forall_forall. intros w Hw. apply projection_shape in Hw; [|lia]. lia. }
  assert (Hrun : ExportCsv.run (1 + N) writes [] = Ok m).
  { unfold ExportCsv.write_projection_csv in Hm.
    destruct etfs; [simpl in HN; lia|exact Hm]. }
  rewrite (run_length (Forall_nil _) Hcols Hrun), projection_height by lia.
  rows_unfold. cbn [List.length]. lia.
Qed.

(** X2. With five instruments or more the instruments keep the order of
    the list everywhere on the sheet: instrument [j] has its name and ISIN
    in column [j + 1] of the rate block, its ISIN in the same column of
    both growth headers, and its ISIN and name in row [j] of the summary
    block. *)
Theorem write_projection_csv_columns :
  (5 <= N)%nat ->
  exists m,
    ExportCsv.write_projection_csv E etfs years capital_initial inflation dca_mensuel = Ok m
    /\ forall j row, nth_error etfs j = Some row ->
         Spec.cell m 6 (j + 1) = ExportCsv.field_text E row "Nom ETF"
         /\ Spec.cell m 7 (j + 1) = ExportCsv.field_text E row "ISIN"
         /\ Spec.cell m ExportCsv.projection_header (j + 1) = ExportCsv.field_text E row "ISIN"
         /\ Spec.cell m (ExportCsv.no_cost_header years) (j + 1)
            = ExportCsv.field_text E row "ISIN"
         /\ Spec.cell m (ExportCsv.summary_header years + 1 + j) 0
            = ExportCsv.field_text E row "ISIN"
         /\ Spec.cell m (ExportCsv.summary_header years + 1 + j) 1
            = ExportCsv.field_text E row "Nom ETF".
Proof.
  intro HN.
  destruct (projection_run E etfs years capital_initial inflation dca_mensuel HN)
    as (m & Hm & _ & Hcell).
  exists m. split; [exact Hm|]. intros j row Hrow.
  destruct (@identity_last j row Hrow) as (H6 & H7 & _).
  destruct (@headers_last j row Hrow) as (H12 & H16).
  replace (ExportCsv.summary_header years + 1 + j)%nat
    with (ExportCsv.summary_header years + (1 + j))%nat by lia.
  rewrite !Hcell, H6, H7, H12, H16, !(@summary_last j row _ Hrow).
  unfold ExportCsv.summary_cells.
  cbn [Spec.last_write Spec.targets snd Nat.eqb andb].
  rewrite !Nat.eqb_refl. repeat split; reflexivity.
Qed.

(** X3. With five instruments or more the parameter cells B2, B3, B4 and
    B5 hold the initial capital, the inflation, the monthly contribution
    and the horizon, and the net real rate of instrument [j], in row 11 of
    its column, is the formula
    [(1 + gross) * (1 - fees) / (1 + inflation) - 1] over the two rate
    cells above it and the inflation cell. *)
Theorem write_projection_csv_net_rate :
  (5 <= N)%nat ->
  exists m,
    ExportCsv.write_projection_csv E etfs years capital_initial inflation dca_mensuel = Ok m
    /\ Spec.cell m 1 1 = ExportCsv.fmt_number (Some capital_initial) 2
    /\ Spec.cell m 2 1 = ExportCsv.fmt_number (Some inflation) 6
    /\ Spec.cell m 3 1 = ExportCsv.fmt_number (Some dca_mensuel) 2
    /\ Spec.cell m 4 1 = str_of_nat years
    /\ forall j, (j < N)%nat ->
         Spec.cell m 10 (j + 1)
         = "=(1+" ++ Spec.address 8 (j + 1) ++ ")*(1-" ++ Spec.address 9 (j + 1)
                  ++ ")/(1+$B$3)-1".
Proof.
  intro HN.
  destruct (projection_run E etfs years capital_initial inflation dca_mensuel HN)
    as (m & Hm & _ & Hcell).
  destruct parameters_last as (H1 & H2 & H3 & H4).
  exists m. split; [exact Hm|]. rewrite !Hcell, H1, H2, H3, H4.
  do 4 (split; [reflexivity|]).
  intros j Hj. destruct (nth_error etfs j) as [row|] eqn:Erow;
    [|apply nth_error_None in Erow; lia].
  destruct (@identity_last j row Erow) as (_ & _ & H10). rewrite Hcell, H10.
  unfold Spec.address. replace (j + 1 + 1)%nat with (2 + j)%nat by lia.
  change (str_of_nat (8 + 1)) with "9". change (str_of_nat (9 + 1)) with "10".
  rewrite !append_assoc. reflexivity.
Qed.

(** X4. With five instruments or more the summary row of instrument [j]
    reads the last row of its column in the fee-adjusted block and in the
    fee-free block, then their difference and the difference over the
    fee-free capital. *)
Theorem write_projection_csv_summary :
  (5 <= N)%nat ->
  exists m,
    ExportCsv.write_projection_csv E etfs years capital_initial inflation dca_mensuel = Ok m
    /\ forall j, (j < N)%nat ->
         let r := (ExportCsv.summary_header years + 1 + j)%nat in
         Spec.cell m r 2
         = "=" ++ Spec.address (ExportCsv.start_data_row + years) (j + 1)
         /\ Spec.cell m r 3
            = "=" ++ Spec.address (ExportCsv.no_cost_start years + years) (j + 1)
         /\ Spec.cell m r 4 = "=" ++ Spec.address r 3 ++ "-" ++ Spec.address r 2
         /\ Spec.cell m r 5 = "=" ++ Spec.address r 4 ++ "/" ++ Spec.address r 3.
Proof.
  intro HN.
  destruct (projection_run E etfs years capital_initial inflation dca_mensuel HN)
    as (m & Hm & _ & Hcell).
  exists m. split; [exact Hm|]. intros j Hj r. subst r.
  destruct (nth_error etfs j) as [row|] eqn:Erow;
    [|apply nth_error_None in Erow; lia].
  replace (ExportCsv.summary_header years + 1 + j)%nat
    with (ExportCsv.summary_header years + (1 + j))%nat by lia.
  rewrite !Hcell, !(@summary_last j row _ Erow).
  unfold ExportCsv.summary_cells.
  cbn [Spec.last_write Spec.targets snd Nat.eqb andb].
  rewrite !Nat.eqb_refl. unfold Spec.address.
  replace (j + 1 + 1)%nat with (1 + j + 1)%nat by lia.
  change (ExportCsv.excel_col_name (2 + 1)) with "C".
  change (ExportCsv.excel_col_name (3 + 1)) with "D".
  change (ExportCsv.excel_col_name (4 + 1)) with "E".
  fold (ExportCsv.net_final_row years). fold (ExportCsv.no_cost_final_row years).
  repeat split; cbn [append]; rewrite ?append_assoc; reflexivity.
Qed.

(** X5. With five instruments or more each growth block has one row per
    year from [0] to [years], labelled with the year in the first column;
    in the column of instrument [j] year [0] refers to the initial capital
    and every later year compounds the cell above with the rate of the
    column (row 11 in the fee-adjusted block, row 9 in the fee-free one)
    and adds twelve monthly contributions. *)
Theorem write_projection_csv_growth :
  (5 <= N)%nat ->
  exists m,
    ExportCsv.write_projection_csv E etfs years capital_initial inflation dca_mensuel = Ok m
    /\ forall y, (y <= years)%nat ->
         Spec.cell m (ExportCsv.start_data_row + y) 0 = str_of_nat y
         /\ Spec.cell m (ExportCsv.no_cost_start years + y) 0 = str_of_nat y
         /\ forall j, (j < N)%nat ->
              Spec.cell m (ExportCsv.start_data_row + y) (j + 1)
              = (if (y =? 0)%nat then "=$B$2"
                 else "=" ++ Spec.address (ExportCsv.start_data_row + y - 1) (j + 1)
                          ++ "*(1+" ++ ExportCsv.excel_col_name (j + 1 + 1)
                          ++ "$11)+$B$4*12")
              /\ Spec.cell m (ExportCsv.no_cost_start years + y) (j + 1)
                 = (if (y =? 0)%nat then "=$B$2"
                    else "=" ++ Spec.address (ExportCsv.no_cost_start years + y - 1) (j + 1)
                             ++ "*(1+" ++ ExportCsv.excel_col_name (j + 1 + 1)
                             ++ "$9)+$B$4*12").
Proof.
  intro HN.
  destruct (projection_run E etfs years capital_initial inflation dca_mensuel HN)
    as (m & Hm & _ & Hcell).
  exists m. split; [exact Hm|]. intros y Hy.
  destruct (@labels_last y Hy) as (Ha & Hb). rewrite !Hcell, Ha, Hb.
  do 2 (split; [reflexivity|]). intros j Hj. rewrite !Hcell.
  rewrite (fee_adjusted_last E etfs capital_initial inflation dca_mensuel Hy Hj).
  rewrite (fee_free_last E etfs capital_initial inflation dca_mensuel Hy Hj).
  rewrite !growth_cell_formula. split; reflexivity.
Qed.

End SheetLayout.

(** ** Column letters *)

Section ColumnNames.

Import Py.

Local Open Scope string_scope.

Lemma excel_col_loop_app (fuel n : nat) (acc : string) :
  ExportCsv.excel_col_loop fuel n acc
  = ExportCsv.excel_col_loop fuel n EmptyString ++ acc.
Proof.
  revert n acc; induction fuel as [|fuel IH]; intros n acc; [reflexivity|].
  cbn [ExportCsv.excel_col_loop]. destruct (n =? 0)%nat; [reflexivity|].
  rewrite IH. rewrite (IH _ (String _ EmptyString)).
  rewrite append_assoc. reflexivity.
Qed.

Lemma excel_col_loop_fuel (fuel fuel' n : nat) (acc : string) :
  (n <= fuel)%nat -> (n <= fuel')%nat ->
  ExportCsv.excel_col_loop fuel n acc = ExportCsv.excel_col_loop fuel' n acc.
Proof.
  revert fuel' n acc; induction fuel as [|fuel IH]; intros fuel' n acc H H'.
  - assert (n = 0)%nat by lia. subst n. destruct fuel'; reflexivity.
  - destruct fuel' as [|fuel'].
    + assert (n = 0)%nat by lia. subst n. reflexivity.
    + cbn [ExportCsv.excel_col_loop]. destruct (Nat.eqb_spec n 0); [reflexivity|].
      assert ((n - 1) / 26 < n)%nat.
      { apply Nat.le_lt_trans with (n - 1)%nat; [apply Nat.Div0.div_le_upper_bound; lia|lia]. }
      apply IH; lia.
Qed.

Lemma excel_col_loop_decode (fuel n : nat) (acc : string) :
  (n <= fuel)%nat ->
  Spec.col_index (ExportCsv.excel_col_loop fuel n acc) = Spec.col_index_from n acc.
Proof.
  revert n acc; induction fuel as [|fuel IH]; intros n acc H.
  - assert (n = 0)%nat by lia. subst n. reflexivity.
  - cbn [ExportCsv.excel_col_loop]. destruct (Nat.eqb_spec n 0) as [->|Hn]; [reflexivity|].
    assert (Hq : ((n - 1) / 26 < n)%nat).
    { apply Nat.le_lt_trans with (n - 1)%nat; [apply Nat.Div0.div_le_upper_bound; lia|lia]. }
    rewrite IH by lia. cbn [Spec.col_index_from]. unfold code.
    pose proof (Nat.mod_upper_bound (n - 1) 26). 
    rewrite nat_ascii_embedding by lia.
    f_equal. pose proof (Nat.div_mod_eq (n - 1) 26). lia.
Qed.

Lemma excel_col_loop_capital (fuel n : nat) (acc : string) :
  sall Spec.is_capital acc = true -> sall Spec.is_capital (ExportCsv.excel_col_loop fuel n acc) = true.
Proof.
  revert n acc; induction fuel as [|fuel IH]; intros n acc H; [exact H|].
  cbn [ExportCsv.excel_col_loop]. destruct (n =? 0)%nat; [exact H|].
  apply IH. cbn [sall]. rewrite H, andb_true_r. unfold Spec.is_capital, code.
  pose proof (Nat.mod_upper_bound (n - 1) 26).
  rewrite nat_ascii_embedding by lia.
  apply andb_true_iff. split; apply Nat.leb_le; lia.
Qed.

(** X6. The column letters are a numbering in base 26 without a zero
    digit: the name of the column after [n] is the name of [n / 26]
    followed by letter number [n mod 26] of the alphabet, no column has
    the empty name of index 0, every character is a capital letter, and
    reading the letters back gives the index, so that two columns never
    share a name. *)
Theorem excel_col_name_spec (n : nat) :
  ExportCsv.excel_col_name 0 = EmptyString
  /\ ExportCsv.excel_col_name (S n)
     = ExportCsv.excel_col_name (n / 26)
       ++ String (ascii_of_nat (65 + n mod 26)) EmptyString
  /\ sall Spec.is_capital (ExportCsv.excel_col_name n) = true
  /\ Spec.col_index (ExportCsv.excel_col_name n) = n
  /\ forall n', ExportCsv.excel_col_name n' = ExportCsv.excel_col_name n -> n' = n.
Proof.
  split; [reflexivity|]. split; [|split; [|split]].
  - unfold ExportCsv.excel_col_name. cbn [ExportCsv.excel_col_loop Nat.eqb].
    replace (S n - 1)%nat with n by lia.
    rewrite excel_col_loop_app. f_equal.
    assert (n / 26 <= n)%nat by (apply Nat.Div0.div_le_upper_bound; lia).
    apply excel_col_loop_fuel; lia.
  - apply excel_col_loop_capital. reflexivity.
  - unfold ExportCsv.excel_col_name. rewrite excel_col_loop_decode by lia. reflexivity.
  - intros n' H.
    assert (H' : Spec.col_index (ExportCsv.excel_col_name n') = Spec.col_index (ExportCsv.excel_col_name n))
      by (rewrite H; reflexivity).
    unfold ExportCsv.excel_col_name in H'. rewrite !excel_col_loop_decode in H' by lia.
    exact H'.
Qed.

End ColumnNames.

(** ** Whole numbers *)

Section WholeNumbers.

Import Py.

Local Open Scope string_scope.

Lemma pad_digits_zero (n : nat) (acc : string) :
  exists zs, pad_digits n 0 acc = zs ++ acc /\ sall (is_char "0") zs = true.
Proof.
  revert acc; induction n as [|n IH]; intro acc.
  - exists EmptyString. split; reflexivity.
  - cbn [pad_digits]. change (0 / 10)%Z with 0%Z. change (digit_char (0 mod 10)) with "0"%char.
    destruct (IH (String "0" acc)) as (zs & -> & Hz).
    exists (zs ++ "0"). split.
    + rewrite append_assoc. reflexivity.
    + rewrite sall_app, Hz. reflexivity.
Qed.

Lemma rstrip_all (q : ascii -> bool) (s : string) :
  sall q s = true -> rstrip q s = EmptyString.
Proof.
  induction s as [|c s IH]; [reflexivity|]. cbn [sall rstrip]. intro H.
  apply andb_true_iff in H. destruct H as (Hc & Hs). rewrite (IH Hs), Hc. reflexivity.
Qed.

(** X7. At a precision of at least one decimal a whole number is written
    as the integer is, without comma nor decimals: zero is [0], which the
    empty text of an absent value is not. *)
Theorem fmt_number_whole (k : Z) (n : nat) :
  (1 <= n)%nat ->
  ExportCsv.fmt_number (Some (IZR k)) n = str_of_Z k
  /\ ExportCsv.fmt_number (Some (IZR k)) n <> ExportCsv.fmt_number None n.
Proof.
  intro Hn.
  assert (Hne0 : forall m, (0 <= m)%Z -> digits_of m <> EmptyString)
    by (intros m Hm; apply (digits_of_spec Hm)).
  assert (Heq : ExportCsv.fmt_number (Some (IZR k)) n = str_of_Z k).
  { rewrite fmt_number_unfold.
    replace (IZR k * 10 ^ n)%R with (IZR (k * 10 ^ Z.of_nat n))
      by (rewrite mult_IZR, <- pow_IZR; reflexivity).
    rewrite round_half_even_IZR.
    assert (HP : (0 < 10 ^ Z.of_nat n)%Z) by (apply Z.pow_pos_nonneg; lia).
    rewrite Z.abs_mul, (Z.abs_eq (10 ^ Z.of_nat n)) by lia.
    unfold fixed. rewrite Z.div_mul, Z.mod_mul by lia.
    destruct n as [|n']; [lia|].
    destruct (pad_digits_zero (S n') EmptyString) as (zs & -> & Hz).
    rewrite (append_nil_r zs).
    destruct (@digits_of_spec (Z.abs k) (Z.abs_nonneg k)) as (Hip & Hne & _).
    set (ip := digits_of (Z.abs k)) in *.
    set (sign := if Rlt_dec (IZR k) 0 then "-" else EmptyString).
    assert (Hsi : sign ++ ip <> EmptyString).
    { unfold sign. destruct (Rlt_dec (IZR k) 0); [discriminate|].
      destruct ip; [contradiction|discriminate]. }
    assert (E1 : rstrip (is_char "0") (String "." zs) = String "." EmptyString)
      by (rewrite rstrip_keep by reflexivity; rewrite (rstrip_all _ _ Hz); reflexivity).
    assert (E2 : rstrip (is_char "0") (ip ++ String "." zs) = ip ++ String "." EmptyString)
      by (rewrite rstrip_app_keep; rewrite E1; [reflexivity|discriminate]).
    assert (E3 : rstrip (is_char "0") (sign ++ ip ++ String "." zs)
                 = sign ++ ip ++ String "." EmptyString).
    { rewrite rstrip_app_keep; rewrite E2; [reflexivity|].
      destruct ip; [contradiction|discriminate]. }
    rewrite E3.
    assert (Hipdot : rstrip (is_char ".") ip = ip)
      by (apply (@rstrip_id is_digit); [apply digit_not_dot|exact Hip]).
    assert (E4 : rstrip (is_char ".") (ip ++ String "." EmptyString) = ip)
      by (rewrite rstrip_app_drop; [exact Hipdot|reflexivity]).
    assert (E5 : rstrip (is_char ".") (sign ++ ip ++ String "." EmptyString) = sign ++ ip)
      by (rewrite rstrip_app_keep; rewrite E4; [reflexivity|exact Hne]).
    rewrite E5. unfold replace_char. rewrite smap_append.
    rewrite (@smap_id is_digit _ ip digit_dot_to_comma Hip).
    unfold sign, str_of_Z, ip.
    destruct (Rlt_dec (IZR k) 0) as [Hk|Hk].
    - apply lt_IZR in Hk. destruct (Z.ltb_spec k 0); [|lia].
      rewrite Z.abs_neq by lia. reflexivity.
    - destruct (Z.ltb_spec k 0) as [Hlt|Hge]; [apply IZR_lt in Hlt; lra|].
      rewrite Z.abs_eq by lia. reflexivity. }
  split; [exact Heq|]. rewrite Heq. cbn [ExportCsv.fmt_number].
  unfold str_of_Z. destruct (Z.ltb_spec k 0); [discriminate|].
  apply Hne0. lia.
Qed.

End WholeNumbers.

(** ** The size of a fund *)

Section Sizes.

Import Py.

Local Open Scope string_scope.

Lemma span_sall (p : ascii -> bool) (s a b : string) :
  span p s = (a, b) -> sall p a = true.
Proof.
  revert a b; induction s as [|c s IH]; intros a b H; cbn [span] in H.
  - injection H as <- <-. reflexivity.
  - destruct (p c) eqn:Ec.
    + destruct (span p s) as [a' b'] eqn:Es. injection H as <- <-.
      cbn [sall]. rewrite Ec, (IH _ _ eq_refl). reflexivity.
    + injection H as <- <-. reflexivity.
Qed.

Lemma digits_val_nonneg (s : string) (acc : Z) :
  sall is_digit s = true -> (0 <= acc)%Z -> (0 <= digits_val acc s)%Z.
Proof.
  revert acc; induction s as [|c s IH]; intros acc Hs Hacc; [exact Hacc|].
  cbn [sall] in Hs. apply andb_true_iff in Hs. destruct Hs as (Hc & Hs).
  cbn [digits_val]. apply IH; [exact Hs|]. pose proof (digit_val_range c Hc). lia.
Qed.

Lemma decimal_val_nonneg (ip fp : string) :
  sall is_digit ip = true -> sall is_digit fp = true -> (0 <= decimal_val ip fp)%R.
Proof.
  intros Hip Hfp. unfold decimal_val.
  pose proof (IZR_le _ _ (@digits_val_nonneg ip 0 Hip (Z.le_refl 0))) as H1.
  pose proof (IZR_le _ _ (@digits_val_nonneg fp 0 Hfp (Z.le_refl 0))) as H2.
  pose proof (pow10_pos (String.length fp)) as HP.
  assert (0 <= IZR (digits_val 0 fp) / 10 ^ String.length fp)%R.
  { apply Rmult_le_pos; [exact H2|]. left. apply Rinv_0_lt_compat. exact HP. }
  lra.
Qed.

Lemma digit_not_space : forall c, is_digit c = true -> is_space c = false.
Proof. by_cases_on_ascii. Qed.

Lemma digit_not_blank : forall c, is_digit c = true -> Ascii.eqb c " " = false.
Proof. by_cases_on_ascii. Qed.

Lemma strip_digit_first (c : ascii) (t : string) :
  is_digit c = true -> exists t', strip (String c t) = String c t'.
Proof.
  intro Hc. unfold strip. cbn [lstrip]. rewrite (digit_not_space c Hc).
  cbn [rstrip]. destruct (rstrip is_space t).
  - rewrite (digit_not_space c Hc). eexists. reflexivity.
  - eexists. reflexivity.
Qed.

(** A numeral that starts with a digit is no negative number. *)
Lemma py_float_digit_first (c : ascii) (t : string) (y : R) :
  is_digit c = true -> py_float (String c t) = Some y -> (0 <= y)%R.
Proof.
  intros Hc. unfold py_float.
  destruct (@strip_digit_first c t Hc) as (t' & ->).
  rewrite (take_sign_digit c Hc).
  destruct (span is_digit (String c t')) as [ip rest] eqn:Eip.
  pose proof (@span_sall _ _ _ _ Eip) as Hip.
  destruct rest as [|d r].
  - destruct (String.eqb ip "" && String.eqb "" ""); [discriminate|].
    intro H; injection H as <-. apply decimal_val_nonneg; [exact Hip|reflexivity].
  - destruct (Ascii.eqb_spec d ".") as [->|Hd].
    + destruct (span is_digit r) as [fp rest'] eqn:Efp.
      pose proof (@span_sall _ _ _ _ Efp) as Hfp.
      destruct rest'; [|discriminate].
      destruct (String.eqb ip "" && String.eqb fp ""); [discriminate|].
      intro H; injection H as <-. apply decimal_val_nonneg; assumption.
    + intro H. exfalso. revert H.
      destruct d as [[] [] [] [] [] [] [] []]; try discriminate. contradiction Hd. reflexivity.
Qed.

Lemma search_aum_digit (text g1 g2 : string) :
  ExportCsv.search_aum text = Some (g1, g2) ->
  exists c r, g1 = String c r /\ is_digit c = true.
Proof.
  induction text as [|c s IH]; cbn [ExportCsv.search_aum]; [discriminate|].
  destruct (is_digit c) eqn:Ec; [|exact IH].
  destruct (span ExportCsv.aum_char s) as [a rest].
  destruct (span is_alpha rest) as [b rest'].
  intro H; injection H as <- <-. exists c, a. split; [reflexivity|exact Ec].
Qed.

(** X8. The size of a fund is never read as a negative number: the search
    starts at a digit, so a minus sign in front of it is not part of the
    numeral. *)
Theorem parse_aum_meur_nonneg (value : pyval) (y : R) :
  ExportCsv.parse_aum_meur value = Ok (Some y) -> (0 <= y)%R.
Proof.
  unfold ExportCsv.parse_aum_meur.
  destruct (negb (truthy value)); [discriminate|].
  destruct value; try discriminate.
  intro H. injection H as H. revert H. unfold ExportCsv.parse_aum_meur_str.
  destruct (ExportCsv.search_aum (ExportCsv.clean_spaces s)) as [[g1 g2]|] eqn:Es;
    [|discriminate].
  destruct (@search_aum_digit _ _ _ Es) as (c & r & -> & Hc).
  cbn [remove_char]. rewrite (digit_not_blank c Hc).
  unfold replace_char. cbn [smap]. rewrite (digit_comma_to_dot c Hc).
  destruct (py_float _) as [number|] eqn:En; [|discriminate].
  apply (@py_float_digit_first c _ _ Hc) in En.
  destruct (mem (lower g2) _); [intro H; injection H as <-; lra|].
  destruct (mem (lower g2) _); intro H; injection H as <-; lra.
Qed.

Lemma alpha_not_space : forall c, is_alpha c = true -> is_space c = false.
Proof. by_cases_on_ascii. Qed.

Lemma alpha_not_nbsp : forall c, is_alpha c = true -> Ascii.eqb c nbsp = false.
Proof. by_cases_on_ascii. Qed.

Lemma alpha_not_aum : forall c, is_alpha c = true -> ExportCsv.aum_char c = false.
Proof. by_cases_on_ascii. Qed.

Lemma remove_char_app (a : ascii) (s t : string) :
  remove_char a (s ++ t) = remove_char a s ++ remove_char a t.
Proof.
  induction s as [|c s IH]; [reflexivity|]. cbn [append remove_char].
  destruct (Ascii.eqb c a); [exact IH|]. cbn [append]. rewrite IH. reflexivity.
Qed.

Lemma collapse_spaces_app (b : bool) (c : ascii) (s t : string) :
  sall (fun x => negb (is_space x)) (String c s) = true ->
  collapse_spaces b (String c s ++ t) = String c s ++ collapse_spaces false t.
Proof.
  revert b c; induction s as [|d s IH]; intros b c H;
    cbn [sall] in H; apply andb_true_iff in H; destruct H as (Hc & Hs);
    apply negb_true_iff in Hc; cbn [append collapse_spaces]; rewrite Hc.
  - reflexivity.
  - f_equal. apply (IH false d Hs).
Qed.

(** X9. A size written as a numeral with a decimal comma, an optional
    blank and a unit is the numeral scaled by the unit, whatever the case
    of the letters: thousands of millions for [mrd], [bn], [b], [md], a
    thousandth of a million for [k] and [mille], millions otherwise. *)
Theorem parse_aum_meur_units (ip fp sp u : string) :
  sall is_digit ip = true -> ip <> EmptyString -> sall is_digit fp = true ->
  sp = EmptyString \/ sp = " " ->
  sall is_alpha u = true -> u <> EmptyString ->
  ExportCsv.parse_aum_meur (PStr (Spec.numeral false ip fp "," ++ sp ++ u))
  = Ok (Some (let number := (IZR (digits_val 0 ip) + Spec.frac fp)%R in
              if mem (lower u) ["mrd"; "bn"; "b"; "md"] then (number * 1000)%R
              else if mem (lower u) ["k"; "mille"] then (number / 1000)%R
              else number)).
Proof.
  intros Hip Hne Hfp Hsp Hu Hune.
  set (num := Spec.numeral false ip fp ",").
  assert (Hnum : sall Spec.numeral_char num = true) by (apply numeral_chars; auto).
  assert (Hfirst : exists d rest, num = String d rest /\ is_digit d = true).
  { unfold num, Spec.numeral. destruct ip as [|d ip']; [contradiction|].
    cbn [sall] in Hip. apply andb_true_iff in Hip.
    eexists _, _. split; [reflexivity|apply Hip]. }
  destruct Hfirst as (d & rest & Ed & Hd).
  assert (Hrest : sall ExportCsv.aum_char rest = true).
  { unfold num, Spec.numeral in Ed. cbn [append] in Ed.
    destruct ip as [|d' ip']; [contradiction|]. cbn [append] in Ed.
    injection Ed as _ <-. cbn [sall] in Hip. apply andb_true_iff in Hip.
    rewrite sall_app, (@sall_impl _ _ ip' digit_aum (proj2 Hip)).
    destruct fp as [|f fp']; [reflexivity|]. cbn [sall andb].
    apply (@sall_impl _ _ _ digit_aum Hfp). }
  assert (Hsp_sp : sall ExportCsv.aum_char sp = true)
    by (destruct Hsp as [-> | ->]; reflexivity).
  pose proof (@rstrip_id is_alpha is_space u alpha_not_space Hu) as Hru.
  assert (Hclean : ExportCsv.clean_spaces (num ++ sp ++ u) = num ++ sp ++ u).
  { unfold ExportCsv.clean_spaces, replace_char.
    rewrite (@smap_id (fun c => negb (Ascii.eqb c nbsp))).
    - rewrite Ed.
      rewrite collapse_spaces_app.
      + assert (Hc : collapse_spaces false (sp ++ u) = sp ++ u).
        { destruct Hsp as [-> | ->]; cbn [append collapse_spaces];
            change (is_space " ") with true; cbv iota;
            rewrite (@collapse_spaces_id is_alpha _ u alpha_not_space Hu); reflexivity. }
        rewrite Hc. unfold strip. cbn [append lstrip]. rewrite (digit_not_space d Hd).
        change (String d (rest ++ sp ++ u)) with (String d rest ++ sp ++ u).
        rewrite <- append_assoc. rewrite rstrip_app_keep; rewrite Hru; [reflexivity|exact Hune].
      + rewrite <- Ed. apply (@sall_impl Spec.numeral_char); [|exact Hnum].
        intros c Hc. rewrite (numeral_not_space c Hc). reflexivity.
    - intros c Hc. apply negb_true_iff in Hc. rewrite Hc. reflexivity.
    - rewrite !sall_app. apply andb_true_iff. split; [|apply andb_true_iff; split].
      + apply (@sall_impl Spec.numeral_char); [|exact Hnum].
        intros c Hc. rewrite (numeral_not_nbsp c Hc). reflexivity.
      + destruct Hsp as [-> | ->]; reflexivity.
      + apply (@sall_impl is_alpha); [|exact Hu].
        intros c Hc. rewrite (alpha_not_nbsp c Hc). reflexivity. }
  assert (Hu0 : match u with EmptyString => True | String c _ => ExportCsv.aum_char c = false end).
  { destruct u as [|c u']; [exact I|]. cbn [sall] in Hu. apply andb_true_iff in Hu.
    apply alpha_not_aum, Hu. }
  assert (Hsearch : ExportCsv.search_aum (num ++ sp ++ u) = Some (num ++ sp, u)).
  { rewrite Ed. cbn [append ExportCsv.search_aum]. rewrite Hd.
    rewrite <- append_assoc.
    rewrite (@span_app ExportCsv.aum_char (rest ++ sp) u);
      [|rewrite sall_app, Hrest, Hsp_sp; reflexivity|exact Hu0].
    rewrite (@span_all is_alpha u Hu). reflexivity. }
  unfold ExportCsv.parse_aum_meur.
  assert (Ht : truthy (PStr (num ++ sp ++ u)) = true).
  { apply truthy_text. rewrite Ed. discriminate. }
  rewrite Ht. cbn [negb]. unfold ExportCsv.parse_aum_meur_str.
  rewrite Hclean, Hsearch. rewrite remove_char_app.
  rewrite (@remove_char_id Spec.numeral_char " " _ numeral_not_blank Hnum).
  assert (Hs0 : remove_char " " sp = EmptyString) by (destruct Hsp as [-> | ->]; reflexivity).
  rewrite Hs0, (append_nil_r num). unfold num.
  rewrite (@replace_comma_numeral false ip fp Hip Hfp).
  rewrite (@py_float_numeral false ip fp Hip Hne Hfp).
  cbv zeta. destruct (mem (lower u) _); [reflexivity|].
  destruct (mem (lower u) _); reflexivity.
Qed.

End Sizes.

(** ** Percentages *)

Section Percentages.

Import Py.

Local Open Scope string_scope.

Lemma take_minus_cases (s : string) :
  (exists b, s = String "-" b /\ take_minus s = ("-", b)) \/ take_minus s = (EmptyString, s).
Proof.
  destruct s as [|c s]; [right; reflexivity|].
  destruct (Ascii.eqb_spec c "-") as [->|H]; [left; eexists; split; reflexivity|right].
  destruct c as [[] [] [] [] [] [] [] []]; try reflexivity. contradiction H; reflexivity.
Qed.

Lemma has_digit_app (s t : string) : Spec.has_digit (s ++ t) = Spec.has_digit s || Spec.has_digit t.
Proof. induction s as [|c s IH]; [reflexivity|]. cbn [append Spec.has_digit]. rewrite IH, orb_assoc. reflexivity. Qed.

Lemma has_digit_smap (f : ascii -> ascii) (s : string) :
  (forall c, is_digit (f c) = is_digit c) -> Spec.has_digit (smap f s) = Spec.has_digit s.
Proof. intro H. induction s as [|c s IH]; [reflexivity|]. cbn [smap Spec.has_digit]. rewrite H, IH. reflexivity. Qed.

Lemma has_digit_remove (a : ascii) (s : string) :
  is_digit a = false -> Spec.has_digit (remove_char a s) = Spec.has_digit s.
Proof.
  intro Ha. induction s as [|c s IH]; [reflexivity|]. cbn [remove_char Spec.has_digit].
  destruct (Ascii.eqb_spec c a) as [->|Hc].
  - rewrite Ha, IH. reflexivity.
  - cbn [Spec.has_digit]. rewrite IH. reflexivity.
Qed.

Lemma space_not_digit : forall c, is_space c = true -> is_digit c = false.
Proof. by_cases_on_ascii. Qed.

Lemma has_digit_collapse (b : bool) (s : string) :
  Spec.has_digit (collapse_spaces b s) = Spec.has_digit s.
Proof.
  revert b; induction s as [|c s IH]; intro b; [reflexivity|].
  cbn [collapse_spaces Spec.has_digit]. destruct (is_space c) eqn:Ec.
  - rewrite (space_not_digit c Ec). destruct b; cbn [Spec.has_digit orb]; apply IH.
  - cbn [Spec.has_digit]. rewrite IH. reflexivity.
Qed.

Lemma has_digit_lstrip (s : string) : Spec.has_digit (lstrip is_space s) = Spec.has_digit s.
Proof.
  induction s as [|c s IH]; [reflexivity|]. cbn [lstrip Spec.has_digit].
  destruct (is_space c) eqn:Ec; [|reflexivity].
  rewrite (space_not_digit c Ec), IH. reflexivity.
Qed.

Lemma has_digit_rstrip (s : string) : Spec.has_digit (rstrip is_space s) = Spec.has_digit s.
Proof.
  induction s as [|c s IH]; [reflexivity|]. cbn [rstrip Spec.has_digit]. rewrite <- IH.
  destruct (rstrip is_space s) as [|d r].
  - destruct (is_space c) eqn:Ec.
    + rewrite (space_not_digit c Ec). reflexivity.
    + reflexivity.
  - reflexivity.
Qed.

Lemma has_digit_replace (fuel : nat) (old s : string) :
  Spec.has_digit old = false -> Spec.has_digit (replace_fuel fuel old EmptyString s) = Spec.has_digit s.
Proof.
  intro Hold. revert s; induction fuel as [|fuel IH]; intro s; [reflexivity|].
  cbn [replace_fuel]. destruct (drop_prefix old s) as [rest|] eqn:E.
  - apply drop_prefix_spec in E. subst s. cbn [append].
    rewrite IH, has_digit_app, Hold. reflexivity.
  - destruct s as [|c s]; [reflexivity|]. cbn [Spec.has_digit]. rewrite IH. reflexivity.
Qed.

Lemma has_digit_clean (s : string) : Spec.has_digit (ExportCsv.clean_spaces s) = Spec.has_digit s.
Proof.
  unfold ExportCsv.clean_spaces, strip, replace_char.
  rewrite has_digit_rstrip, has_digit_lstrip, has_digit_collapse.
  apply has_digit_smap. by_cases_on_ascii.
Qed.

(** Where there is no digit the pattern matches nowhere. *)
Lemma search_number_none (sep : ascii -> bool) (s : string) :
  Spec.has_digit s = false -> search_number sep s = None.
Proof.
  induction s as [|c s IH]; intro H.
  - reflexivity.
  - cbn [Spec.has_digit] in H. apply orb_false_iff in H. destruct H as (Hc & Hs).
    rewrite search_number_unfold, (IH Hs).
    assert (Hm : match_number sep (String c s) = None).
    { unfold match_number.
      assert (Hb : forall b, Spec.has_digit b = false -> span is_digit b = (EmptyString, b)).
      { intros [|d b] Hd; [reflexivity|]. cbn [Spec.has_digit] in Hd.
        apply orb_false_iff in Hd. cbn [span]. rewrite (proj1 Hd). reflexivity. }
      destruct (take_minus_cases (String c s)) as [(b & Eb & ->)| ->].
      - injection Eb as _ <-. rewrite (Hb s Hs). reflexivity.
      - rewrite Hb; [reflexivity|]. cbn [Spec.has_digit]. rewrite Hc, Hs. reflexivity. }
    rewrite Hm. reflexivity.
Qed.

(** What the pattern matches is a numeral: a sign, digits and, behind a
    separator of the class, more digits. *)
Lemma match_number_shape (sep : ascii -> bool) (s m : string) :
  match_number sep s = Some m ->
  exists neg ip fp c,
    m = Spec.numeral neg ip fp c
    /\ sall is_digit ip = true /\ ip <> EmptyString /\ sall is_digit fp = true
    /\ (fp <> EmptyString -> sep c = true).
Proof.
  unfold match_number.
  destruct (take_minus s) as [sign body] eqn:Et.
  destruct (span is_digit body) as [ip rest] eqn:Eip.
  pose proof (@span_sall _ _ _ _ Eip) as Hip.
  assert (Hsign : sign = "-" \/ sign = EmptyString).
  { destruct (take_minus_cases s) as [(b & _ & Eb)|Eb]; rewrite Eb in Et;
      injection Et as <- _; auto. }
  destruct ip as [|d ip'] eqn:Ei; [discriminate|]. rewrite <- Ei in *.
  assert (Hne : ip <> EmptyString) by (rewrite Ei; discriminate).
  assert (Hplain : exists neg ip0 fp c,
            sign ++ ip = Spec.numeral neg ip0 fp c
            /\ sall is_digit ip0 = true /\ ip0 <> EmptyString /\ sall is_digit fp = true
            /\ (fp <> EmptyString -> sep c = true)).
  { exists (if String.eqb sign "-" then true else false), ip, EmptyString, "."%char.
    split; [|split; [exact Hip|split; [exact Hne|split; [reflexivity|]]]].
    - unfold Spec.numeral. rewrite (append_nil_r ip). destruct Hsign as [-> | ->]; reflexivity.
    - intro H. contradiction H. reflexivity. }
  destruct rest as [|c r]; [intro H; injection H as <-; exact Hplain|].
  destruct (sep c) eqn:Ec; [|intro H; injection H as <-; exact Hplain].
  destruct (span is_digit r) as [fp rest'] eqn:Efp.
  pose proof (@span_sall _ _ _ _ Efp) as Hfp.
  destruct fp as [|f fp'] eqn:Ef; [intro H; injection H as <-; exact Hplain|].
  rewrite <- Ef in *. intro H; injection H as <-.
  exists (if String.eqb sign "-" then true else false), ip, fp, c.
  split; [|split; [exact Hip|split; [exact Hne|split; [exact Hfp|intros _; exact Ec]]]].
  unfold Spec.numeral. rewrite Ef. destruct Hsign as [-> | ->]; reflexivity.
Qed.

Lemma numeral_separator (neg : bool) (ip fp : string) (c : ascii) :
  sall is_digit ip = true -> sall is_digit fp = true ->
  (fp <> EmptyString -> ExportCsv.dot_or_comma c = true) ->
  replace_char "," "." (Spec.numeral neg ip fp c) = Spec.numeral neg ip fp ".".
Proof.
  intros Hip Hfp Hc. unfold replace_char, Spec.numeral. rewrite !smap_append.
  rewrite (@smap_id is_digit _ ip digit_comma_to_dot Hip).
  assert (Hs : forall b : bool,
            smap (fun c => if Ascii.eqb c "," then "."%char else c)
              (if b then "-" else EmptyString) = (if b then "-" else EmptyString))
    by (intros []; reflexivity).
  rewrite Hs. do 2 f_equal.
  destruct fp as [|f fp']; [reflexivity|]. cbn [smap].
  cbn [sall] in Hfp. apply andb_true_iff in Hfp. destruct Hfp as (Hf & Hfp').
  rewrite (digit_comma_to_dot f Hf), (@smap_id is_digit _ _ digit_comma_to_dot Hfp').
  assert (E : (if Ascii.eqb c "," then "."%char else c) = "."%char).
  { specialize (Hc ltac:(discriminate)). revert Hc.
    destruct c as [[] [] [] [] [] [] [] []]; vm_compute; congruence. }
  rewrite E. reflexivity.
Qed.

Lemma numeral_point (neg : bool) (ip fp : string) (c : ascii) :
  (fp <> EmptyString -> is_char "." c = true) ->
  Spec.numeral neg ip fp c = Spec.numeral neg ip fp ".".
Proof.
  intro Hc. unfold Spec.numeral. destruct fp as [|f fp']; [reflexivity|].
  specialize (Hc ltac:(discriminate)). unfold is_char in Hc.
  apply Ascii.eqb_eq in Hc. subst c. reflexivity.
Qed.

Lemma match_number_digit (sep : ascii -> bool) (c : ascii) (s : string) :
  is_digit c = true -> match_number sep (String c s) <> None.
Proof.
  intro Hc. unfold match_number. rewrite (take_minus_digit c Hc).
  cbn [span]. rewrite Hc. destruct (span is_digit s) as [a b].
  destruct b as [|e r]; [discriminate|].
  destruct (sep e); [|discriminate].
  destruct (span is_digit r) as [fp rest']. destruct fp; discriminate.
Qed.

Lemma search_number_some (sep : ascii -> bool) (s : string) :
  Spec.has_digit s = true ->
  exists t m, match_number sep t = Some m /\ search_number sep s = Some m.
Proof.
  induction s as [|c s IH]; intro H; [discriminate|].
  rewrite search_number_unfold.
  destruct (match_number sep (String c s)) as [m|] eqn:Em.
  - exists (String c s), m. split; [exact Em|reflexivity].
  - cbn [Spec.has_digit] in H. destruct (is_digit c) eqn:Ec.
    + exfalso. apply (@match_number_digit sep c s Ec). exact Em.
    + apply IH. exact H.
Qed.

Lemma has_digit_percent_text (s : string) :
  Spec.has_digit (remove_char "+"
               (replace "p.a." EmptyString (remove_char "%" (ExportCsv.clean_spaces s))))
  = Spec.has_digit s.
Proof.
  rewrite has_digit_remove by reflexivity. unfold replace.
  rewrite has_digit_replace by reflexivity.
  rewrite has_digit_remove by reflexivity. apply has_digit_clean.
Qed.

(** X10. The percent parser of the export never fails on a text: it reads
    a number when the text holds a decimal digit and gives nothing when
    it holds none. *)
Theorem parse_percent_digits (s : string) :
  (Spec.has_digit s = false -> ExportCsv.parse_percent (PStr s) = Ok None)
  /\ (Spec.has_digit s = true -> exists y, ExportCsv.parse_percent (PStr s) = Ok (Some y)).
Proof.
  unfold ExportCsv.parse_percent. cbn [truthy]. split; intro H.
  - destruct (String.eqb s EmptyString); [reflexivity|]. cbn [negb].
    unfold ExportCsv.parse_percent_str.
    rewrite search_number_none; [reflexivity|]. rewrite has_digit_percent_text. exact H.
  - destruct (String.eqb_spec s EmptyString) as [->|Hs]; [discriminate|]. cbn [negb].
    unfold ExportCsv.parse_percent_str.
    destruct (@search_number_some ExportCsv.dot_or_comma _
                (eq_trans (has_digit_percent_text s) H)) as (t & m & Hm & ->).
    destruct (match_number_shape _ _ Hm) as (neg & ip & fp & c & -> & Hip & Hne & Hfp & Hc).
    rewrite (@numeral_separator neg ip fp c Hip Hfp Hc).
    rewrite (@py_float_numeral neg ip fp Hip Hne Hfp). eexists. reflexivity.
Qed.

(** X11. The percent reader of the scraper reads a number when the text
    holds a decimal digit and gives nothing when it holds none. *)
Theorem parse_percent_text_digits (s : string) :
  (Spec.has_digit s = false -> Scrape.parse_percent_text (Some s) = None)
  /\ (Spec.has_digit s = true -> exists y, Scrape.parse_percent_text (Some s) = Some y).
Proof.
  assert (Ht : Spec.has_digit (replace_char "," "."
                 (remove_char "+" (remove_char "%" (remove_char " " (remove_char nbsp s)))))
               = Spec.has_digit s).
  { unfold replace_char. rewrite has_digit_smap by by_cases_on_ascii.
    rewrite !has_digit_remove by reflexivity. reflexivity. }
  unfold Scrape.parse_percent_text. split; intro H.
  - destruct s as [|c s']; [reflexivity|].
    rewrite search_number_none; [reflexivity|]. rewrite Ht. exact H.
  - destruct s as [|c s']; [discriminate|].
    destruct (@search_number_some (is_char ".") _ (eq_trans Ht H)) as (t & m & Hm & ->).
    destruct (match_number_shape _ _ Hm) as (neg & ip & fp & d & -> & Hip & Hne & Hfp & Hd).
    rewrite (@numeral_point neg ip fp d Hd).
    rewrite (@py_float_numeral neg ip fp Hip Hne Hfp). eexists. reflexivity.
Qed.

End Percentages.

(** ** Age and launch date *)

Section Ages.

Import Py.

Local Open Scope R_scope.

(** X12. The age of a fund is the number of whole mean Gregorian years of
    365.2425 days between the two dates; it is absent without a launch
    date and for a launch in the future. *)
Theorem years_between_spec (start_date end_date : Date.date) :
  ExportCsv.years_between None end_date = None
  /\ ((Date.days_between start_date end_date < 0)%Z ->
      ExportCsv.years_between (Some start_date) end_date = None)
  /\ ((0 <= Date.days_between start_date end_date)%Z ->
      exists n,
        ExportCsv.years_between (Some start_date) end_date = Some n
        /\ (0 <= n)%Z
        /\ IZR n * 365.2425 <= IZR (Date.days_between start_date end_date)
           < (IZR n + 1) * 365.2425).
Proof.
  split; [reflexivity|]. unfold ExportCsv.years_between.
  set (days := Date.days_between start_date end_date).
  split; intro H.
  - destruct (Z.ltb_spec days 0); [reflexivity|lia].
  - destruct (Z.ltb_spec days 0); [lia|].
    eexists. split; [reflexivity|].
    destruct (base_Int_part (IZR days / 365.2425)) as (H1 & H2).
    set (n := Int_part (IZR days / 365.2425)) in *.
    apply IZR_le in H. 
    assert (Hn : (0 <= n)%Z).
    { apply Z.lt_succ_r. apply lt_IZR. rewrite succ_IZR.
      assert (0 <= IZR days / 365.2425) by (apply Rmult_le_pos; lra). lra. }
    split; [exact Hn|]. split.
    + apply Rmult_le_reg_r with (/ 365.2425); [lra|].
      rewrite Rmult_assoc, Rinv_r, Rmult_1_r by lra. exact H1.
    + apply Rmult_lt_reg_r with (/ 365.2425); [lra|].
      rewrite (Rmult_assoc (IZR n + 1)), Rinv_r, Rmult_1_r by lra.
      unfold Rdiv in H2. lra.
Qed.

(** X13. On the first anniversary of its launch a fund is one year old
    only when a 29 February lies in between: the 365 days of an ordinary
    year are less than the 365.2425 days the age is counted in. *)
Theorem years_between_anniversary (y m d : Z) :
  (Date.days_between (Date.mk_date (y - 1) m d) (Date.mk_date y m d) = 365%Z
   /\ ExportCsv.years_between (Some (Date.mk_date (y - 1) m d)) (Date.mk_date y m d)
      = Some 0%Z)
  \/ (Date.days_between (Date.mk_date (y - 1) m d) (Date.mk_date y m d) = 366%Z
      /\ ExportCsv.years_between (Some (Date.mk_date (y - 1) m d)) (Date.mk_date y m d)
         = Some 1%Z).
Proof.
  unfold ExportCsv.years_between.
  destruct (one_year_days y m d) as [-> | ->]; [left|right];
    (split; [reflexivity|]); cbn [Z.ltb Z.compare]; f_equal; symmetry;
    apply Int_part_spec; lra.
Qed.

End Ages.

Section LaunchDate.

Import Py.

Local Open Scope Z_scope.

Lemma pair_lt_false (a b : Z * Z) : ExportCsv.pair_lt b a = false <-> Spec.pair_le a b.
Proof.
  unfold ExportCsv.pair_lt, Spec.pair_le. destruct a as [ya ma], b as [yb mb]. cbn [fst snd].
  destruct (Z.ltb_spec yb ya), (Z.eqb_spec yb ya), (Z.ltb_spec mb ma);
    cbn [orb andb]; split; intro; try discriminate; try reflexivity; lia.
Qed.

Lemma pair_lt_true (a b : Z * Z) : ExportCsv.pair_lt a b = true -> Spec.pair_le a b.
Proof.
  unfold ExportCsv.pair_lt, Spec.pair_le. destruct a as [ya ma], b as [yb mb]. cbn [fst snd].
  destruct (Z.ltb_spec ya yb), (Z.eqb_spec ya yb), (Z.ltb_spec ma mb);
    cbn [orb andb]; intro; try discriminate; lia.
Qed.

Lemma pair_le_trans (a b c : Z * Z) : Spec.pair_le a b -> Spec.pair_le b c -> Spec.pair_le a c.
Proof. unfold Spec.pair_le. lia. Qed.

Lemma insert_pair_sorted (x : Z * Z) (l : list (Z * Z)) :
  StronglySorted Spec.pair_le l -> StronglySorted Spec.pair_le (insert_by ExportCsv.pair_lt x l).
Proof.
  induction 1 as [|y l Hs IH Hy]; cbn [insert_by].
  - repeat constructor.
  - destruct (ExportCsv.pair_lt x y) eqn:E.
    + apply pair_lt_true in E. constructor; [constructor; assumption|].
      constructor; [exact E|].
      eapply Forall_impl; [|exact Hy]. intros z Hz. eapply pair_le_trans; eassumption.
    + apply pair_lt_false in E. constructor; [assumption|].
      eapply Permutation_Forall; [apply Permutation_sym, insert_by_perm|].
      constructor; [exact E|assumption].
Qed.

Lemma sorted_pairs (l : list (Z * Z)) :
  StronglySorted Spec.pair_le (sorted_by ExportCsv.pair_lt l).
Proof.
  unfold sorted_by.
  assert (H : forall acc, StronglySorted Spec.pair_le acc ->
            StronglySorted Spec.pair_le
              (fold_left (fun acc x => insert_by ExportCsv.pair_lt x acc) l acc)).
  { induction l as [|x l IH]; intros acc Hacc; [exact Hacc|].
    cbn [fold_left]. apply IH, insert_pair_sorted, Hacc. }
  apply H. constructor.
Qed.

(** X14. The launch date inferred from the grid is the first day of the
    earliest month of the grid, years before months; it is absent when no
    row of the grid is a point with a month from 1 to 12, or when the
    earliest year is not one a date can hold. *)
Theorem infer_launch_date_earliest (h : dict) (values : list pyval) :
  get h "values" = PList values ->
  let points := filter_map ExportCsv.launch_point values in
  (points = [] -> ExportCsv.infer_launch_date_from_heatmap (PDict h) = Ok None)
  /\ (points <> [] ->
      exists y m,
        In (y, m) points
        /\ (forall p, In p points -> Spec.pair_le (y, m) p)
        /\ ExportCsv.infer_launch_date_from_heatmap (PDict h) = Date.date_new y m 1
        /\ (1 <= y <= 9999 ->
            ExportCsv.infer_launch_date_from_heatmap (PDict h)
            = Ok (Some (Date.mk_date y m 1)))
        /\ (Date.fits_c_int y = true -> ~ 1 <= y <= 9999 ->
            ExportCsv.infer_launch_date_from_heatmap (PDict h) = Ok None)).
Proof.
  intros Hv points. unfold ExportCsv.infer_launch_date_from_heatmap. rewrite Hv.
  fold points. split.
  - intros ->. reflexivity.
  - intro Hne.
    pose proof (sorted_by_perm ExportCsv.pair_lt points) as Hperm.
    pose proof (sorted_pairs points) as Hsorted.
    destruct (sorted_by ExportCsv.pair_lt points) as [|[y m] rest] eqn:Es.
    + apply Permutation_nil in Hperm. contradiction.
    + assert (Hin : In (y, m) points)
        by (eapply Permutation_in; [exact Hperm|left; reflexivity]).
      assert (Hm : 1 <= m <= 12).
      { unfold points in Hin. clear - Hin.
        induction values as [|row values IH]; [destruct Hin|].
        cbn [filter_map] in Hin. destruct (ExportCsv.launch_point row) as [p|] eqn:Ep.
        - destruct Hin as [->|Hin]; [eapply launch_point_month; exact Ep|apply IH, Hin].
        - apply IH, Hin. }
      exists y, m. split; [exact Hin|]. split; [|split; [reflexivity|split]].
      * intros p Hp. apply Permutation_sym in Hperm.
        apply (Permutation_in _ Hperm) in Hp. destruct Hp as [<-|Hp].
        -- unfold Spec.pair_le. cbn [fst snd]. lia.
        -- inversion Hsorted as [|? ? _ Hall]; subst.
           rewrite Forall_forall in Hall. apply Hall, Hp.
      * intro Hy. unfold Date.date_new, Date.fits_c_int, Date.date_checked, Date.valid.
        cbn [Date.year Date.month Date.day].
        assert (Hd : 1 <= Date.days_in_month y m).
        { unfold Date.days_in_month. destruct ((m =? 2) && Date.is_leap y); [lia|].
          assert (Hc : m = 1 \/ m = 2 \/ m = 3 \/ m = 4 \/ m = 5 \/ m = 6 \/ m = 7
                       \/ m = 8 \/ m = 9 \/ m = 10 \/ m = 11 \/ m = 12) by lia.
          repeat (destruct Hc as [->|Hc]; [vm_compute; intro Hx; discriminate Hx|]).
          subst m. vm_compute. intro Hx; discriminate Hx. }
        repeat match goal with
               | |- context [(?a <=? ?b)] => destruct (Z.leb_spec a b); try lia
               end; reflexivity.
      * intros Hfit Hy. unfold Date.date_new, Date.date_checked, Date.valid.
        cbn [Date.year Date.month Date.day]. rewrite Hfit.
        change (Date.fits_c_int 1) with true.
        assert (Hfm : Date.fits_c_int m = true).
        { unfold Date.fits_c_int. destruct (Z.leb_spec (-2147483648) m), (Z.leb_spec m 2147483647);
            try reflexivity; lia. }
        rewrite Hfm. cbn [andb].
        destruct (Z.leb_spec 1 y), (Z.leb_spec y 9999); try lia; reflexivity.
Qed.

End LaunchDate.

(** ** Tickers and the rows of the overview *)

Section Tickers.

Import Py.

Local Open Scope string_scope.

Variable E : ExportCsv.helpers.

Lemma ticker_of_app (m : list (string * string)) (i t k : string) :
  ExportCsv.ticker_of (m ++ [(i, t)]) k
  = if ExportCsv.has_key k m then ExportCsv.ticker_of m k
    else if String.eqb k i then t else EmptyString.
Proof.
  induction m as [|[k' v] m IH]; cbn [app ExportCsv.ticker_of ExportCsv.has_key]; [reflexivity|].
  destruct (String.eqb k k'); [reflexivity|exact IH].
Qed.

Lemma has_key_app (m : list (string * string)) (i t k : string) :
  ExportCsv.has_key k (m ++ [(i, t)]) = ExportCsv.has_key k m || String.eqb k i.
Proof.
  induction m as [|[k' v] m IH]; cbn [app ExportCsv.has_key]; [apply orb_false_r|].
  rewrite IH, orb_assoc. reflexivity.
Qed.

Lemma has_key_in (m : list (string * string)) (k : string) :
  ExportCsv.has_key k m = true <-> In k (map fst m).
Proof.
  induction m as [|[k' v] m IH]; cbn [ExportCsv.has_key map fst In]; [split; [discriminate|tauto]|].
  rewrite orb_true_iff, IH. destruct (String.eqb_spec k k'); split; intuition congruence.
Qed.

Lemma ticker_rows_lookup (rows : list pyval) (m : list (string * string)) (k : string) :
  ExportCsv.ticker_of (ExportCsv.ticker_rows E rows m) k
  = if ExportCsv.has_key k m then ExportCsv.ticker_of m k else Spec.first_ticker E rows k.
Proof.
  revert m; induction rows as [|row rows IH]; intro m; cbn [ExportCsv.ticker_rows Spec.first_ticker].
  - destruct (ExportCsv.has_key k m) eqn:Ek; [reflexivity|].
    induction m as [|[k' v] m IHm]; [reflexivity|].
    cbn [ExportCsv.has_key] in Ek. apply orb_false_iff in Ek. destruct Ek as (E1 & E2).
    cbn [ExportCsv.ticker_of]. rewrite E1. apply IHm, E2.
  - rewrite IH. destruct (ExportCsv.ticker_entry E row) as [[i t]|]; [|reflexivity].
    destruct (ExportCsv.has_key i m) eqn:Ei.
    + destruct (ExportCsv.has_key k m) eqn:Ek; [reflexivity|].
      destruct (String.eqb_spec k i) as [->|Hne]; [congruence|reflexivity].
    + rewrite has_key_app, ticker_of_app.
      destruct (ExportCsv.has_key k m); [reflexivity|]. cbn [orb].
      destruct (String.eqb k i); reflexivity.
Qed.

Lemma ticker_rows_nodup (rows : list pyval) (m : list (string * string)) :
  NoDup (map fst m) -> NoDup (map fst (ExportCsv.ticker_rows E rows m)).
Proof.
  revert m; induction rows as [|row rows IH]; intros m Hm; cbn [ExportCsv.ticker_rows]; [exact Hm|].
  apply IH. destruct (ExportCsv.ticker_entry E row) as [[i t]|]; [|exact Hm].
  destruct (ExportCsv.has_key i m) eqn:Ei; [exact Hm|].
  rewrite map_app. cbn [map fst].
  apply NoDup_app; [exact Hm|repeat constructor; intros []|].
  intros x Hx [<-|[]]. apply has_key_in in Hx. congruence.
Qed.

(** X15. The ticker file gives every ISIN the ticker of the first row that
    has one for it, later rows for the same ISIN are ignored, no ISIN is
    listed twice, and a file that is missing or holds no list gives the
    empty map, under which every ticker is the empty text. *)
Theorem load_ticker_map_first (rows : list pyval) (isin : string) :
  ExportCsv.ticker_of (ExportCsv.load_ticker_map E (Some (PList rows))) isin
  = Spec.first_ticker E rows isin
  /\ NoDup (map fst (ExportCsv.load_ticker_map E (Some (PList rows))))
  /\ ExportCsv.load_ticker_map E None = []
  /\ (forall data, (forall l, data <> PList l) -> ExportCsv.load_ticker_map E (Some data) = []).
Proof.
  split; [|split; [|split]].
  - unfold ExportCsv.load_ticker_map. rewrite ticker_rows_lookup. reflexivity.
  - apply ticker_rows_nodup. constructor.
  - reflexivity.
  - intros data H. destruct data; try reflexivity. contradiction (H items). reflexivity.
Qed.

End Tickers.

Section OverviewColumns.

Import Py.

Local Open Scope string_scope.

Variable E : ExportCsv.helpers.
Variable today : Date.date.
Variable ticker_map : list (string * string).

Lemma of_float_shape (o : option R) : Spec.float_or_none (ExportCsv.of_float o).
Proof. destruct o as [x|]; [right; exists x; reflexivity|left; reflexivity]. Qed.

Lemma overview_row_columns (data : pyval) (row : dict) :
  ExportCsv.overview_row E today ticker_map data = Ok (Some row) ->
  map fst row = ExportCsv.overview_headers
  /\ Forall (fun k => Spec.float_or_none (get row k)) ExportCsv.overview_figures
  /\ get row "Ticker"
     = PStr (ExportCsv.ticker_of ticker_map (ExportCsv.or_empty (Spec.isin_of E data))).
Proof.
  unfold ExportCsv.overview_row, Spec.isin_of. destruct data; try discriminate.
  destruct (String.eqb _ EmptyString); [discriminate|].
  cbv zeta. repeat ok_step. intro H. injection H as <-.
  split; [reflexivity|]. split; [|reflexivity].
  unfold ExportCsv.overview_figures.
  repeat (apply Forall_cons; [apply of_float_shape|]). apply Forall_nil.
Qed.

(** X16. Every row of the overview has exactly the nineteen columns of the
    header [write_overview_csv] writes, in the order of the header; the
    five columns that function formats as numbers hold a float or
    nothing, and the ticker is the one the ticker map has for the ISIN of
    the document, the empty text when it has none. *)
Theorem build_overview_rows_columns (files : list pyval) (rows : list dict) :
  ExportCsv.build_overview_rows E today ticker_map files = Ok rows ->
  (List.length rows <= List.length files)%nat
  /\ Forall (fun row =>
       map fst row = ExportCsv.overview_headers
       /\ Forall (fun k => Spec.float_or_none (get row k)) ExportCsv.overview_figures
       /\ exists isin, get row "ISIN" = PStr isin
            /\ get row "Ticker" = PStr (ExportCsv.ticker_of ticker_map isin)) rows.
Proof.
  revert rows; induction files as [|data files IH]; intros rows;
    cbn [ExportCsv.build_overview_rows].
  - intro H; injection H as <-. split; [reflexivity|constructor].
  - destruct (ExportCsv.overview_row E today ticker_map data) as [row|] eqn:Er;
      [|discriminate]. cbn [bind].
    destruct (ExportCsv.build_overview_rows E today ticker_map files) as [rest|];
      [|discriminate]. cbn [bind].
    destruct (IH rest eq_refl) as (Hlen & Hall).
    intro H; injection H as <-. destruct row as [r|].
    + split; [cbn [List.length]; lia|]. constructor; [|exact Hall].
      destruct (overview_row_columns _ Er) as (Hk & Hf & Ht).
      split; [exact Hk|]. split; [exact Hf|].
      exists (ExportCsv.or_empty (Spec.isin_of E data)). split; [|exact Ht].
      revert Er. unfold ExportCsv.overview_row, Spec.isin_of.
      destruct data; try discriminate.
      destruct (String.eqb _ EmptyString); [discriminate|].
      cbv zeta. repeat ok_step. intro H. injection H as <-. reflexivity.
    + split; [cbn [List.length]; lia|exact Hall].
Qed.

Lemma build_overview_rows_app (pre post : list pyval) :
  ExportCsv.build_overview_rows E today ticker_map (pre ++ post)
  = bind (ExportCsv.build_overview_rows E today ticker_map pre) (fun a =>
      bind (ExportCsv.build_overview_rows E today ticker_map post) (fun b =>
        Ok (a ++ b)%list)).
Proof.
  induction pre as [|data pre IH]; cbn [app ExportCsv.build_overview_rows bind].
  - destruct (ExportCsv.build_overview_rows E today ticker_map post); reflexivity.
  - destruct (ExportCsv.overview_row E today ticker_map data) as [row|]; [|reflexivity].
    cbn [bind]. rewrite IH.
    destruct (ExportCsv.build_overview_rows E today ticker_map pre) as [a|]; [|reflexivity].
    cbn [bind].
    destruct (ExportCsv.build_overview_rows E today ticker_map post) as [b|]; [|reflexivity].
    cbn [bind]. destruct row; reflexivity.
Qed.

(** X17. The export does not isolate a failing document: when the fees of
    one document with an ISIN are stored as a truthy value that is no
    text, such as a number, the whole collection raises
    [AttributeError] and no row is returned, whatever documents come
    before and after it, provided the earlier ones raise nothing. *)
Theorem build_overview_rows_aborts (pre post : list pyval) (d details : dict) (v : pyval)
  (before : list dict) :
  ExportCsv.build_overview_rows E today ticker_map pre = Ok before ->
  Spec.isin_of E (PDict d) <> None ->
  get d "donnees" = PDict details ->
  get details "frais_totaux_sur_encours_ter" = v ->
  truthy v = true -> ExportCsv.as_text v = None ->
  ExportCsv.build_overview_rows E today ticker_map (pre ++ PDict d :: post)
  = Raise AttributeError.
Proof.
  intros Hpre Hisin Hd Hv Ht Hx. rewrite build_overview_rows_app, Hpre. cbn [bind].
  cbn [ExportCsv.build_overview_rows].
  assert (Hrow : ExportCsv.overview_row E today ticker_map (PDict d) = Raise AttributeError).
  { unfold ExportCsv.overview_row. unfold Spec.isin_of in Hisin.
    destruct (String.eqb _ EmptyString); [contradiction Hisin; reflexivity|].
    cbv zeta. rewrite Hd, Hv. unfold ExportCsv.parse_percent at 1. rewrite Ht. cbn [negb].
    destruct v; try reflexivity. discriminate Hx. }
  rewrite Hrow. reflexivity.
Qed.

End OverviewColumns.

Section Pipeline.

Import Py.

Local Open Scope string_scope.

Lemma record_cagr_figure (today : Date.date) (heatmap : option dict) (parsed : dict) :
  get (Scrape.record_cagr today heatmap parsed) "cagr_depuis_creation_pct"
  = match Scrape.compute_cagr_from_heatmap heatmap with
    | Some c => PFloat (py_round c 6)
    | None =>
        match Scrape.compute_cagr_from_max_return today parsed with
        | Some c => PFloat (py_round c 6)
        | None => get parsed "cagr_depuis_creation_pct"
        end
    end.
Proof.
  assert (Hfb : Scrape.compute_cagr_from_max_return today
                  (set parsed "heatmap_mensuelle" (Scrape.of_heatmap heatmap))
                = Scrape.compute_cagr_from_max_return today parsed).
  { unfold Scrape.compute_cagr_from_max_return.
    rewrite get_set_other by reflexivity. reflexivity. }
  assert (Hdel : forall p k, String.eqb k "_meta_returns" = false ->
     get (match get p "_meta_returns" with
          | PDict _ => del p "_meta_returns"
          | _ => p
          end) k = get p k).
  { intros p k Hk. destruct (get p "_meta_returns"); try reflexivity.
    apply get_del_other, Hk. }
  unfold Scrape.record_cagr. cbv zeta. rewrite Hfb.
  destruct (Scrape.compute_cagr_from_heatmap heatmap) as [c|].
  - rewrite Hdel by reflexivity. rewrite get_set_other by reflexivity. apply get_set_same.
  - destruct (Scrape.compute_cagr_from_max_return today parsed) as [c|].
    + rewrite Hdel by reflexivity. rewrite get_set_other by reflexivity. apply get_set_same.
    + rewrite Hdel by reflexivity. rewrite get_set_other by reflexivity. reflexivity.
Qed.

(** X18. The overview shows the figure the scraper recorded and does not
    compute it again: for a document as the scraper writes it, the CAGR
    of the row is the recorded one, rounded to six decimals, the grid
    figure when there is one and else the estimate. *)
Theorem overview_row_recorded_cagr (E : ExportCsv.helpers) (today scraped : Date.date)
  (ticker_map : list (string * string)) (heatmap : option dict) (parsed row : dict)
  (c : R) :
  ExportCsv.overview_row E today ticker_map
    (PDict (Scrape.record_cagr scraped heatmap parsed)) = Ok (Some row) ->
  (Scrape.compute_cagr_from_heatmap heatmap = Some c
   \/ (Scrape.compute_cagr_from_heatmap heatmap = None
       /\ Scrape.compute_cagr_from_max_return scraped parsed = Some c)) ->
  get row "CAGR (%)" = PFloat (py_round c 6).
Proof.
  intros Hrow Hc. rewrite (overview_row_cagr _ _ _ _ Hrow).
  unfold ExportCsv.document_cagr. rewrite record_cagr_figure.
  destruct Hc as [-> | (-> & ->)]; reflexivity.
Qed.

End Pipeline.

(** ** The documents of the scraper *)

Section Documents.

Import Py.

Local Open Scope string_scope.

Lemma of_text_plain (o : option string) : Spec.text_or_none (Scrape.of_text o).
Proof. destruct o; exact I. Qed.

(** X19. The document the scraper writes for an ISIN has exactly seven
    entries, in this order, and never the private entry of the two raw
    texts; its three facts the export parses are texts or [None]; and its
    CAGR is [None] exactly when neither the grid nor the estimate gives a
    figure. *)
Theorem scraped_document (today : Date.date) (heatmap : option dict)
  (r : Scrape.results) (isin : string) :
  let parsed := Scrape.parse_profile_html r isin in
  let out := Scrape.record_cagr today heatmap parsed in
  map fst out
  = ["isin"; "nom"; "description"; "donnees"; "cagr_depuis_creation_pct";
     "cagr_depuis_creation_source"; "heatmap_mensuelle"]
  /\ get out "isin" = PStr isin
  /\ get out "heatmap_mensuelle" = Scrape.of_heatmap heatmap
  /\ (exists details,
        get out "donnees" = PDict details
        /\ Spec.text_or_none (get details "frais_totaux_sur_encours_ter")
        /\ Spec.text_or_none (get details "volatilite_sur_1_an")
        /\ Spec.text_or_none (get details "taille_du_fonds"))
  /\ (get out "cagr_depuis_creation_pct" = PNone
      <-> Scrape.compute_cagr_from_heatmap heatmap = None
          /\ Scrape.compute_cagr_from_max_return today parsed = None).
Proof.
  intros parsed out.
  assert (Hfb : Scrape.compute_cagr_from_max_return today
                  (set parsed "heatmap_mensuelle" (Scrape.of_heatmap heatmap))
                = Scrape.compute_cagr_from_max_return today parsed) by reflexivity.
  unfold out, Scrape.record_cagr. cbv zeta. rewrite Hfb.
  destruct (Scrape.compute_cagr_from_heatmap heatmap) as [c|];
    [|destruct (Scrape.compute_cagr_from_max_return today parsed) as [c|]];
    (split; [reflexivity|]; split; [reflexivity|]; split; [reflexivity|]; split;
     [eexists; split; [reflexivity|]; repeat split; apply of_text_plain|]).
  - split; [discriminate|]. intros (H & _). discriminate H.
  - split; [discriminate|]. intros (_ & H). discriminate H.
  - split; [intros _; split; reflexivity|reflexivity].
Qed.

End Documents.

(** ** The list of ISINs and the loop of the scraper *)

Section Normalisation.

Import Py.

Local Open Scope string_scope.

Lemma upper_char_idem : forall c, upper_char (upper_char c) = upper_char c.
Proof. by_cases_on_ascii. Qed.

Lemma upper_char_space : forall c, is_space (upper_char c) = is_space c.
Proof. by_cases_on_ascii. Qed.

Lemma lstrip_smap (p : ascii -> bool) (f : ascii -> ascii) (s : string) :
  (forall c, p (f c) = p c) -> lstrip p (smap f s) = smap f (lstrip p s).
Proof.
  intro H. induction s as [|c s IH]; [reflexivity|]. cbn [smap lstrip].
  rewrite H. destruct (p c); [exact IH|reflexivity].
Qed.

Lemma rstrip_smap (p : ascii -> bool) (f : ascii -> ascii) (s : string) :
  (forall c, p (f c) = p c) -> rstrip p (smap f s) = smap f (rstrip p s).
Proof.
  intro H. induction s as [|c s IH]; [reflexivity|]. cbn [smap rstrip].
  rewrite IH, H. destruct (rstrip p s); [destruct (p c)|]; reflexivity.
Qed.

Lemma rstrip_idem (p : ascii -> bool) (s : string) : rstrip p (rstrip p s) = rstrip p s.
Proof.
  induction s as [|c s IH]; [reflexivity|]. cbn [rstrip].
  destruct (rstrip p s) as [|d r] eqn:Er.
  - destruct (p c) eqn:Ec; [reflexivity|]. cbn [rstrip]. rewrite Ec. reflexivity.
  - cbn [rstrip]. cbn [rstrip] in IH. rewrite IH. reflexivity.
Qed.

Lemma lstrip_head (p : ascii -> bool) (s : string) :
  match lstrip p s with
  | EmptyString => True
  | String c _ => p c = false
  end.
Proof.
  induction s as [|c s IH]; [exact I|]. cbn [lstrip].
  destruct (p c) eqn:Ec; [exact IH|exact Ec].
Qed.

Lemma strip_idem (s : string) : strip (strip s) = strip s.
Proof.
  unfold strip. pose proof (lstrip_head is_space s) as Hh.
  destruct (lstrip is_space s) as [|c t]; [reflexivity|].
  assert (Hr : exists r, rstrip is_space (String c t) = String c r).
  { cbn [rstrip]. destruct (rstrip is_space t); [rewrite Hh|]; eexists; reflexivity. }
  destruct Hr as (r & Hr). rewrite Hr. cbn [lstrip]. rewrite Hh.
  rewrite <- Hr. apply rstrip_idem.
Qed.

Lemma normalise_idem (s : string) : upper (strip (upper (strip s))) = upper (strip s).
Proof.
  unfold upper, strip at 1.
  rewrite (@lstrip_smap is_space upper_char _ upper_char_space), (@rstrip_smap is_space upper_char _ upper_char_space).
  fold (strip (strip s)). rewrite strip_idem.
  induction (strip s) as [|c t IH]; [reflexivity|]. cbn [smap].
  rewrite upper_char_idem, IH. reflexivity.
Qed.

(** X20. The ISINs of the input file are its texts, trimmed and in
    capitals, in file order, the blank ones left out; trimming and
    capitalising one again changes nothing; a file that holds no list, or
    a list with an entry that is no text, is refused as a whole. *)
Theorem load_isins_spec (items : list string) :
  Scrape.load_isins (PList (map PStr items))
  = Some (filter (fun isin => negb (String.eqb isin EmptyString))
            (map (fun item => upper (strip item)) items))
  /\ (forall isins isin,
        Scrape.load_isins (PList (map PStr items)) = Some isins -> In isin isins ->
        isin <> EmptyString /\ upper (strip isin) = isin)
  /\ (forall data, (forall l, data <> PList l) -> Scrape.load_isins data = None)
  /\ (forall pre post v, ExportCsv.as_text v = None ->
        Scrape.load_isins (PList (pre ++ v :: post)) = None).
Proof.
  assert (H1 : Scrape.load_isins (PList (map PStr items))
               = Some (filter (fun isin => negb (String.eqb isin EmptyString))
                         (map (fun item => upper (strip item)) items))).
  { cbn [Scrape.load_isins]. induction items as [|item items IH]; [reflexivity|].
    cbn [map Scrape.isin_items filter]. rewrite IH.
    destruct (String.eqb (upper (strip item)) EmptyString); reflexivity. }
  split; [exact H1|]. split; [|split].
  - intros isins isin Hl Hin. rewrite H1 in Hl. injection Hl as <-.
    apply filter_In in Hin. destruct Hin as (Hin & Hne).
    apply in_map_iff in Hin. destruct Hin as (item & <- & _).
    split; [|apply normalise_idem].
    intro Heq. rewrite Heq in Hne. discriminate Hne.
  - intros data H. destruct data; try reflexivity. contradiction (H items0). reflexivity.
  - intros pre post v Hv. cbn [Scrape.load_isins].
    induction pre as [|x pre IH]; cbn [app Scrape.isin_items].
    + destruct v; try reflexivity. discriminate Hv.
    + destruct x; try reflexivity. rewrite IH. reflexivity.
Qed.

End Normalisation.

Section ScrapeLoop.

Import Py.

Local Open Scope string_scope.

Variable today : Date.date.

Local Abbreviation step := (Scrape.scrape_step today).

Lemma step_other (st : Scrape.scrape_state) (isin k : string) (resp : Scrape.response) :
  String.eqb k isin = false -> Spec.agree k (step st (isin, resp)) st.
Proof.
  intro Hk. destruct st as [files errors]. unfold Scrape.scrape_step, Spec.agree.
  destruct (Scrape.scrape_one today isin resp); cbn [fst snd];
    rewrite ?(@get_set_other _ _ _ _ Hk); split; reflexivity.
Qed.

Lemma step_same (a b : Scrape.scrape_state) (isin : string) (resp : Scrape.response) :
  Spec.agree isin a b -> Spec.agree isin (step a (isin, resp)) (step b (isin, resp)).
Proof.
  destruct a as [fa ea], b as [fb eb]. unfold Scrape.scrape_step, Spec.agree. cbn [fst snd].
  intros (Hf & He).
  destruct (Scrape.scrape_one today isin resp); cbn [fst snd];
    rewrite ?get_set_same; split; assumption || reflexivity.
Qed.

Lemma loop_agree (jobs : list (string * Scrape.response)) (k : string)
  (a b : Scrape.scrape_state) :
  Spec.agree k a b ->
  Spec.agree k (fold_left step jobs a)
          (fold_left step (filter (fun job => String.eqb (fst job) k) jobs) b).
Proof.
  revert a b; induction jobs as [|[isin resp] jobs IH]; intros a b Hab; [exact Hab|].
  cbn [fold_left filter fst]. destruct (String.eqb_spec isin k) as [->|Hne].
  - cbn [fold_left]. apply IH, step_same, Hab.
  - apply IH. destruct Hab as (H1 & H2).
    assert (Hk : String.eqb k isin = false) by (apply String.eqb_neq; congruence).
    destruct (@step_other a isin k resp Hk) as (H3 & H4).
    split; congruence.
Qed.

Lemma loop_untouched (jobs : list (string * Scrape.response)) (k : string)
  (a : Scrape.scrape_state) :
  ~ In k (map fst jobs) -> Spec.agree k (fold_left step jobs a) a.
Proof.
  revert a; induction jobs as [|[isin resp] jobs IH]; intros a Hk; [split; reflexivity|].
  cbn [fold_left]. cbn [map fst In] in Hk.
  assert (Hne : String.eqb k isin = false) by (apply String.eqb_neq; intuition congruence).
  destruct (IH (step a (isin, resp))) as (H1 & H2); [tauto|].
  destruct (@step_other a isin k resp Hne) as (H3 & H4).
  split; congruence.
Qed.

(** X21. The scraper isolates the ISINs from one another: the file and the
    error recorded for an ISIN are the ones the loop would leave if the
    list held the entries of that ISIN alone, whatever happens to the
    others; and the last entry of an ISIN decides what it leaves, its
    document when it succeeds and its message when it fails. *)
Theorem scrape_loop_isolation (jobs : list (string * Scrape.response)) (isin : string) :
  (let st := Scrape.scrape_loop today jobs in
   let own :=
     Scrape.scrape_loop today (filter (fun job => String.eqb (fst job) isin) jobs) in
   get (fst st) isin = get (fst own) isin /\ get (snd st) isin = get (snd own) isin)
  /\ (forall pre post resp,
        jobs = (pre ++ (isin, resp) :: post)%list -> ~ In isin (map fst post) ->
        match Scrape.scrape_one today isin resp with
        | inl doc => get (fst (Scrape.scrape_loop today jobs)) isin = PDict doc
        | inr msg => get (snd (Scrape.scrape_loop today jobs)) isin = PStr msg
        end).
Proof.
  split.
  - cbv zeta. unfold Scrape.scrape_loop. apply loop_agree. split; reflexivity.
  - intros pre post resp -> Hpost. unfold Scrape.scrape_loop.
    rewrite fold_left_app. cbn [fold_left].
    set (a := fold_left step pre ([], [])).
    destruct (@loop_untouched post isin (step a (isin, resp)) Hpost) as (H1 & H2).
    destruct a as [files errors]. unfold Scrape.scrape_step in *.
    destruct (Scrape.scrape_one today isin resp) as [doc|msg]; cbn [fst snd] in *.
    + rewrite H1. apply get_set_same.
    + rewrite H2. apply get_set_same.
Qed.

Lemma set_not_nil (d : dict) (k : string) (v : pyval) : set d k v <> [].
Proof. destruct d as [|[k' v'] d]; cbn [set]; [|destruct (String.eqb k k')]; discriminate. Qed.

Lemma loop_errors (jobs : list (string * Scrape.response)) (a : Scrape.scrape_state) :
  snd (fold_left step jobs a) = [] <-> snd a = [] /\ Forall (Spec.succeeds today) jobs.
Proof.
  revert a; induction jobs as [|[isin resp] jobs IH]; intro a; cbn [fold_left].
  - split; [intro H; split; [exact H|constructor]|intros (H & _); exact H].
  - rewrite IH. destruct a as [files errors]. unfold Scrape.scrape_step.
    destruct (Scrape.scrape_one today isin resp) as [doc|msg] eqn:Eo; cbn [snd].
    + split; intros (H1 & H2); (split; [exact H1|]).
      * constructor; [exists doc; exact Eo|exact H2].
      * inversion H2; assumption.
    + split; intros (H1 & H2).
      * contradiction (@set_not_nil _ _ _ H1).
      * inversion H2 as [|? ? (doc & Hd) _]; subst. cbn [fst snd] in Hd. congruence.
Qed.

(** X22. The scraper ends with code 0 when every entry of the list gave
    its document and with code 2 as soon as one failed; an entry whose
    page shows no name fails, with the message of the missing name,
    whether or not its heat map could be fetched. *)
Theorem scrape_exit_code (jobs : list (string * Scrape.response)) :
  (Scrape.exit_code (Scrape.scrape_loop today jobs) = 0%Z <-> Forall (Spec.succeeds today) jobs)
  /\ (Scrape.exit_code (Scrape.scrape_loop today jobs) = 2%Z
      <-> Exists (fun job => ~ (Spec.succeeds today) job) jobs)
  /\ (forall r isin heatmap,
        Scrape.extract_first r "etf-profile-header_etf-name" = None ->
        Scrape.scrape_one today isin (Scrape.Profile r heatmap)
        = inr "Nom introuvable: page probablement invalide ou structure changee.").
Proof.
  assert (H0 : Scrape.exit_code (Scrape.scrape_loop today jobs) = 0%Z
               <-> Forall (Spec.succeeds today) jobs).
  { unfold Scrape.exit_code, Scrape.scrape_loop.
    pose proof (loop_errors jobs ([], [])) as H. cbn [snd] in H.
    destruct (snd (fold_left step jobs ([], []))) as [|e es].
    - split; [intros _; apply H; reflexivity|reflexivity].
    - split; [discriminate|]. intro Hall.
      assert (He : e :: es = []) by (apply H; split; [reflexivity|exact Hall]).
      discriminate He. }
  split; [exact H0|]. split.
  - assert (Hdec : forall job, (Spec.succeeds today) job \/ ~ (Spec.succeeds today) job).
    { intros [isin resp]. unfold Spec.succeeds. cbn [fst snd].
      destruct (Scrape.scrape_one today isin resp) as [doc|msg];
        [left; exists doc; reflexivity|right; intros (doc & H); discriminate H]. }
    assert (Hcode : Scrape.exit_code (Scrape.scrape_loop today jobs) = 0%Z
                    \/ Scrape.exit_code (Scrape.scrape_loop today jobs) = 2%Z).
    { unfold Scrape.exit_code. destruct (snd _); [left|right]; reflexivity. }
    split.
    + intro H2. apply Exists_exists.
      assert (Hn : ~ Forall (Spec.succeeds today) jobs) by (intro Hall; apply H0 in Hall; lia).
      clear - Hn Hdec. induction jobs as [|job jobs IH]; [contradiction Hn; constructor|].
      destruct (Hdec job) as [Hs|Hs].
      * destruct IH as (x & Hx & Hf).
        -- intro Hall. apply Hn. constructor; assumption.
        -- exists x. split; [right; exact Hx|exact Hf].
      * exists job. split; [left; reflexivity|exact Hs].
    + intro Hex. destruct Hcode as [Hc|Hc]; [|exact Hc].
      apply H0 in Hc. apply Exists_exists in Hex. destruct Hex as (x & Hx & Hf).
      rewrite Forall_forall in Hc. contradiction (Hf (Hc x Hx)).
  - intros r isin heatmap Hname. unfold Scrape.scrape_one.
    unfold Scrape.parse_profile_html. cbv zeta.
    change (get _ "nom") with (Scrape.of_text (Scrape.extract_first r "etf-profile-header_etf-name")).
    rewrite Hname. reflexivity.
Qed.

End ScrapeLoop.

(** ** The text of a number *)

Section NumberText.

Import Py.

Local Open Scope string_scope.

Lemma rstrip_length (q : ascii -> bool) (s : string) :
  (String.length (rstrip q s) <= String.length s)%nat.
Proof.
  induction s as [|c s IH]; [apply Nat.le_refl|]. cbn [rstrip].
  destruct (rstrip q s) as [|d r].
  - destruct (q c); cbn [String.length]; lia.
  - cbn [String.length] in *. lia.
Qed.

(** X23. The text of a number at a precision of at least one decimal is a
    sign for a negative number, the digits of the integer part and, when
    the rounded number is not whole, a comma and at most [ndigits]
    decimals, the last of which is not a zero; the text holds no point. *)
Theorem fmt_number_shape (x : R) (n : nat) :
  (1 <= n)%nat ->
  exists ip fp,
    ExportCsv.fmt_number (Some x) n
    = Spec.numeral (if Rlt_dec x 0 then true else false) ip fp ","
    /\ sall is_digit ip = true /\ ip <> EmptyString /\ sall is_digit fp = true
    /\ (String.length fp <= n)%nat
    /\ rstrip (is_char "0") fp = fp
    /\ sall (fun c => negb (is_char "." c)) (ExportCsv.fmt_number (Some x) n) = true.
Proof.
  intro Hn. rewrite fmt_number_unfold.
  set (a := Z.abs (round_half_even (x * 10 ^ n))).
  set (sign := if Rlt_dec x 0 then "-" else EmptyString).
  assert (Ha : (0 <= a)%Z) by apply Z.abs_nonneg.
  assert (HP : (0 < 10 ^ Z.of_nat n)%Z) by (apply Z.pow_pos_nonneg; lia).
  destruct (@digits_of_spec (a / 10 ^ Z.of_nat n)%Z) as (Hip & Hne & Hv);
    [apply Z.div_pos; lia|].
  destruct (pad_digits_spec n (a mod 10 ^ Z.of_nat n) EmptyString)
    as (fp0 & Hpad & Hfp0 & Hlen & Hv0).
  rewrite append_nil_r in Hpad.
  set (ip := digits_of (a / 10 ^ Z.of_nat n)) in *.
  set (fp := rstrip (is_char "0") fp0).
  assert (Hfp : sall is_digit fp = true) by (apply sall_rstrip; exact Hfp0).
  assert (Htext : replace_char "." ","
                    (rstrip (is_char ".") (rstrip (is_char "0") (sign ++ fixed a n)))
                  = Spec.numeral (if Rlt_dec x 0 then true else false) ip fp ",").
  { unfold fixed. fold ip. destruct n as [|n']; [lia|]. rewrite Hpad.
    assert (H1 : rstrip (is_char "0") (sign ++ ip ++ String "." fp0)
                 = sign ++ ip ++ String "." fp).
    { assert (E1 : rstrip (is_char "0") (String "." fp0) = String "." fp)
        by (apply rstrip_keep; reflexivity).
      assert (E2 : rstrip (is_char "0") (ip ++ String "." fp0) = ip ++ String "." fp).
      { rewrite rstrip_app_keep; rewrite E1; [reflexivity|discriminate]. }
      rewrite rstrip_app_keep; rewrite E2; [reflexivity|].
      destruct ip; [contradiction|discriminate]. }
    rewrite H1.
    assert (Hipdot : rstrip (is_char ".") ip = ip)
      by (apply (@rstrip_id is_digit); [apply digit_not_dot|exact Hip]).
    assert (Hfpdot : rstrip (is_char ".") fp = fp)
      by (apply (@rstrip_id is_digit); [apply digit_not_dot|exact Hfp]).
    assert (H2 : rstrip (is_char ".") (sign ++ ip ++ String "." fp)
                 = sign ++ ip ++ match fp with EmptyString => EmptyString | _ => String "." fp end).
    { destruct fp as [|f fp'] eqn:Efp.
      - assert (E2 : rstrip (is_char ".") (ip ++ String "." EmptyString) = ip).
        { rewrite rstrip_app_drop; [exact Hipdot|reflexivity]. }
        rewrite rstrip_app_keep; rewrite E2; [|exact Hne].
        rewrite (append_nil_r ip). reflexivity.
      - assert (Hk : rstrip (is_char ".") (String "." (String f fp')) = String "." (String f fp')).
        { change (rstrip (is_char ".") (String "." (String f fp')))
            with (match rstrip (is_char ".") (String f fp') with
                  | EmptyString => EmptyString
                  | r => String "." r
                  end).
          rewrite Hfpdot. reflexivity. }
        assert (E2 : rstrip (is_char ".") (ip ++ String "." (String f fp'))
                     = ip ++ String "." (String f fp')).
        { rewrite rstrip_app_keep; rewrite Hk; [reflexivity|discriminate]. }
        rewrite rstrip_app_keep; rewrite E2; [reflexivity|].
        destruct ip; [contradiction|discriminate]. }
    rewrite H2. unfold replace_char, Spec.numeral. rewrite !smap_append.
    rewrite (@smap_id is_digit _ ip digit_dot_to_comma Hip).
    assert (Hs : smap (fun c => if Ascii.eqb c "." then ","%char else c) sign = sign)
      by (unfold sign; destruct (Rlt_dec x 0); reflexivity).
    rewrite Hs. unfold sign. destruct (Rlt_dec x 0); f_equal; f_equal;
      (destruct fp as [|f fp']; [reflexivity|]; cbn [smap];
       change (Ascii.eqb "." ".") with true; cbv iota;
       cbn [sall] in Hfp; apply andb_true_iff in Hfp; destruct Hfp as (Hf & Hfp');
       rewrite (digit_dot_to_comma f Hf), (@smap_id is_digit _ fp' digit_dot_to_comma Hfp');
       reflexivity). }
  exists ip, fp. rewrite Htext.
  split; [reflexivity|]. split; [exact Hip|]. split; [exact Hne|]. split; [exact Hfp|].
  split; [|split].
  - unfold fp. rewrite <- Hlen. apply rstrip_length.
  - unfold fp. apply rstrip_idem.
  - assert (Hd : forall s, sall is_digit s = true ->
                   sall (fun c => negb (is_char "." c)) s = true).
    { intros s Hs. apply (@sall_impl is_digit); [|exact Hs].
      intros c Hc. rewrite (digit_not_dot c Hc). reflexivity. }
    unfold Spec.numeral. rewrite !sall_app, (Hd ip Hip).
    pose proof (Hd fp Hfp) as Hfp2. clearbody fp.
    destruct (Rlt_dec x 0), fp as [|f fp']; cbn [sall] in *;
      change (is_char "." "-") with false; change (is_char "." ",") with false;
      cbn [andb negb]; try reflexivity; exact Hfp2.
Qed.

End NumberText.

(** ** Launch dates in French *)

Section FrenchDates.

Import Py.

Local Open Scope string_scope.

Lemma digit_plain : forall c, is_digit c = true -> Spec.is_plain c = true.
Proof. by_cases_on_ascii. Qed.

Lemma small_plain : forall c, Spec.is_small c = true -> Spec.is_plain c = true.
Proof. by_cases_on_ascii. Qed.

Lemma small_alpha : forall c, Spec.is_small c = true -> is_alpha c = true.
Proof. by_cases_on_ascii. Qed.

Lemma small_not_digit : forall c, Spec.is_small c = true -> is_digit c = false.
Proof. by_cases_on_ascii. Qed.

Lemma foreign_plain : forall c, Spec.is_foreign c = true -> Spec.is_plain c = true.
Proof. by_cases_on_ascii. Qed.

Lemma foreign_not_alpha : forall c, Spec.is_foreign c = true -> is_alpha c = false.
Proof. by_cases_on_ascii. Qed.

Lemma foreign_not_space : forall c, Spec.is_foreign c = true -> is_space c = false.
Proof. by_cases_on_ascii. Qed.

Lemma foreign_not_digit : forall c, Spec.is_foreign c = true -> is_digit c = false.
Proof. by_cases_on_ascii. Qed.

Lemma plain_not_space : forall c, Spec.is_plain c = true -> is_space c = false.
Proof. by_cases_on_ascii. Qed.

Lemma plain_not_nbsp : forall c, Spec.is_plain c = true -> Ascii.eqb c nbsp = false.
Proof. by_cases_on_ascii. Qed.

Lemma plain_lower : forall c, Spec.is_plain c = true -> lower_char c = c.
Proof.
  intros c H. unfold Spec.is_plain in H. apply andb_true_iff in H.
  apply Ascii.eqb_eq, H.
Qed.

(** A text of three plain words a blank apart is as [clean_text] and
    [lower] leave it. *)
Lemma normal_text (a m y : string) :
  sall Spec.is_plain a = true -> a <> EmptyString ->
  sall Spec.is_plain m = true -> m <> EmptyString ->
  sall Spec.is_plain y = true -> y <> EmptyString ->
  lower (Scrape.clean_text (a ++ " " ++ m ++ " " ++ y)) = a ++ " " ++ m ++ " " ++ y.
Proof.
  intros Ha Hane Hm Hmne Hy Hyne.
  assert (Hns : forall s, sall Spec.is_plain s = true ->
                  sall (fun x => negb (is_space x)) s = true).
  { intros s Hs. apply (@sall_impl Spec.is_plain); [|exact Hs].
    intros c Hc. rewrite (plain_not_space c Hc). reflexivity. }
  assert (Hall : sall (fun c => Spec.is_plain c || Ascii.eqb c " ")
                   (a ++ " " ++ m ++ " " ++ y) = true).
  { assert (Hw : forall s, sall Spec.is_plain s = true ->
                   sall (fun c => Spec.is_plain c || Ascii.eqb c " ") s = true).
    { intros s Hs. apply (@sall_impl Spec.is_plain); [|exact Hs].
      intros c Hc. rewrite Hc. reflexivity. }
    rewrite !sall_app, (Hw a Ha), (Hw m Hm), (Hw y Hy). reflexivity. }
  unfold Scrape.clean_text, replace_char.
  rewrite (@smap_id (fun c => Spec.is_plain c || Ascii.eqb c " ")); [| |exact Hall].
  2:{ intros c Hc. apply orb_true_iff in Hc. destruct Hc as [Hc|Hc].
      - rewrite (plain_not_nbsp c Hc). reflexivity.
      - apply Ascii.eqb_eq in Hc. subst c. reflexivity. }
  assert (Hcol : collapse_spaces false (a ++ " " ++ m ++ " " ++ y)
                 = a ++ " " ++ m ++ " " ++ y).
  { destruct a as [|a0 a']; [contradiction|]. destruct m as [|m0 m']; [contradiction|].
    assert (Hb : forall t, collapse_spaces false (" " ++ t) = " " ++ collapse_spaces true t)
      by reflexivity.
    rewrite (@collapse_spaces_app false a0 a' _ (Hns _ Ha)), Hb.
    rewrite (@collapse_spaces_app true m0 m' _ (Hns _ Hm)), Hb.
    rewrite (@collapse_spaces_id Spec.is_plain true y plain_not_space Hy). reflexivity. }
  rewrite Hcol. unfold strip.
  assert (Hl : lstrip is_space (a ++ " " ++ m ++ " " ++ y) = a ++ " " ++ m ++ " " ++ y).
  { destruct a as [|a0 a']; [contradiction|]. cbn [append lstrip].
    cbn [sall] in Ha. apply andb_true_iff in Ha.
    rewrite (plain_not_space a0 (proj1 Ha)). reflexivity. }
  rewrite Hl.
  assert (Hr : rstrip is_space (a ++ " " ++ m ++ " " ++ y) = a ++ " " ++ m ++ " " ++ y).
  { pose proof (@rstrip_id Spec.is_plain is_space y plain_not_space Hy) as Hy'.
    rewrite <- !append_assoc. rewrite rstrip_app_keep; rewrite Hy'; [reflexivity|exact Hyne]. }
  rewrite Hr. unfold lower.
  apply (@smap_id (fun c => Spec.is_plain c || Ascii.eqb c " ")); [|exact Hall].
  intros c Hc. apply orb_true_iff in Hc. destruct Hc as [Hc|Hc].
  - apply plain_lower, Hc.
  - apply Ascii.eqb_eq in Hc. subst c. reflexivity.
Qed.

Lemma parse_french_date_unfold (value : string) :
  value <> EmptyString ->
  Scrape.parse_french_date (Some value)
  = match Scrape.search_french_date (lower (Scrape.clean_text value)) with
    | None => None
    | Some (g1, g2, g3) =>
        match Scrape.month_index Scrape.MONTH_INDEX g2 with
        | None => None
        | Some month => Date.date_checked (digits_val 0 g3) month (digits_val 0 g1)
        end
    end.
Proof. intro H. destruct value; [contradiction|reflexivity]. Qed.

Lemma search_french_date_unfold (s : string) :
  Scrape.search_french_date s
  = match Scrape.match_french_date s with
    | Some m => Some m
    | None =>
        match s with
        | EmptyString => None
        | String _ s' => Scrape.search_french_date s'
        end
    end.
Proof. destruct s; reflexivity. Qed.

Lemma blank_not_digit : is_digit " " = false.
Proof. reflexivity. Qed.

Lemma take_day_start (a : ascii) (b : option ascii) (w : string) :
  is_digit a = true ->
  match b with Some b => is_digit b = true | None => True end ->
  Scrape.take_day (Spec.day_text a b ++ " " ++ w)
  = Some (Spec.day_text a b, " " ++ w).
Proof.
  intros Ha Hb. unfold Spec.day_text. destruct b as [b|]; cbn [append Scrape.take_day];
    rewrite Ha, ?Hb; reflexivity.
Qed.

Lemma day_plain (a : ascii) (b : option ascii) :
  is_digit a = true ->
  match b with Some b => is_digit b = true | None => True end ->
  sall Spec.is_plain (Spec.day_text a b) = true /\ Spec.day_text a b <> EmptyString.
Proof.
  intros Ha Hb. split; [|discriminate]. unfold Spec.day_text.
  destruct b as [b|]; cbn [sall]; rewrite (digit_plain a Ha), ?(digit_plain b Hb); reflexivity.
Qed.

Lemma year_plain (y1 y2 y3 y4 : ascii) :
  is_digit y1 = true -> is_digit y2 = true -> is_digit y3 = true -> is_digit y4 = true ->
  sall Spec.is_plain (Spec.year_text y1 y2 y3 y4) = true.
Proof.
  intros H1 H2 H3 H4. cbn [Spec.year_text sall].
  rewrite (digit_plain y1 H1), (digit_plain y2 H2), (digit_plain y3 H3), (digit_plain y4 H4).
  reflexivity.
Qed.

(** X24. A launch date written as a day of one or two digits, a blank,
    a word of small ASCII letters, a blank and a year of four digits is
    read as the date of that day in the month the table has for the
    word, when the calendar has such a day; nothing is read when the
    table does not have the word or the calendar does not have the
    day. *)
Theorem parse_french_date_reads (a : ascii) (b : option ascii) (y1 y2 y3 y4 : ascii)
  (token : string) :
  is_digit a = true ->
  match b with Some b => is_digit b = true | None => True end ->
  is_digit y1 = true -> is_digit y2 = true -> is_digit y3 = true -> is_digit y4 = true ->
  sall Spec.is_small token = true -> token <> EmptyString ->
  Scrape.parse_french_date
    (Some (Spec.day_text a b ++ " " ++ token ++ " " ++ Spec.year_text y1 y2 y3 y4))
  = match Scrape.month_index Scrape.MONTH_INDEX token with
    | Some month =>
        Date.date_checked (digits_val 0 (Spec.year_text y1 y2 y3 y4)) month
          (digits_val 0 (Spec.day_text a b))
    | None => None
    end.
Proof.
  intros Ha Hb H1 H2 H3 H4 Ht Htne.
  destruct (@day_plain a b Ha Hb) as (Hdp & Hdne).
  pose proof (@year_plain y1 y2 y3 y4 H1 H2 H3 H4) as Hyp.
  rewrite parse_french_date_unfold
    by (unfold Spec.day_text; cbn [append]; discriminate).
  rewrite normal_text;
    [|exact Hdp|exact Hdne|apply (@sall_impl Spec.is_small); [apply small_plain|exact Ht]
     |exact Htne|exact Hyp|discriminate].
  rewrite search_french_date_unfold.
  assert (Hm : Scrape.match_french_date
                 (Spec.day_text a b ++ " " ++ token ++ " " ++ Spec.year_text y1 y2 y3 y4)
               = Some (Spec.day_text a b, token, Spec.year_text y1 y2 y3 y4)).
  { unfold Scrape.match_french_date. rewrite (@take_day_start a b _ Ha Hb).
    rewrite (@span_app is_space " " (token ++ " " ++ Spec.year_text y1 y2 y3 y4));
      [|reflexivity|].
    2:{ destruct token as [|t0 t']; [contradiction|]. cbn [append].
        cbn [sall] in Ht. apply andb_true_iff in Ht.
        apply plain_not_space, small_plain, Ht. }
    rewrite (@span_app is_alpha token (" " ++ Spec.year_text y1 y2 y3 y4));
      [|apply (@sall_impl Spec.is_small); [apply small_alpha|exact Ht]|reflexivity].
    rewrite (@span_app is_space " " (Spec.year_text y1 y2 y3 y4));
      [|reflexivity|cbn [Spec.year_text]; apply plain_not_space, digit_plain, H1].
    cbn [Spec.year_text Scrape.take_year]. rewrite H1, H2, H3, H4. cbn [andb].
    destruct token; [contradiction|reflexivity]. }
  rewrite Hm. reflexivity.
Qed.

Lemma match_french_date_nondigit (c : ascii) (s : string) :
  is_digit c = false -> Scrape.match_french_date (String c s) = None.
Proof. intro H. unfold Scrape.match_french_date. cbn [Scrape.take_day]. rewrite H. reflexivity. Qed.

Lemma search_french_date_skip (s t : string) :
  sall (fun c => negb (is_digit c)) s = true ->
  Scrape.search_french_date (s ++ t) = Scrape.search_french_date t.
Proof.
  induction s as [|c s IH]; intro H; [reflexivity|].
  cbn [sall] in H. apply andb_true_iff in H. destruct H as (Hc & Hs).
  apply negb_true_iff in Hc. cbn [append].
  rewrite search_french_date_unfold, (@match_french_date_nondigit c _ Hc). apply IH, Hs.
Qed.

(** Without a blank behind the day the pattern does not match. *)
Lemma match_french_date_no_blank (s day r : string) :
  Scrape.take_day s = Some (day, r) ->
  match r with EmptyString => True | String c _ => is_space c = false end ->
  Scrape.match_french_date s = None.
Proof.
  intros Hd Hr. unfold Scrape.match_french_date. rewrite Hd.
  destruct r as [|c r'].
  - reflexivity.
  - cbn [span]. rewrite Hr.
    destruct (span is_alpha (String c r')) as [token r3].
    destruct (span is_space r3) as [sp2 r4]. reflexivity.
Qed.

(** No date starts inside a year that ends the text. *)
Lemma search_french_date_year (y1 y2 y3 y4 : ascii) :
  is_digit y1 = true -> is_digit y2 = true -> is_digit y3 = true -> is_digit y4 = true ->
  Scrape.search_french_date (Spec.year_text y1 y2 y3 y4) = None.
Proof.
  intros H1 H2 H3 H4.
  pose proof (digit_not_space y3 H3) as S3. pose proof (digit_not_space y4 H4) as S4.
  unfold Spec.year_text.
  rewrite search_french_date_unfold,
    (@match_french_date_no_blank _ (String y1 (String y2 EmptyString))
       (String y3 (String y4 EmptyString)));
    [|cbn [Scrape.take_day]; rewrite H1, H2; reflexivity|exact S3].
  rewrite search_french_date_unfold,
    (@match_french_date_no_blank _ (String y2 (String y3 EmptyString))
       (String y4 EmptyString));
    [|cbn [Scrape.take_day]; rewrite H2, H3; reflexivity|exact S4].
  rewrite search_french_date_unfold,
    (@match_french_date_no_blank _ (String y3 (String y4 EmptyString)) EmptyString);
    [|cbn [Scrape.take_day]; rewrite H3, H4; reflexivity|exact I].
  rewrite search_french_date_unfold,
    (@match_french_date_no_blank _ (String y4 EmptyString) EmptyString);
    [|cbn [Scrape.take_day]; rewrite H4; reflexivity|exact I].
  reflexivity.
Qed.

(** With a character that is no ASCII letter inside the word, the
    pattern does not match at the day. *)
Lemma match_french_date_foreign (day pre post rest : string) (c : ascii) (s : string) :
  Scrape.take_day s = Some (day, " " ++ pre ++ String c post ++ rest) ->
  sall Spec.is_small pre = true -> Spec.is_foreign c = true ->
  Scrape.match_french_date s = None.
Proof.
  intros Hd Hpre Hc. unfold Scrape.match_french_date. rewrite Hd.
  rewrite (@span_app is_space " " (pre ++ String c post ++ rest)); [|reflexivity|].
  2:{ destruct pre as [|p0 pre']; cbn [append].
      - apply foreign_not_space, Hc.
      - cbn [sall] in Hpre. apply andb_true_iff in Hpre.
        apply plain_not_space, small_plain, Hpre. }
  rewrite (@span_app is_alpha pre (String c post ++ rest));
    [|apply (@sall_impl Spec.is_small); [apply small_alpha|exact Hpre]
     |cbn [append]; apply foreign_not_alpha, Hc].
  cbn [append span]. rewrite (foreign_not_space c Hc).
  destruct pre; reflexivity.
Qed.

(** X25. A launch date whose month is written with an accented letter,
    as the names of February, August and December are in French, is not
    read: the pattern takes ASCII letters only and the accents are
    replaced after the match, so such a fund gets no launch date and no
    estimate of its rate. *)
Theorem parse_french_date_accent (a : ascii) (b : option ascii) (y1 y2 y3 y4 c : ascii)
  (pre post : string) :
  is_digit a = true ->
  match b with Some b => is_digit b = true | None => True end ->
  is_digit y1 = true -> is_digit y2 = true -> is_digit y3 = true -> is_digit y4 = true ->
  sall Spec.is_small pre = true -> Spec.is_foreign c = true ->
  sall Spec.is_small post = true ->
  Scrape.parse_french_date
    (Some (Spec.day_text a b ++ " " ++ (pre ++ String c post) ++ " "
             ++ Spec.year_text y1 y2 y3 y4))
  = None.
Proof.
  intros Ha Hb H1 H2 H3 H4 Hpre Hc Hpost.
  destruct (@day_plain a b Ha Hb) as (Hdp & Hdne).
  pose proof (@year_plain y1 y2 y3 y4 H1 H2 H3 H4) as Hyp.
  set (year := Spec.year_text y1 y2 y3 y4) in *.
  assert (Hmid : sall Spec.is_plain (pre ++ String c post) = true).
  { rewrite sall_app. cbn [sall].
    rewrite (@sall_impl Spec.is_small _ pre small_plain Hpre),
      (@sall_impl Spec.is_small _ post small_plain Hpost), (foreign_plain c Hc).
    reflexivity. }
  rewrite parse_french_date_unfold
    by (unfold Spec.day_text; cbn [append]; discriminate).
  rewrite normal_text;
    [|exact Hdp|exact Hdne|exact Hmid|destruct pre; discriminate|exact Hyp|discriminate].
  assert (Hsearch : Scrape.search_french_date
                      (Spec.day_text a b ++ " " ++ (pre ++ String c post) ++ " " ++ year)
                    = None).
  { assert (Htail : Scrape.search_french_date
                      (" " ++ (pre ++ String c post) ++ " " ++ year) = None).
    { rewrite <- !append_assoc. rewrite search_french_date_skip.
      - apply search_french_date_year; assumption.
      - rewrite !sall_app. cbn [sall].
        rewrite (@sall_impl Spec.is_small _ pre) by
          (try exact Hpre; intros x Hx; rewrite (small_not_digit x Hx); reflexivity).
        rewrite (@sall_impl Spec.is_small _ post) by
          (try exact Hpost; intros x Hx; rewrite (small_not_digit x Hx); reflexivity).
        rewrite (foreign_not_digit c Hc). reflexivity. }
    assert (Hw : " " ++ (pre ++ String c post) ++ " " ++ year
                 = " " ++ pre ++ String c post ++ " " ++ year)
      by (rewrite !append_assoc; reflexivity).
    unfold Spec.day_text. destruct b as [b|].
    - cbn [append]. rewrite search_french_date_unfold.
      rewrite (@match_french_date_foreign (String a (String b EmptyString)) pre post
                 (" " ++ year) c);
        [|cbn [Scrape.take_day]; rewrite Ha, Hb; rewrite <- Hw; reflexivity
         |exact Hpre|exact Hc].
      rewrite search_french_date_unfold.
      rewrite (@match_french_date_foreign (String b EmptyString) pre post
                 (" " ++ year) c);
        [|cbn [Scrape.take_day]; rewrite Hb; rewrite <- Hw; reflexivity
         |exact Hpre|exact Hc].
      exact Htail.
    - cbn [append]. rewrite search_french_date_unfold.
      rewrite (@match_french_date_foreign (String a EmptyString) pre post
                 (" " ++ year) c);
        [|cbn [Scrape.take_day]; rewrite Ha; rewrite <- Hw; reflexivity
         |exact Hpre|exact Hc].
      exact Htail. }
  rewrite Hsearch. reflexivity.
Qed.

End FrenchDates.

(** ** The text normaliser *)

Section CleanText.

Import Py.
Import Spec.

Local Open Scope string_scope.

Lemma collapse_shape (b : bool) (u : string) :
  single_spaced (collapse_spaces b u) = true
  /\ (b = true -> starts_with_space (collapse_spaces b u) = false).
Proof.
  revert b; induction u as [|c u IH]; intro b; [split; reflexivity|].
  cbn [collapse_spaces]. destruct (is_space c) eqn:Ec.
  - destruct b.
    + apply IH.
    + destruct (IH true) as (H1 & H2). split; [|discriminate].
      cbn [single_spaced]. change (is_space " ") with true. cbv iota.
      rewrite (H2 eq_refl), H1. reflexivity.
  - destruct (IH false) as (H1 & _). split.
    + cbn [single_spaced]. rewrite Ec, H1. reflexivity.
    + intros _. cbn [starts_with_space]. exact Ec.
Qed.

Lemma single_spaced_tail (c : ascii) (s : string) :
  single_spaced (String c s) = true -> single_spaced s = true.
Proof. cbn [single_spaced]. intro H. apply andb_true_iff in H. apply H. Qed.

Lemma lstrip_single (s : string) :
  single_spaced s = true -> single_spaced (lstrip is_space s) = true.
Proof.
  induction s as [|c s IH]; intro H; [reflexivity|]. cbn [lstrip].
  destruct (is_space c); [apply IH, (@single_spaced_tail c s H)|exact H].
Qed.

Lemma lstrip_start (s : string) : starts_with_space (lstrip is_space s) = false.
Proof.
  pose proof (lstrip_head is_space s) as H.
  destruct (lstrip is_space s); [reflexivity|exact H].
Qed.

Lemma rstrip_first (q : ascii -> bool) (s : string) (d : ascii) (r : string) :
  rstrip q s = String d r -> exists t, s = String d t.
Proof.
  destruct s as [|c s]; [discriminate|]. cbn [rstrip].
  destruct (rstrip q s); [destruct (q c)|]; intro H; try discriminate;
    injection H as -> _; eexists; reflexivity.
Qed.

Lemma rstrip_start (s : string) :
  starts_with_space s = false -> starts_with_space (rstrip is_space s) = false.
Proof.
  intro H. destruct (rstrip is_space s) as [|d r] eqn:Er; [reflexivity|].
  destruct (@rstrip_first _ _ _ _ Er) as (t & ->). exact H.
Qed.

Lemma rstrip_single (s : string) :
  single_spaced s = true -> single_spaced (rstrip is_space s) = true.
Proof.
  induction s as [|c s IH]; intro H; [reflexivity|].
  pose proof (@single_spaced_tail c s H) as Hs. specialize (IH Hs).
  cbn [rstrip]. destruct (rstrip is_space s) as [|d r] eqn:Er.
  - destruct (is_space c) eqn:Ec; [reflexivity|]. cbn [single_spaced]. rewrite Ec. reflexivity.
  - destruct (@rstrip_first _ _ _ _ Er) as (t & ->).
    cbn [single_spaced starts_with_space] in H |- *.
    apply andb_true_iff in H. destruct H as (Hc & _).
    cbn [single_spaced] in IH. rewrite Hc, IH. reflexivity.
Qed.

Lemma rstrip_end (s : string) : ends_with_space (rstrip is_space s) = false.
Proof.
  induction s as [|c s IH]; [reflexivity|]. cbn [rstrip].
  destruct (rstrip is_space s) as [|d r] eqn:Er.
  - destruct (is_space c) eqn:Ec; [reflexivity|]. cbn [ends_with_space]. exact Ec.
  - exact IH.
Qed.

Lemma rstrip_fixed (s : string) : ends_with_space s = false -> rstrip is_space s = s.
Proof.
  induction s as [|c s IH]; intro H; [reflexivity|]. cbn [rstrip].
  destruct s as [|d s'].
  - cbn [ends_with_space] in H. cbn [rstrip]. rewrite H. reflexivity.
  - rewrite IH by exact H. reflexivity.
Qed.

Lemma collapse_fixed (b : bool) (s : string) :
  single_spaced s = true -> (b = true -> starts_with_space s = false) ->
  collapse_spaces b s = s.
Proof.
  revert b; induction s as [|c s IH]; intros b H Hb; [reflexivity|].
  cbn [collapse_spaces]. cbn [single_spaced] in H. apply andb_true_iff in H.
  destruct H as (Hc & Hs). destruct (is_space c) eqn:Ec.
  - apply andb_true_iff in Hc. destruct Hc as (Hc & Hn). apply Ascii.eqb_eq in Hc. subst c.
    destruct b; [specialize (Hb eq_refl); cbn [starts_with_space] in Hb; congruence|].
    f_equal. apply IH; [exact Hs|]. intros _. apply negb_true_iff, Hn.
  - f_equal. apply IH; [exact Hs|discriminate].
Qed.

Lemma space_blank_or_not : forall c, is_space c = true -> Ascii.eqb c " " = true ->
  Ascii.eqb c nbsp = false.
Proof. by_cases_on_ascii. Qed.

Lemma nbsp_free (s : string) :
  single_spaced s = true -> replace_char nbsp " " s = s.
Proof.
  unfold replace_char. induction s as [|c s IH]; intro H; [reflexivity|].
  cbn [smap]. rewrite (IH (@single_spaced_tail c s H)). f_equal.
  cbn [single_spaced] in H. apply andb_true_iff in H. destruct H as (Hc & _).
  destruct (is_space c) eqn:Ec.
  - apply andb_true_iff in Hc. rewrite (space_blank_or_not c Ec (proj1 Hc)). reflexivity.
  - assert (Hn : Ascii.eqb c nbsp = false).
    { destruct (Ascii.eqb_spec c nbsp) as [->|]; [discriminate Ec|reflexivity]. }
    rewrite Hn. reflexivity.
Qed.

(** X26. The text normaliser of both programs leaves words a single blank
    apart: every white space character of its result is a blank, no two
    are adjacent and none starts or ends the text; a text of that form is
    left as it is, so that normalising twice changes nothing. *)
Theorem clean_spaces_tidy (s : string) :
  tidy (ExportCsv.clean_spaces s) = true
  /\ (tidy s = true -> ExportCsv.clean_spaces s = s)
  /\ ExportCsv.clean_spaces (ExportCsv.clean_spaces s) = ExportCsv.clean_spaces s
  /\ Scrape.clean_text s = ExportCsv.clean_spaces s.
Proof.
  assert (H1 : tidy (ExportCsv.clean_spaces s) = true).
  { unfold ExportCsv.clean_spaces, strip, tidy.
    destruct (collapse_shape false (replace_char nbsp " " s)) as (Hc & _).
    rewrite (@rstrip_single _ (@lstrip_single _ Hc)).
    rewrite (@rstrip_start _ (lstrip_start _)), rstrip_end. reflexivity. }
  assert (H2 : forall t, tidy t = true -> ExportCsv.clean_spaces t = t).
  { intros t Ht. unfold tidy in Ht. apply andb_true_iff in Ht. destruct Ht as (Ht & He).
    apply andb_true_iff in Ht. destruct Ht as (Hs & Hb).
    apply negb_true_iff in He. apply negb_true_iff in Hb.
    unfold ExportCsv.clean_spaces, strip.
    rewrite (@nbsp_free t Hs), (@collapse_fixed false t Hs) by discriminate.
    assert (Hl : lstrip is_space t = t).
    { destruct t as [|c t']; [reflexivity|]. cbn [lstrip]. cbn [starts_with_space] in Hb.
      rewrite Hb. reflexivity. }
    rewrite Hl. apply rstrip_fixed, He. }
  split; [exact H1|]. split; [apply H2|]. split; [apply H2, H1|reflexivity].
Qed.

End CleanText.

(** ** Instances *)

Section Instances.

Import Py.

Local Open Scope string_scope.

Lemma write_projection_csv_size_witness :
  exists m,
    ExportCsv.write_projection_csv Samples.plain_helpers Samples.five_rows 30
      10000 (2 / 100) 0 = Ok m
    /\ List.length m = 86%nat
    /\ Forall (fun row => List.length row = 6%nat) m.
Proof.
  apply (@write_projection_csv_size Samples.plain_helpers Samples.five_rows 30
           10000%R (2 / 100)%R 0%R).
  cbn [Samples.five_rows List.length]. lia.
Defined.

Lemma write_projection_csv_columns_witness :
  exists m,
    ExportCsv.write_projection_csv Samples.plain_helpers Samples.five_rows 30
      10000 (2 / 100) 0 = Ok m
    /\ Spec.cell m 7 2 = "IE00B5BMR087"
    /\ Spec.cell m 12 2 = "IE00B5BMR087"
    /\ Spec.cell m 82 0 = "IE00B5BMR087".
Proof.
  destruct (@write_projection_csv_columns Samples.plain_helpers Samples.five_rows 30
              10000%R (2 / 100)%R 0%R) as (m & Hm & Hc);
    [cbn [Samples.five_rows List.length]; lia|].
  exists m. split; [exact Hm|].
  destruct (Hc 1%nat _ eq_refl) as (_ & H7 & H12 & _ & Hs & _).
  split; [exact H7|split; [exact H12|exact Hs]].
Defined.

Lemma write_projection_csv_net_rate_witness :
  exists m,
    ExportCsv.write_projection_csv Samples.plain_helpers Samples.five_rows 30
      10000 (2 / 100) 0 = Ok m
    /\ Spec.cell m 4 1 = "30"
    /\ Spec.cell m 10 1 = "=(1+B9)*(1-B10)/(1+$B$3)-1".
Proof.
  destruct (@write_projection_csv_net_rate Samples.plain_helpers Samples.five_rows 30
              10000%R (2 / 100)%R 0%R) as (m & Hm & _ & _ & _ & H4 & H10);
    [cbn [Samples.five_rows List.length]; lia|].
  exists m. split; [exact Hm|]. split; [exact H4|].
  apply (H10 0%nat). cbn [Samples.five_rows List.length]. lia.
Defined.

Lemma write_projection_csv_summary_witness :
  exists m,
    ExportCsv.write_projection_csv Samples.plain_helpers Samples.five_rows 30
      10000 (2 / 100) 0 = Ok m
    /\ Spec.cell m 81 2 = "=B44"
    /\ Spec.cell m 81 3 = "=B78"
    /\ Spec.cell m 81 4 = "=D82-C82"
    /\ Spec.cell m 81 5 = "=E82/D82".
Proof.
  destruct (@write_projection_csv_summary Samples.plain_helpers Samples.five_rows 30
              10000%R (2 / 100)%R 0%R) as (m & Hm & Hs);
    [cbn [Samples.five_rows List.length]; lia|].
  exists m. split; [exact Hm|].
  apply (Hs 0%nat). cbn [Samples.five_rows List.length]. lia.
Defined.

Lemma write_projection_csv_growth_witness :
  exists m,
    ExportCsv.write_projection_csv Samples.plain_helpers Samples.five_rows 30
      10000 (2 / 100) 0 = Ok m
    /\ Spec.cell m 14 0 = "1"
    /\ Spec.cell m 14 1 = "=B14*(1+B$11)+$B$4*12"
    /\ Spec.cell m 48 1 = "=B48*(1+B$9)+$B$4*12".
Proof.
  destruct (@write_projection_csv_growth Samples.plain_helpers Samples.five_rows 30
              10000%R (2 / 100)%R 0%R) as (m & Hm & Hg);
    [cbn [Samples.five_rows List.length]; lia|].
  exists m. split; [exact Hm|].
  destruct (Hg 1%nat) as (H0 & _ & Hj); [lia|].
  destruct (Hj 0%nat) as (Ha & Hb); [cbn [Samples.five_rows List.length]; lia|].
  split; [exact H0|split; [exact Ha|exact Hb]].
Defined.

Lemma excel_col_name_witness :
  ExportCsv.excel_col_name 53 = "BA" /\ Spec.col_index "BA" = 53%nat.
Proof.
  destruct (excel_col_name_spec 53) as (_ & _ & _ & H & _).
  split; [reflexivity|]. exact H.
Defined.

Lemma fmt_number_whole_witness :
  ExportCsv.fmt_number (Some 12%R) 4 = "12" /\ ExportCsv.fmt_number (Some 0%R) 4 = "0".
Proof.
  split.
  - destruct (@fmt_number_whole 12 4) as (H & _); [lia|]. rewrite H. reflexivity.
  - destruct (@fmt_number_whole 0 4) as (H & _); [lia|]. rewrite H. reflexivity.
Defined.

Lemma parse_aum_meur_nonneg_witness :
  exists y, ExportCsv.parse_aum_meur (PStr "-5") = Ok (Some y) /\ (0 <= y)%R.
Proof.
  assert (H : ExportCsv.parse_aum_meur (PStr "-5")
              = Ok (Some (IZR (digits_val 0 "5") + Spec.frac EmptyString)%R)).
  { unfold ExportCsv.parse_aum_meur. cbn [truthy String.eqb negb].
    rewrite <- (@parse_aum_numeral true "5" EmptyString); reflexivity || discriminate. }
  eexists. split; [exact H|]. apply (parse_aum_meur_nonneg _ H).
Defined.

Lemma parse_aum_meur_units_witness :
  ExportCsv.parse_aum_meur (PStr "1,5 Mrd")
  = Ok (Some ((IZR (digits_val 0 "1") + Spec.frac "5") * 1000)%R).
Proof.
  apply (@parse_aum_meur_units "1" "5" " " "Mrd");
    try reflexivity; try discriminate. right. reflexivity.
Defined.

Lemma parse_percent_digits_witness :
  (exists y, ExportCsv.parse_percent (PStr "+12,5 % p.a.") = Ok (Some y))
  /\ ExportCsv.parse_percent (PStr "n/a") = Ok None.
Proof.
  split.
  - apply (proj2 (parse_percent_digits "+12,5 % p.a.")). reflexivity.
  - apply (proj1 (parse_percent_digits "n/a")). reflexivity.
Defined.

Lemma parse_percent_text_digits_witness :
  (exists y, Scrape.parse_percent_text (Some "+100,00 %") = Some y)
  /\ Scrape.parse_percent_text (Some "-") = None.
Proof.
  split.
  - apply (proj2 (parse_percent_text_digits "+100,00 %")). reflexivity.
  - apply (proj1 (parse_percent_text_digits "-")). reflexivity.
Defined.

Lemma years_between_spec_witness :
  exists n,
    ExportCsv.years_between (Some (Date.mk_date 2010 3 12)) Samples.today = Some n
    /\ (0 <= n)%Z
    /\ (IZR n * 365.2425 <= IZR (Date.days_between (Date.mk_date 2010 3 12) Samples.today)
        < (IZR n + 1) * 365.2425)%R.
Proof.
  destruct (years_between_spec (Date.mk_date 2010 3 12) Samples.today) as (_ & _ & H).
  apply H. vm_compute. intro Hx. discriminate Hx.
Defined.

Lemma infer_launch_date_earliest_witness :
  exists y m,
    In (y, m) [(2021, 2); (2020, 1); (2021, 1)]%Z
    /\ (forall p, In p [(2021, 2); (2020, 1); (2021, 1)]%Z -> Spec.pair_le (y, m) p)
    /\ ExportCsv.infer_launch_date_from_heatmap (PDict (Spec.heatmap_of Samples.two_years))
       = Date.date_new y m 1.
Proof.
  pose proof (@infer_launch_date_earliest (Spec.heatmap_of Samples.two_years)
                (map Spec.row_of Samples.two_years) eq_refl) as H.
  cbv zeta in H. destruct H as (_ & H).
  destruct H as (y & m & Hin & Hmin & Hd & _); [discriminate|].
  exists y, m. split; [exact Hin|]. split; [exact Hmin|exact Hd].
Defined.

Lemma load_ticker_map_first_witness :
  ExportCsv.ticker_of
    (ExportCsv.load_ticker_map Samples.plain_helpers (Some (PList Samples.ticker_file)))
    "IE00B4L5Y983" = "IWDA"
  /\ ExportCsv.load_ticker_map Samples.plain_helpers (Some (PDict [])) = [].
Proof.
  destruct (load_ticker_map_first Samples.plain_helpers Samples.ticker_file "IE00B4L5Y983")
    as (H1 & _ & _ & H4).
  split; [rewrite H1; reflexivity|]. apply H4. intros l Hl. discriminate Hl.
Defined.

Lemma build_overview_rows_columns_witness :
  exists rows,
    ExportCsv.build_overview_rows Samples.plain_helpers Samples.today []
      [Samples.not_a_document; Samples.nameless_document] = Ok rows
    /\ List.length rows = 1%nat
    /\ Forall (fun row => map fst row = ExportCsv.overview_headers) rows.
Proof.
  eexists. split; [vm_compute; reflexivity|]. split; [reflexivity|].
  refine (Forall_impl _ _
            (proj2 (@build_overview_rows_columns Samples.plain_helpers Samples.today []
                      [Samples.not_a_document; Samples.nameless_document] _ _))).
  - intros row (H & _). exact H.
  - vm_compute. reflexivity.
Defined.

Lemma build_overview_rows_aborts_witness :
  ExportCsv.build_overview_rows Samples.plain_helpers Samples.today []
    [Samples.nameless_document; PDict Samples.numeric_fees_document; PDict Samples.profile]
  = Raise AttributeError.
Proof.
  destruct (ExportCsv.build_overview_rows Samples.plain_helpers Samples.today []
              [Samples.nameless_document]) as [before|e] eqn:Hpre;
    [|vm_compute in Hpre; discriminate Hpre].
  apply (@build_overview_rows_aborts Samples.plain_helpers Samples.today []
           [Samples.nameless_document] [PDict Samples.profile]
           Samples.numeric_fees_document
           [("frais_totaux_sur_encours_ter", PInt 1)] (PInt 1) before Hpre);
    try reflexivity. vm_compute. discriminate.
Defined.

Lemma overview_row_recorded_cagr_witness :
  exists row,
    ExportCsv.overview_row Samples.plain_helpers Samples.today []
      (PDict (Scrape.record_cagr Samples.today (Some (Spec.heatmap_of Samples.flat_year))
                Samples.flat_year_profile)) = Ok (Some row)
    /\ get row "CAGR (%)" = PFloat (py_round 0 6).
Proof.
  assert (Hdoc : Scrape.record_cagr Samples.today (Some (Spec.heatmap_of Samples.flat_year))
                   Samples.flat_year_profile
                 = [("isin", PStr "IE00B4L5Y983");
                    ("heatmap_mensuelle", PDict (Spec.heatmap_of Samples.flat_year));
                    ("cagr_depuis_creation_pct", PFloat (py_round 0 6));
                    ("cagr_depuis_creation_source", PStr "heatmap_mensuelle")]).
  { unfold Scrape.record_cagr. rewrite flat_year_scrape. reflexivity. }
  destruct (ExportCsv.overview_row Samples.plain_helpers Samples.today []
              (PDict (Scrape.record_cagr Samples.today
                        (Some (Spec.heatmap_of Samples.flat_year))
                        Samples.flat_year_profile))) as [[row|]|e] eqn:Hrow.
  - exists row. split; [reflexivity|].
    apply (@overview_row_recorded_cagr Samples.plain_helpers Samples.today Samples.today []
             (Some (Spec.heatmap_of Samples.flat_year)) Samples.flat_year_profile row 0%R
             Hrow).
    left. exact flat_year_scrape.
  - exfalso. rewrite Hdoc in Hrow. vm_compute in Hrow. discriminate Hrow.
  - exfalso. rewrite Hdoc in Hrow. vm_compute in Hrow. discriminate Hrow.
Defined.

Lemma load_isins_spec_witness :
  Scrape.load_isins (PList [PStr " ie00b4l5y983 "; PStr "  "; PStr "IE00B5BMR087"])
  = Some ["IE00B4L5Y983"; "IE00B5BMR087"]
  /\ Scrape.load_isins (PList [PStr "IE00B4L5Y983"; PInt 1]) = None.
Proof.
  destruct (load_isins_spec [" ie00b4l5y983 "; "  "; "IE00B5BMR087"]) as (H1 & _ & _ & H4).
  split; [exact H1|].
  apply (H4 [PStr "IE00B4L5Y983"] [] (PInt 1)). reflexivity.
Defined.

Lemma scrape_loop_isolation_witness :
  get (snd (Scrape.scrape_loop Samples.today Samples.failing_jobs)) "IE00B4L5Y983"
  = PStr "HTTP 404: Not Found".
Proof.
  destruct (scrape_loop_isolation Samples.today Samples.failing_jobs "IE00B4L5Y983")
    as (_ & H).
  apply (H [] [("IE00B5BMR087", Scrape.Profile [] None)]
           (Scrape.Failure "HTTP 404: Not Found") eq_refl).
  intros [Hx|[]]. discriminate Hx.
Defined.

Lemma scrape_exit_code_witness :
  Scrape.exit_code (Scrape.scrape_loop Samples.today Samples.failing_jobs) = 2%Z
  /\ Scrape.scrape_one Samples.today "IE00B5BMR087" (Scrape.Profile [] None)
     = inr "Nom introuvable: page probablement invalide ou structure changee.".
Proof.
  destruct (scrape_exit_code Samples.today Samples.failing_jobs) as (_ & H2 & H3).
  split; [|apply H3; reflexivity].
  apply H2. apply Exists_cons_hd. intros (doc & Hdoc). discriminate Hdoc.
Defined.

Lemma fmt_number_shape_witness :
  exists ip fp,
    ExportCsv.fmt_number (Some (25 / 2)%R) 4 = Spec.numeral false ip fp ","
    /\ sall is_digit ip = true /\ sall is_digit fp = true
    /\ (String.length fp <= 4)%nat /\ rstrip (is_char "0") fp = fp.
Proof.
  destruct (@fmt_number_shape (25 / 2)%R 4) as (ip & fp & H & Hip & _ & Hfp & Hl & Hz & _);
    [lia|].
  exists ip, fp. destruct (Rlt_dec (25 / 2) 0) as [Hx|_]; [exfalso; lra|].
  repeat split; assumption.
Defined.

Lemma parse_french_date_reads_witness :
  Scrape.parse_french_date (Some "12 mars 2020") = Some (Date.mk_date 2020 3 12).
Proof.
  apply (@parse_french_date_reads "1" (Some "2"%char) "2" "0" "2" "0" "mars");
    reflexivity || discriminate.
Defined.

Lemma parse_french_date_accent_witness :
  Scrape.parse_french_date (Some ("12 f" ++ String (ascii_of_nat 233) "vrier 2020")) = None.
Proof.
  apply (@parse_french_date_accent "1" (Some "2"%char) "2" "0" "2" "0" (ascii_of_nat 233)
           "f" "vrier"); reflexivity.
Defined.

Lemma clean_spaces_tidy_witness :
  ExportCsv.clean_spaces "Taille du fonds" = "Taille du fonds".
Proof.
  destruct (clean_spaces_tidy "Taille du fonds") as (_ & H & _). apply H. reflexivity.
Defined.

End Instances.
